(** * H3C SNMP simulator: the device-state simulation engine

    A shallow embedding of [monitorSystemMetrics] (the fast cycle),
    [incrementCounters] (the slow cycle) and the [updateOidValue] closure of
    the simulator's [main.go], with the properties of the engine that the
    specification lists and, in the last part, further properties of the
    code: its invariants, what its two read models agree on, its log, its
    initialisation.

    Conventions of the embedding.
    - Go's fixed-width integers are [Z] with the wrap-around written out
      ([u32], [u64]).
    - [float64] is IEEE-754 binary64 as given by the Standard Library's
      [SpecFloat] (precision 53, [emax] 1024, round to nearest even); nothing
      is idealised to real numbers.
    - [time.Time] is a number of nanoseconds on the process's monotonic
      clock; [time.Duration] is an [int64] count of nanoseconds.
    - [oidMap] is a [gmap string SnmpPDU]; the Prometheus vectors are maps
      from the pair of label values to the child metric.
    - [math/rand] is a list of raw draws held in the world: [Intn n] consumes
      one and reduces it modulo [n], so every result is in [[0,n)] and every
      sequence of results is produced by some list.
    - The two goroutines exclude each other on the data they share by the
      mutexes of the program; one tick of either is one atomic step of the
      model. *)

From Stdlib Require Import ZArith Lia.
From Stdlib Require Import Floats.SpecFloat.
From stdpp Require Import base gmap strings list fin_maps pretty.

Open Scope Z_scope.

(** ** Fixed-width integers *)

Definition u32 (n : Z) : Z := n mod 2 ^ 32.
Definition u64 (n : Z) : Z := n mod 2 ^ 64.

Definition minInt64 : Z := - 2 ^ 63.
Definition maxInt64 : Z := 2 ^ 63 - 1.

(** ** [float64] *)

Module F64.

Definition prec : Z := 53.
Definition emax : Z := 1024.

(** [float64(n)] for an integer [n], and the value of an integer constant
    used in a [float64] expression. *)
Definition of_Z (n : Z) : spec_float := binary_normalize prec emax n 0 false.

Definition add : spec_float -> spec_float -> spec_float := SFadd prec emax.
Definition mul : spec_float -> spec_float -> spec_float := SFmul prec emax.
Definition div : spec_float -> spec_float -> spec_float := SFdiv prec emax.

(** [x < y], [x <= y] and [x == y] of Go: false as soon as one side is NaN. *)
Definition ltb : spec_float -> spec_float -> bool := SFltb.
Definition leb : spec_float -> spec_float -> bool := SFleb.
Definition eqb : spec_float -> spec_float -> bool := SFeqb.

(** Structural identity of two floats (same bits up to the NaN payload). *)
Definition same (x y : spec_float) : bool :=
  match x, y with
  | S754_zero a, S754_zero b => Bool.eqb a b
  | S754_infinity a, S754_infinity b => Bool.eqb a b
  | S754_nan, S754_nan => true
  | S754_finite a m e, S754_finite b m' e' =>
      Bool.eqb a b && Pos.eqb m m' && Z.eqb e e'
  | _, _ => false
  end.

(** The integer part of a float, rounded toward zero; [None] for NaN and
    the infinities. *)
Definition trunc (x : spec_float) : option Z :=
  match x with
  | S754_zero _ => Some 0
  | S754_finite s m e =>
      let mag := if 0 <=? e then Z.pos m * 2 ^ e else Z.pos m / 2 ^ (- e) in
      Some (if s then - mag else mag)
  | _ => None
  end.

(** Conversions of a [float64] to an integer type. Go truncates toward
    zero when the result fits; otherwise the language leaves the result to
    the implementation, and the model takes the one of the amd64 compiler
    (the "integer indefinite" value of the truncating conversion
    instruction, then the low bits). *)
Definition to_int64 (x : spec_float) : Z :=
  match trunc x with
  | Some z => if (minInt64 <=? z) && (z <=? maxInt64) then z else minInt64
  | None => minInt64
  end.

Definition to_int32 (x : spec_float) : Z :=
  match trunc x with
  | Some z => if (- 2 ^ 31 <=? z) && (z <? 2 ^ 31) then z else - 2 ^ 31
  | None => - 2 ^ 31
  end.

Definition to_uint32 (x : spec_float) : Z := u32 (to_int64 x).

Definition to_uint64 (x : spec_float) : Z :=
  match trunc x with
  | Some z => if z <? 2 ^ 63 then u64 (to_int64 x) else u64 z
  | None => 2 ^ 63
  end.

End F64.

(** ** [time] *)

Module time.

Definition Second : Z := 1000000000.

(** [t.Sub(u)]: the difference, saturated to the range of [Duration]. *)
Definition Sub (t u : Z) : Z :=
  let d := t - u in
  if d <? minInt64 then minInt64 else if maxInt64 <? d then maxInt64 else d.

(** [d.Seconds()]: [float64(d / Second) + float64(d % Second) / 1e9], with
    Go's truncated division and remainder. *)
Definition Seconds (d : Z) : spec_float :=
  let sec := Z.quot d Second in
  let nsec := Z.rem d Second in
  F64.add (F64.of_Z sec) (F64.div (F64.of_Z nsec) (F64.of_Z 1000000000)).

End time.

(** ** Constants of the program *)

Definition baseSystemOIDPrefix : string := ".1.3.6.1.2.1.1".
Definition baseInterfacesOIDPrefix : string := ".1.3.6.1.2.1.2".
Definition customSimBaseOIDPrefix : string := ".1.3.6.1.4.1.2021.13".
Definition customSimSystemOIDPrefix : string := customSimBaseOIDPrefix +:+ ".1".
Definition customSimIfRateOIDPrefix : string := customSimBaseOIDPrefix +:+ ".2".
Definition customSimH3CCommonOIDPrefix : string := customSimBaseOIDPrefix +:+ ".3".

Definition simulatedTotalMemoryBytes : Z := 512 * 1024 * 1024.
Definition metricsUpdateInterval : Z := 1 * time.Second.
Definition counterIncrementInterval : Z := 5 * time.Second.
Definition version : string := "1.1.0".

(** [fmt.Sprintf("%d", n)]. *)
Definition fmt_d (n : Z) : string := pretty n.

(** ** Data structures *)

Module interfaceData.
Record t := mk {
  index : Z;           (* int32 *)
  descr : string;
  adminStatus : Z;     (* int32; 1: up, 2: down *)
  operStatus : Z;      (* int32; 1: up, 2: down *)
  inOctets : Z;        (* uint64 *)
  outOctets : Z;       (* uint64 *)
  lastInOctets : Z;    (* uint64 *)
  lastOutOctets : Z;   (* uint64 *)
  lastUpdateTime : Z;  (* time.Time *)
  inErrors : Z;        (* uint64 *)
  outDiscards : Z      (* uint64 *)
}.

Definition set_baseline (now : Z) (x : t) : t :=
  mk (index x) (descr x) (adminStatus x) (operStatus x)
     (inOctets x) (outOctets x) (inOctets x) (outOctets x) now
     (inErrors x) (outDiscards x).

Definition add_octets (din dout : Z) (x : t) : t :=
  mk (index x) (descr x) (adminStatus x) (operStatus x)
     (u64 (inOctets x + din)) (u64 (outOctets x + dout))
     (lastInOctets x) (lastOutOctets x) (lastUpdateTime x)
     (inErrors x) (outDiscards x).

Definition add_inErrors (d : Z) (x : t) : t :=
  mk (index x) (descr x) (adminStatus x) (operStatus x)
     (inOctets x) (outOctets x)
     (lastInOctets x) (lastOutOctets x) (lastUpdateTime x)
     (u64 (inErrors x + d)) (outDiscards x).

Definition add_outDiscards (d : Z) (x : t) : t :=
  mk (index x) (descr x) (adminStatus x) (operStatus x)
     (inOctets x) (outOctets x)
     (lastInOctets x) (lastOutOctets x) (lastUpdateTime x)
     (inErrors x) (u64 (outDiscards x + d)).

(** The label values [ifIndex], [ifDescr] of the interface's samples. *)
Definition labels (x : t) : string * string := (fmt_d (index x), descr x).
End interfaceData.

Module fanData.
Record t := mk {
  index : Z;    (* int32 *)
  descr : string;
  status : Z    (* int32; 1: normal, 2: failed *)
}.
Definition set_status (s : Z) (x : t) : t := mk (index x) (descr x) s.
Definition labels (x : t) : string * string := (fmt_d (index x), descr x).
End fanData.

Module psuData.
Record t := mk {
  index : Z;    (* int32 *)
  descr : string;
  status : Z    (* int32; 1: normal, 2: failed, 3: not_present *)
}.
Definition set_status (s : Z) (x : t) : t := mk (index x) (descr x) s.
Definition labels (x : t) : string * string := (fmt_d (index x), descr x).
End psuData.

Definition statusNormal : Z := 1.
Definition statusFailed : Z := 2.
Definition statusNotPresent : Z := 3.

(** ** The Typed Value Store: [map[string]gosnmp.SnmpPDU] *)

(** The type tags of [gosnmp] (its [Asn1BER]). *)
Inductive Asn1BER :=
  | Boolean | Integer | BitString | OctetString | Null | ObjectIdentifier
  | IPAddress | Counter32 | Gauge32 | TimeTicks | Opaque | Counter64.

(** The dynamic value held by an [interface{}]. *)
Inductive GoValue :=
  | VNil
  | VBytes (b : string)          (* []byte *)
  | VString (s : string)
  | VInt (n : Z)                 (* int *)
  | VInt32 (n : Z)
  | VUint32 (n : Z)
  | VUint64 (n : Z)
  | VFloat64 (x : spec_float).

Record SnmpPDU := mkPDU {
  Name : string;
  Type' : Asn1BER;     (* the field Type *)
  Value : GoValue
}.

(** What the program writes to its log. *)
Inductive LogEntry :=
  | LogFanStatus (descr : string) (index : Z) (to : string)
  | LogPsuStatus (descr : string) (index : Z) (to : string)
  | LogTypeMismatch (oid : string) (expected : string) (got : GoValue)
  | LogUnhandledType (oid : string) (ty : Asn1BER).

(** The keys of the store. *)
Definition sysDescrOID : string := baseSystemOIDPrefix +:+ ".1.0".
Definition sysUpTimeOID : string := baseSystemOIDPrefix +:+ ".3.0".
Definition sysNameOID : string := baseSystemOIDPrefix +:+ ".5.0".
Definition ifNumberOID : string := baseInterfacesOIDPrefix +:+ ".1.0".
Definition simVersionOID : string := customSimSystemOIDPrefix +:+ ".1.0".
Definition simGoroutinesOID : string := customSimSystemOIDPrefix +:+ ".2.0".
Definition simGcCountOID : string := customSimSystemOIDPrefix +:+ ".3.0".
Definition simMemoryMBOID : string := customSimSystemOIDPrefix +:+ ".4.0".
Definition simUptimeSecOID : string := customSimSystemOIDPrefix +:+ ".5.0".
Definition simCpuOID : string := customSimSystemOIDPrefix +:+ ".6.0".
Definition simMemoryUtilOID : string := customSimH3CCommonOIDPrefix +:+ ".2.0".
Definition simTemperatureOID : string := customSimH3CCommonOIDPrefix +:+ ".3.0".
Definition simArpOID : string := customSimH3CCommonOIDPrefix +:+ ".8.0".
Definition simMacOID : string := customSimH3CCommonOIDPrefix +:+ ".9.0".
Definition simTcpOID : string := customSimH3CCommonOIDPrefix +:+ ".10.0".

(** [fmt.Sprintf("%s.%d.1", customSimIfRateOIDPrefix, index)] and the like. *)
Definition ifInRateOID (index : Z) : string :=
  customSimIfRateOIDPrefix +:+ "." +:+ fmt_d index +:+ ".1".
Definition ifOutRateOID (index : Z) : string :=
  customSimIfRateOIDPrefix +:+ "." +:+ fmt_d index +:+ ".2".
Definition ifInErrorsOID (index : Z) : string :=
  customSimH3CCommonOIDPrefix +:+ ".6.1." +:+ fmt_d index.
Definition ifOutDiscardsOID (index : Z) : string :=
  customSimH3CCommonOIDPrefix +:+ ".7.1." +:+ fmt_d index.
Definition fanStatusOID (index : Z) : string :=
  customSimH3CCommonOIDPrefix +:+ ".4.1." +:+ fmt_d index.
Definition psuStatusOID (index : Z) : string :=
  customSimH3CCommonOIDPrefix +:+ ".5.1." +:+ fmt_d index.

(** ** The push registry (Prometheus) *)

(** A gauge holds the last value set. A counter holds the sum of what was
    added to it ([Add] is the only way the program changes one; the library
    refuses a negative argument, and the program only ever passes
    [float64] of an unsigned integer). A vector creates the child of a
    label pair at zero on first use. *)
Abbreviation Vec := (gmap (string * string) spec_float).

Definition Counter_Add (v : spec_float) (c : spec_float) : spec_float := F64.add c v.
Definition Counter_Inc (c : spec_float) : spec_float := F64.add c (F64.of_Z 1).

Definition Vec_Set (l : string * string) (v : spec_float) (m : Vec) : Vec :=
  <[ l := v ]> m.
Definition Vec_Add (l : string * string) (v : spec_float) (m : Vec) : Vec :=
  <[ l := Counter_Add v (default (F64.of_Z 0) (m !! l)) ]> m.

Record Registry := mkRegistry {
  gcCount : spec_float;                       (* counter *)
  memoryUsage : spec_float;
  goroutineCount : spec_float;
  cpuUsage : spec_float;
  uptime : spec_float;                        (* counter *)
  ifInRate : Vec;
  ifOutRate : Vec;
  simMemoryUtilPercent : spec_float;
  simDeviceTemperatureCelsius : spec_float;
  simFanStatus : Vec;
  simPsuStatus : Vec;
  simIfInErrorsTotal : Vec;                   (* counter vector *)
  simIfOutDiscardsTotal : Vec;                (* counter vector *)
  simArpCacheEntries : spec_float;
  simMacTableEntries : spec_float;
  simActiveTcpConnections : spec_float
}.

(** ** The world: the package-level variables, the random source, the log *)

Record World := mkWorld {
  oidMap : gmap string SnmpPDU;
  interfaces : list interfaceData.t;
  fans : list fanData.t;
  psus : list psuData.t;
  reg : Registry;
  rng : list Z;
  logs : list LogEntry;
  startTime : Z
}.

(** The variables that [monitorSystemMetrics] keeps across its iterations. *)
Record MonitorLocals := mkLocals {
  lastGCCount : Z;               (* uint32 *)
  simulatedDeviceCPU : spec_float;
  simulatedDeviceTemp : spec_float
}.

(** What one iteration of [monitorSystemMetrics] reads from outside the
    program's own variables: the tick's time and the Go runtime. *)
Record TickEnv := mkEnv {
  currentTime : Z;        (* the time.Time received from ticker.C *)
  NumGC : Z;              (* memStats.NumGC, uint32 *)
  Alloc : Z;              (* memStats.Alloc, uint64 *)
  NumGoroutine1 : Z;      (* runtime.NumGoroutine(), first call *)
  NumGoroutine2 : Z;      (* runtime.NumGoroutine(), second call *)
  timeNow : Z             (* the clock read by time.Since(startTime) *)
}.

(** Field updates. *)
Definition with_oidMap (m : gmap string SnmpPDU) (w : World) : World :=
  mkWorld m (interfaces w) (fans w) (psus w) (reg w) (rng w) (logs w) (startTime w).
Definition with_interfaces (l : list interfaceData.t) (w : World) : World :=
  mkWorld (oidMap w) l (fans w) (psus w) (reg w) (rng w) (logs w) (startTime w).
Definition with_fans (l : list fanData.t) (w : World) : World :=
  mkWorld (oidMap w) (interfaces w) l (psus w) (reg w) (rng w) (logs w) (startTime w).
Definition with_psus (l : list psuData.t) (w : World) : World :=
  mkWorld (oidMap w) (interfaces w) (fans w) l (reg w) (rng w) (logs w) (startTime w).
Definition with_reg (r : Registry) (w : World) : World :=
  mkWorld (oidMap w) (interfaces w) (fans w) (psus w) r (rng w) (logs w) (startTime w).
Definition with_rng (g : list Z) (w : World) : World :=
  mkWorld (oidMap w) (interfaces w) (fans w) (psus w) (reg w) g (logs w) (startTime w).
Definition with_logs (l : list LogEntry) (w : World) : World :=
  mkWorld (oidMap w) (interfaces w) (fans w) (psus w) (reg w) (rng w) l (startTime w).

Definition add_gcCount (v : spec_float) (r : Registry) : Registry :=
  mkRegistry (Counter_Add v (gcCount r)) (memoryUsage r) (goroutineCount r) (cpuUsage r)
    (uptime r) (ifInRate r) (ifOutRate r) (simMemoryUtilPercent r)
    (simDeviceTemperatureCelsius r) (simFanStatus r) (simPsuStatus r)
    (simIfInErrorsTotal r) (simIfOutDiscardsTotal r) (simArpCacheEntries r)
    (simMacTableEntries r) (simActiveTcpConnections r).
Definition set_memoryUsage (v : spec_float) (r : Registry) : Registry :=
  mkRegistry (gcCount r) v (goroutineCount r) (cpuUsage r)
    (uptime r) (ifInRate r) (ifOutRate r) (simMemoryUtilPercent r)
    (simDeviceTemperatureCelsius r) (simFanStatus r) (simPsuStatus r)
    (simIfInErrorsTotal r) (simIfOutDiscardsTotal r) (simArpCacheEntries r)
    (simMacTableEntries r) (simActiveTcpConnections r).
Definition set_goroutineCount (v : spec_float) (r : Registry) : Registry :=
  mkRegistry (gcCount r) (memoryUsage r) v (cpuUsage r)
    (uptime r) (ifInRate r) (ifOutRate r) (simMemoryUtilPercent r)
    (simDeviceTemperatureCelsius r) (simFanStatus r) (simPsuStatus r)
    (simIfInErrorsTotal r) (simIfOutDiscardsTotal r) (simArpCacheEntries r)
    (simMacTableEntries r) (simActiveTcpConnections r).
Definition set_cpuUsage (v : spec_float) (r : Registry) : Registry :=
  mkRegistry (gcCount r) (memoryUsage r) (goroutineCount r) v
    (uptime r) (ifInRate r) (ifOutRate r) (simMemoryUtilPercent r)
    (simDeviceTemperatureCelsius r) (simFanStatus r) (simPsuStatus r)
    (simIfInErrorsTotal r) (simIfOutDiscardsTotal r) (simArpCacheEntries r)
    (simMacTableEntries r) (simActiveTcpConnections r).
Definition inc_uptime (r : Registry) : Registry :=
  mkRegistry (gcCount r) (memoryUsage r) (goroutineCount r) (cpuUsage r)
    (Counter_Inc (uptime r)) (ifInRate r) (ifOutRate r) (simMemoryUtilPercent r)
    (simDeviceTemperatureCelsius r) (simFanStatus r) (simPsuStatus r)
    (simIfInErrorsTotal r) (simIfOutDiscardsTotal r) (simArpCacheEntries r)
    (simMacTableEntries r) (simActiveTcpConnections r).
Definition set_ifInRate (l : string * string) (v : spec_float) (r : Registry) : Registry :=
  mkRegistry (gcCount r) (memoryUsage r) (goroutineCount r) (cpuUsage r)
    (uptime r) (Vec_Set l v (ifInRate r)) (ifOutRate r) (simMemoryUtilPercent r)
    (simDeviceTemperatureCelsius r) (simFanStatus r) (simPsuStatus r)
    (simIfInErrorsTotal r) (simIfOutDiscardsTotal r) (simArpCacheEntries r)
    (simMacTableEntries r) (simActiveTcpConnections r).
Definition set_ifOutRate (l : string * string) (v : spec_float) (r : Registry) : Registry :=
  mkRegistry (gcCount r) (memoryUsage r) (goroutineCount r) (cpuUsage r)
    (uptime r) (ifInRate r) (Vec_Set l v (ifOutRate r)) (simMemoryUtilPercent r)
    (simDeviceTemperatureCelsius r) (simFanStatus r) (simPsuStatus r)
    (simIfInErrorsTotal r) (simIfOutDiscardsTotal r) (simArpCacheEntries r)
    (simMacTableEntries r) (simActiveTcpConnections r).
Definition set_simMemoryUtilPercent (v : spec_float) (r : Registry) : Registry :=
  mkRegistry (gcCount r) (memoryUsage r) (goroutineCount r) (cpuUsage r)
    (uptime r) (ifInRate r) (ifOutRate r) v
    (simDeviceTemperatureCelsius r) (simFanStatus r) (simPsuStatus r)
    (simIfInErrorsTotal r) (simIfOutDiscardsTotal r) (simArpCacheEntries r)
    (simMacTableEntries r) (simActiveTcpConnections r).
Definition set_simDeviceTemperatureCelsius (v : spec_float) (r : Registry) : Registry :=
  mkRegistry (gcCount r) (memoryUsage r) (goroutineCount r) (cpuUsage r)
    (uptime r) (ifInRate r) (ifOutRate r) (simMemoryUtilPercent r)
    v (simFanStatus r) (simPsuStatus r)
    (simIfInErrorsTotal r) (simIfOutDiscardsTotal r) (simArpCacheEntries r)
    (simMacTableEntries r) (simActiveTcpConnections r).
Definition set_simFanStatus (l : string * string) (v : spec_float) (r : Registry) : Registry :=
  mkRegistry (gcCount r) (memoryUsage r) (goroutineCount r) (cpuUsage r)
    (uptime r) (ifInRate r) (ifOutRate r) (simMemoryUtilPercent r)
    (simDeviceTemperatureCelsius r) (Vec_Set l v (simFanStatus r)) (simPsuStatus r)
    (simIfInErrorsTotal r) (simIfOutDiscardsTotal r) (simArpCacheEntries r)
    (simMacTableEntries r) (simActiveTcpConnections r).
Definition set_simPsuStatus (l : string * string) (v : spec_float) (r : Registry) : Registry :=
  mkRegistry (gcCount r) (memoryUsage r) (goroutineCount r) (cpuUsage r)
    (uptime r) (ifInRate r) (ifOutRate r) (simMemoryUtilPercent r)
    (simDeviceTemperatureCelsius r) (simFanStatus r) (Vec_Set l v (simPsuStatus r))
    (simIfInErrorsTotal r) (simIfOutDiscardsTotal r) (simArpCacheEntries r)
    (simMacTableEntries r) (simActiveTcpConnections r).
Definition add_simIfInErrorsTotal (l : string * string) (v : spec_float) (r : Registry) : Registry :=
  mkRegistry (gcCount r) (memoryUsage r) (goroutineCount r) (cpuUsage r)
    (uptime r) (ifInRate r) (ifOutRate r) (simMemoryUtilPercent r)
    (simDeviceTemperatureCelsius r) (simFanStatus r) (simPsuStatus r)
    (Vec_Add l v (simIfInErrorsTotal r)) (simIfOutDiscardsTotal r) (simArpCacheEntries r)
    (simMacTableEntries r) (simActiveTcpConnections r).
Definition add_simIfOutDiscardsTotal (l : string * string) (v : spec_float) (r : Registry) : Registry :=
  mkRegistry (gcCount r) (memoryUsage r) (goroutineCount r) (cpuUsage r)
    (uptime r) (ifInRate r) (ifOutRate r) (simMemoryUtilPercent r)
    (simDeviceTemperatureCelsius r) (simFanStatus r) (simPsuStatus r)
    (simIfInErrorsTotal r) (Vec_Add l v (simIfOutDiscardsTotal r)) (simArpCacheEntries r)
    (simMacTableEntries r) (simActiveTcpConnections r).
Definition set_simArpCacheEntries (v : spec_float) (r : Registry) : Registry :=
  mkRegistry (gcCount r) (memoryUsage r) (goroutineCount r) (cpuUsage r)
    (uptime r) (ifInRate r) (ifOutRate r) (simMemoryUtilPercent r)
    (simDeviceTemperatureCelsius r) (simFanStatus r) (simPsuStatus r)
    (simIfInErrorsTotal r) (simIfOutDiscardsTotal r) v
    (simMacTableEntries r) (simActiveTcpConnections r).
Definition set_simMacTableEntries (v : spec_float) (r : Registry) : Registry :=
  mkRegistry (gcCount r) (memoryUsage r) (goroutineCount r) (cpuUsage r)
    (uptime r) (ifInRate r) (ifOutRate r) (simMemoryUtilPercent r)
    (simDeviceTemperatureCelsius r) (simFanStatus r) (simPsuStatus r)
    (simIfInErrorsTotal r) (simIfOutDiscardsTotal r) (simArpCacheEntries r)
    v (simActiveTcpConnections r).
Definition set_simActiveTcpConnections (v : spec_float) (r : Registry) : Registry :=
  mkRegistry (gcCount r) (memoryUsage r) (goroutineCount r) (cpuUsage r)
    (uptime r) (ifInRate r) (ifOutRate r) (simMemoryUtilPercent r)
    (simDeviceTemperatureCelsius r) (simFanStatus r) (simPsuStatus r)
    (simIfInErrorsTotal r) (simIfOutDiscardsTotal r) (simArpCacheEntries r)
    (simMacTableEntries r) v.

(** ** A state monad over the world *)

Definition M (A : Type) : Type := World -> A * World.

Definition ret {A} (a : A) : M A := fun w => (a, w).
Definition bind {A B} (c : M A) (k : A -> M B) : M B :=
  fun w => let (a, w') := c w in k a w'.

#[global] Instance M_ret : MRet M := fun A a => ret a.
#[global] Instance M_bind : MBind M := fun A B k c => bind c k.

Definition gets {A} (f : World -> A) : M A := fun w => (f w, w).
Definition modify (f : World -> World) : M unit := fun w => (tt, f w).

Definition onReg (f : Registry -> Registry) : M unit :=
  modify (fun w => with_reg (f (reg w)) w).
Definition store (oid : string) (pdu : SnmpPDU) : M unit :=
  modify (fun w => with_oidMap (<[ oid := pdu ]> (oidMap w)) w).
Definition logPrintf (e : LogEntry) : M unit :=
  modify (fun w => with_logs (logs w ++ [e]) w).

(** [rand.Intn(n)]: the next raw draw, reduced modulo [n]. *)
Definition draw (n : Z) (g : list Z) : Z :=
  match g with
  | [] => 0
  | r :: _ => r mod n
  end.

Definition Intn (n : Z) : M Z := fun w =>
  (draw n (rng w), with_rng (tail (rng w)) w).

(** [for i := range l] over a slice whose elements the body may replace:
    the body gets the position and the element and returns the element
    as it leaves the iteration. *)
Fixpoint forRange {A} (body : nat -> A -> M A) (i : nat) (l : list A) : M (list A) :=
  match l with
  | [] => ret []
  | x :: l' =>
      y ← body i x;
      ys ← forRange body (S i) l';
      ret (y :: ys)
  end.

(** [for _, x := range l] with a body that only reads the element. *)
Fixpoint forEach {A} (body : A -> M unit) (l : list A) : M unit :=
  match l with
  | [] => ret tt
  | x :: l' => body x;; forEach body l'
  end.

(** ** [monitorSystemMetrics]: one iteration of its loop (the fast cycle) *)

(** [memStats.NumGC] and [memStats.Alloc] as the unsigned values they are. *)
Definition memStats_NumGC (env : TickEnv) : Z := u32 (NumGC env).
Definition memStats_Alloc (env : TickEnv) : Z := u64 (Alloc env).

(** Part 1: the metrics of the simulator itself. Returns [lastGCCount]. *)
Definition updateAppMetrics (env : TickEnv) (lastGC : Z) : M Z :=
  let currentAppGCCount := memStats_NumGC env in
  lastGC' ←
    (if lastGC <? currentAppGCCount then
       onReg (add_gcCount (F64.of_Z (u32 (currentAppGCCount - lastGC))));;
       ret currentAppGCCount
     else ret lastGC);
  onReg (set_memoryUsage (F64.of_Z (memStats_Alloc env)));;
  onReg (set_goroutineCount (F64.of_Z (NumGoroutine1 env)));;
  onReg inc_uptime;;
  ret lastGC'.

(** The CPU utilisation: the previous value plus [rand.Intn(11) - 5], held
    in [[5,90]]. *)
Definition clampCPU (x : spec_float) : spec_float :=
  if F64.ltb x (F64.of_Z 5) then F64.of_Z 5
  else if F64.ltb (F64.of_Z 90) x then F64.of_Z 90
  else x.

Definition updateCPU (cpu : spec_float) : M spec_float :=
  r ← Intn 11;
  let cpuChange := F64.of_Z (r - 5) in
  let cpu' := clampCPU (F64.add cpu cpuChange) in
  onReg (set_cpuUsage cpu');;
  ret cpu'.

(** The memory utilisation: the simulator's own allocation as a percentage
    of [simulatedTotalMemoryBytes], held in [[10,95]]. *)
Definition clampMemoryUtil (x : spec_float) : spec_float :=
  if F64.ltb (F64.of_Z 95) x then F64.of_Z 95
  else if F64.ltb x (F64.of_Z 10) then F64.of_Z 10
  else x.

Definition deviceMemoryUtil (alloc : Z) : spec_float :=
  clampMemoryUtil
    (F64.mul (F64.div (F64.of_Z alloc) (F64.of_Z simulatedTotalMemoryBytes))
             (F64.of_Z 100)).

Definition updateMemoryUtil (env : TickEnv) : M spec_float :=
  let currentDeviceMemoryUtil := deviceMemoryUtil (memStats_Alloc env) in
  onReg (set_simMemoryUtilPercent currentDeviceMemoryUtil);;
  ret currentDeviceMemoryUtil.

(** The temperature: the previous value plus [rand.Intn(5) - 2], held in
    [[20,75]]. *)
Definition clampTemp (x : spec_float) : spec_float :=
  if F64.ltb x (F64.of_Z 20) then F64.of_Z 20
  else if F64.ltb (F64.of_Z 75) x then F64.of_Z 75
  else x.

Definition updateTemp (temp : spec_float) : M spec_float :=
  r ← Intn 5;
  let tempChange := F64.of_Z (r - 2) in
  let temp' := clampTemp (F64.add temp tempChange) in
  onReg (set_simDeviceTemperatureCelsius temp');;
  ret temp'.

(** The body of the loop over [interfaces]: the rates of one interface and
    its four entries of the store. The loop holds the read lock of
    [interfaces], so [interfaces[i]] is the element [iface] it ranges over. *)
Definition publishInterface (env : TickEnv) (iface : interfaceData.t) : M unit :=
  if interfaceData.operStatus iface =? 1 then
    let timeDiffSeconds :=
      time.Seconds (time.Sub (currentTime env) (interfaceData.lastUpdateTime iface)) in
    if F64.ltb (F64.of_Z 0) timeDiffSeconds then
      let currentInOctets := interfaceData.inOctets iface in
      let currentOutOctets := interfaceData.outOctets iface in
      let inRateBps :=
        F64.div (F64.of_Z (u64 (currentInOctets - interfaceData.lastInOctets iface)))
                timeDiffSeconds in
      let outRateBps :=
        F64.div (F64.of_Z (u64 (currentOutOctets - interfaceData.lastOutOctets iface)))
                timeDiffSeconds in
      let idx := interfaceData.index iface in
      onReg (set_ifInRate (interfaceData.labels iface) inRateBps);;
      onReg (set_ifOutRate (interfaceData.labels iface) outRateBps);;
      store (ifInRateOID idx)
            (mkPDU (ifInRateOID idx) Gauge32 (VUint32 (F64.to_uint32 inRateBps)));;
      store (ifOutRateOID idx)
            (mkPDU (ifOutRateOID idx) Gauge32 (VUint32 (F64.to_uint32 outRateBps)));;
      store (ifInErrorsOID idx)
            (mkPDU (ifInErrorsOID idx) Counter32 (VUint32 (u32 (interfaceData.inErrors iface))));;
      store (ifOutDiscardsOID idx)
            (mkPDU (ifOutDiscardsOID idx) Counter32 (VUint32 (u32 (interfaceData.outDiscards iface))))
    else ret tt
  else ret tt.

(** The body of the loop over [fans]. *)
Definition updateFan (_ : nat) (fan : fanData.t) : M fanData.t :=
  r ← Intn 200;
  fan' ←
    (if r <? 1 then
       if fanData.status fan =? 1 then
         logPrintf (LogFanStatus (fanData.descr fan) (fanData.index fan) "failed");;
         ret (fanData.set_status 2 fan)
       else
         logPrintf (LogFanStatus (fanData.descr fan) (fanData.index fan) "normal");;
         ret (fanData.set_status 1 fan)
     else ret fan);
  onReg (set_simFanStatus (fanData.labels fan') (F64.of_Z (fanData.status fan')));;
  store (fanStatusOID (fanData.index fan'))
        (mkPDU (fanStatusOID (fanData.index fan')) Integer (VInt32 (fanData.status fan')));;
  ret fan'.

(** The body of the loop over [psus]. The random draw is the right operand
    of [&&]: there is none for the power supply named ["PSU2_SLOT1"]. *)
Definition pinnedPsu : string := "PSU2_SLOT1".

Definition updatePsu (_ : nat) (psu : psuData.t) : M psuData.t :=
  change ←
    (if bool_decide (psuData.descr psu ≠ pinnedPsu) then
       r ← Intn 500; ret (r <? 1)
     else ret false);
  psu' ←
    (if (change : bool) then
       if psuData.status psu =? 1 then
         logPrintf (LogPsuStatus (psuData.descr psu) (psuData.index psu) "failed");;
         ret (psuData.set_status 2 psu)
       else if psuData.status psu =? 2 then
         logPrintf (LogPsuStatus (psuData.descr psu) (psuData.index psu) "normal");;
         ret (psuData.set_status 1 psu)
       else ret psu
     else ret psu);
  onReg (set_simPsuStatus (psuData.labels psu') (F64.of_Z (psuData.status psu')));;
  store (psuStatusOID (psuData.index psu'))
        (mkPDU (psuStatusOID (psuData.index psu')) Integer (VInt32 (psuData.status psu')));;
  ret psu'.

(** The closure [updateOidValue]: get, modify, put. *)
Definition updateOidValue (oid : string) (value : GoValue) : M unit :=
  m ← gets oidMap;
  match m !! oid with
  | Some pdu =>
      match Type' pdu with
      | Gauge32 | Counter32 | TimeTicks =>
          match value with
          | VUint32 v => store oid (mkPDU (Name pdu) (Type' pdu) (VUint32 v))
          | _ => logPrintf (LogTypeMismatch oid "uint32" value)
          end
      | Integer =>
          match value with
          | VInt32 v => store oid (mkPDU (Name pdu) (Type' pdu) (VInt32 v))
          | _ => logPrintf (LogTypeMismatch oid "int32" value)
          end
      | ty => logPrintf (LogUnhandledType oid ty)
      end
  | None => ret tt
  end.

(** Part 3: the scalars of the store. *)
Definition updateScalars (env : TickEnv) (cpu mem temp : spec_float)
    (arpEntriesVal macEntriesVal tcpConnectionsVal : Z) : M unit :=
  updateOidValue simGoroutinesOID (VUint32 (u32 (NumGoroutine2 env)));;
  updateOidValue simGcCountOID (VUint32 (memStats_NumGC env));;
  updateOidValue simMemoryMBOID (VUint32 (u32 (memStats_Alloc env / 1024 / 1024)));;
  t0 ← gets startTime;
  let currentSimUptimeTicks :=
    F64.to_uint32 (F64.mul (time.Seconds (time.Sub (timeNow env) t0)) (F64.of_Z 100)) in
  updateOidValue simUptimeSecOID (VUint32 currentSimUptimeTicks);;
  updateOidValue simCpuOID (VUint32 (F64.to_uint32 cpu));;
  updateOidValue simMemoryUtilOID (VUint32 (F64.to_uint32 mem));;
  updateOidValue simTemperatureOID (VInt32 (F64.to_int32 temp));;
  updateOidValue simArpOID (VUint32 arpEntriesVal);;
  updateOidValue simMacOID (VUint32 macEntriesVal);;
  updateOidValue simTcpOID (VUint32 tcpConnectionsVal).

(** The three loops of part 2 and the three tables drawn afresh. *)
Definition publishInterfaces (env : TickEnv) : M unit :=
  ifs ← gets interfaces;
  forEach (publishInterface env) ifs.

Definition updateFans : M unit :=
  fs ← gets fans;
  fs' ← forRange updateFan 0 fs;
  modify (with_fans fs').

Definition updatePsus : M unit :=
  ps ← gets psus;
  ps' ← forRange updatePsu 0 ps;
  modify (with_psus ps').

Definition updateTables : M (Z * Z * Z) :=
  ra ← Intn 450;
  rm ← Intn 900;
  rt ← Intn 280;
  let arpEntriesVal := u32 (ra + 50) in
  let macEntriesVal := u32 (rm + 100) in
  let tcpConnectionsVal := u32 (rt + 20) in
  onReg (set_simArpCacheEntries (F64.of_Z arpEntriesVal));;
  onReg (set_simMacTableEntries (F64.of_Z macEntriesVal));;
  onReg (set_simActiveTcpConnections (F64.of_Z tcpConnectionsVal));;
  ret (arpEntriesVal, macEntriesVal, tcpConnectionsVal).

Definition monitorSystemMetrics_iter (env : TickEnv) (l : MonitorLocals) : M MonitorLocals :=
  lastGC ← updateAppMetrics env (lastGCCount l);
  cpu ← updateCPU (simulatedDeviceCPU l);
  mem ← updateMemoryUtil env;
  temp ← updateTemp (simulatedDeviceTemp l);
  publishInterfaces env;;
  updateFans;;
  updatePsus;;
  tables ← updateTables;
  updateScalars env cpu mem temp tables.1.1 tables.1.2 tables.2;;
  ret (mkLocals lastGC cpu temp).

(** ** [incrementCounters]: one iteration of its loop (the slow cycle) *)

(** The body of the loop over [interfaces]; [i] is the position in the
    slice, [now] the [time.Now()] read at the start of the iteration. *)
Definition incrementInterface (now : Z) (i : nat) (iface : interfaceData.t)
    : M interfaceData.t :=
  if interfaceData.operStatus iface =? 1 then
    let iface1 := interfaceData.set_baseline now iface in
    r1 ← Intn 20000;
    r2 ← Intn 30000;
    let iface2 :=
      interfaceData.add_octets (u64 (r1 + 10000 + Z.of_nat i * 1000))
                               (u64 (r2 + 15000 + Z.of_nat i * 2000)) iface1 in
    r3 ← Intn 100;
    if r3 <? 2 then
      r4 ← Intn 3;
      let newInErrors := u64 (r4 + 1) in
      let iface3 := interfaceData.add_inErrors newInErrors iface2 in
      onReg (add_simIfInErrorsTotal (interfaceData.labels iface3) (F64.of_Z newInErrors));;
      r5 ← Intn 2;
      let newOutDiscards := u64 (r5 + 1) in
      let iface4 := interfaceData.add_outDiscards newOutDiscards iface3 in
      onReg (add_simIfOutDiscardsTotal (interfaceData.labels iface4) (F64.of_Z newOutDiscards));;
      ret iface4
    else ret iface2
  else ret iface.

(** [uint32(counterIncrementInterval.Seconds() * 100)]. *)
Definition incrementTicks : Z :=
  F64.to_uint32 (F64.mul (time.Seconds counterIncrementInterval) (F64.of_Z 100)).

(** The update of [sysUpTime]. The type assertion [pdu.Value.(uint32)] has
    no second result: it panics on any other dynamic type ([None]). *)
Definition advanceSysUpTime (m : gmap string SnmpPDU) : option (gmap string SnmpPDU) :=
  match m !! sysUpTimeOID with
  | Some pdu =>
      match Value pdu with
      | VUint32 currentSysUpTimeTicks =>
          Some (<[ sysUpTimeOID :=
                   mkPDU (Name pdu) (Type' pdu)
                         (VUint32 (u32 (currentSysUpTimeTicks + incrementTicks))) ]> m)
      | _ => None
      end
  | None => Some m
  end.

Definition incrementCounters_loop (now : Z) : M unit :=
  ifs ← gets interfaces;
  ifs' ← forRange (incrementInterface now) 0 ifs;
  modify (with_interfaces ifs').

Definition incrementCounters_iter (now : Z) (w : World) : option World :=
  let w1 := snd (incrementCounters_loop now w) in
  match advanceSysUpTime (oidMap w1) with
  | Some m => Some (with_oidMap m w1)
  | None => None
  end.

(** ** The running system *)

Record State := mkState {
  locals : MonitorLocals;
  world : World
}.

Inductive Event :=
  | FastTick (env : TickEnv)
  | SlowTick (now : Z).

Definition fast_tick (env : TickEnv) (st : State) : State :=
  let (l, w) := monitorSystemMetrics_iter env (locals st) (world st) in
  mkState l w.

Definition slow_tick (now : Z) (st : State) : option State :=
  match incrementCounters_iter now (world st) with
  | Some w => Some (mkState (locals st) w)
  | None => None
  end.

Definition step (ev : Event) (st : State) : option State :=
  match ev with
  | FastTick env => Some (fast_tick env st)
  | SlowTick now => slow_tick now st
  end.

Fixpoint run (evs : list Event) (st : State) : option State :=
  match evs with
  | [] => Some st
  | ev :: evs' =>
      match step ev st with
      | Some st' => run evs' st'
      | None => None
      end
  end.

(** ** The initial state *)

(** What the initialisation reads from outside: the clock at each
    [time.Now()] and the number of goroutines. *)
Record InitEnv := mkInitEnv {
  initStartTime : Z;
  initIfTime : nat -> Z;      (* time.Now() of the i-th interface literal *)
  initGoroutines : Z
}.

Definition initRegistry : Registry :=
  let z := F64.of_Z 0 in
  mkRegistry z z z z z ∅ ∅ z z ∅ ∅ ∅ ∅ z z z.

Definition octetString (oid : string) (s : string) : SnmpPDU := mkPDU oid OctetString (VBytes s).

(** The package-level variables. [oidMap] uses [len(interfaces)], so
    [interfaces] is initialised first. *)
Definition initInterfaces (ie : InitEnv) : M (list interfaceData.t) :=
  a1 ← Intn 100000; b1 ← Intn 200000;
  a2 ← Intn 150000; b2 ← Intn 250000;
  a5 ← Intn 1000000; b5 ← Intn 2000000;
  ret [ interfaceData.mk 1 "GigabitEthernet1/0/1" 1 1 (u64 a1) (u64 b1) 0 0 (initIfTime ie 0) 0 0;
        interfaceData.mk 2 "GigabitEthernet1/0/2" 1 1 (u64 a2) (u64 b2) 0 0 (initIfTime ie 1) 0 0;
        interfaceData.mk 3 "GigabitEthernet1/0/3" 1 2 0 0 0 0 (initIfTime ie 2) 0 0;
        interfaceData.mk 4 "GigabitEthernet1/0/4" 2 2 0 0 0 0 (initIfTime ie 3) 0 0;
        interfaceData.mk 5 "Ten-GigabitEthernet1/0/1" 1 1 (u64 a5) (u64 b5) 0 0 (initIfTime ie 4) 0 0 ].

Definition initialOidMap (nGoroutines : Z) (nIfs : nat) (up temp arp mac tcp : Z)
    : gmap string SnmpPDU :=
  <[ sysDescrOID := octetString sysDescrOID
       "H3C S5120-52P-SI Switch Software Version 5.20, Release 1115P01 (Simulated)" ]>
  (<[ sysUpTimeOID := mkPDU sysUpTimeOID TimeTicks (VUint32 (u32 (up + 12345000))) ]>
  (<[ sysNameOID := octetString sysNameOID "H3C-Simulated-Switch-01" ]>
  (<[ ifNumberOID := mkPDU ifNumberOID Integer (VInt32 (Z.of_nat nIfs)) ]>
  (<[ simVersionOID := octetString simVersionOID version ]>
  (<[ simGoroutinesOID := mkPDU simGoroutinesOID Gauge32 (VUint32 (u32 nGoroutines)) ]>
  (<[ simGcCountOID := mkPDU simGcCountOID Counter32 (VUint32 0) ]>
  (<[ simMemoryMBOID := mkPDU simMemoryMBOID Gauge32 (VUint32 0) ]>
  (<[ simUptimeSecOID := mkPDU simUptimeSecOID TimeTicks (VUint32 0) ]>
  (<[ simCpuOID := mkPDU simCpuOID Gauge32 (VUint32 0) ]>
  (<[ simMemoryUtilOID := mkPDU simMemoryUtilOID Gauge32 (VUint32 0) ]>
  (<[ simTemperatureOID := mkPDU simTemperatureOID Integer (VInt32 (temp + 25)) ]>
  (<[ simArpOID := mkPDU simArpOID Gauge32 (VUint32 (u32 (arp + 50))) ]>
  (<[ simMacOID := mkPDU simMacOID Gauge32 (VUint32 (u32 (mac + 100))) ]>
  (<[ simTcpOID := mkPDU simTcpOID Gauge32 (VUint32 (u32 (tcp + 20))) ]>
   ∅)))))))))))))).

Definition initOidMap (ie : InitEnv) (nIfs : nat) : M (gmap string SnmpPDU) :=
  up ← Intn 1000000;
  temp ← Intn 40;
  arp ← Intn 200;
  mac ← Intn 500;
  tcp ← Intn 100;
  ret (initialOidMap (initGoroutines ie) nIfs up temp arp mac tcp).

Definition initFans : list fanData.t :=
  [ fanData.mk 1 "FAN1_SLOT1" 1; fanData.mk 2 "FAN2_SLOT1" 1 ].

Definition initPsus : list psuData.t :=
  [ psuData.mk 1 "PSU1_SLOT1" 1; psuData.mk 2 "PSU2_SLOT1" 2 ].

(** The variables of [monitorSystemMetrics] before its first iteration. *)
Definition initLocals : M MonitorLocals :=
  c ← Intn 30;
  t ← Intn 41;
  ret (mkLocals 0 (F64.of_Z (c + 10)) (F64.of_Z (t + 25))).

Definition initM (ie : InitEnv) : M MonitorLocals :=
  ifs ← initInterfaces ie;
  m ← initOidMap ie (length ifs);
  modify (fun w => with_psus initPsus (with_fans initFans
                     (with_interfaces ifs (with_oidMap m w))));;
  initLocals.

Definition init (ie : InitEnv) (g : list Z) : State :=
  let w0 := mkWorld ∅ [] [] [] initRegistry g [] (initStartTime ie) in
  let (l, w) := initM ie w0 in
  mkState l w.

(** * Properties *)

(** ** Facts about [float64] *)

Module F64Facts.

Lemma same_eq x y : F64.same x y = true -> x = y.
Proof.
  destruct x as [a|a| |a m e], y as [b|b| |b m' e']; simpl; try discriminate;
    try (intros H; apply Bool.eqb_prop in H; congruence); try reflexivity.
  intros H. apply andb_prop in H as [H He]. apply andb_prop in H as [Hs Hm].
  apply Bool.eqb_prop in Hs. apply Pos.eqb_eq in Hm. apply Z.eqb_eq in He.
  congruence.
Qed.

(** A check over a range of integers, to be run by computation. *)
Lemma forallb_seqZ (P : Z -> bool) lo n :
  forallb P (seqZ lo n) = true -> forall k, lo <= k < lo + n -> P k = true.
Proof.
  intros H k Hk. rewrite forallb_forall in H. apply H.
  apply list_elem_of_In, elem_of_seqZ. lia.
Qed.

(** *** Rounding never produces a NaN *)

Definition not_nan (x : spec_float) : Prop := x <> S754_nan.

Lemma iter_pos_preserves {A} (P : A -> Prop) (f : A -> A) :
  (forall x, P x -> P (f x)) -> forall p x, P x -> P (SpecFloat.iter_pos f p x).
Proof.
  intros Hf. induction p as [p IH|p IH|]; simpl; intros x Hx; auto.
Qed.

Lemma shr_1_nonneg mrs : 0 <= shr_m mrs -> 0 <= shr_m (shr_1 mrs).
Proof.
  destruct mrs as [m r s]. simpl.
  destruct m as [|[p|p|]|[p|p|]]; simpl; lia.
Qed.

Lemma shr_nonneg mrs e n : 0 <= shr_m mrs -> 0 <= shr_m (fst (shr mrs e n)).
Proof.
  intros H. unfold shr. destruct n as [|p|p]; simpl; auto.
  apply (iter_pos_preserves (fun x => 0 <= shr_m x)); auto using shr_1_nonneg.
Qed.

Lemma shr_fexp_nonneg m e l :
  0 <= m -> 0 <= shr_m (fst (shr_fexp F64.prec F64.emax m e l)).
Proof.
  intros H. unfold shr_fexp. apply shr_nonneg.
  destruct l as [|[| |]]; simpl; exact H.
Qed.

Lemma round_nearest_even_nonneg m l : 0 <= m -> 0 <= round_nearest_even m l.
Proof.
  intros H. unfold round_nearest_even.
  destruct l as [|[| |]]; try destruct (Z.even m); lia.
Qed.

Lemma binary_round_aux_not_nan s m e l :
  0 <= m -> not_nan (binary_round_aux F64.prec F64.emax s m e l).
Proof.
  intros H. unfold binary_round_aux, not_nan.
  pose proof (shr_fexp_nonneg m e l H) as H1.
  destruct (shr_fexp F64.prec F64.emax m e l) as [mrs' e'] eqn:E1. simpl in H1.
  pose proof (shr_fexp_nonneg _ e' loc_Exact
                (round_nearest_even_nonneg _ (loc_of_shr_record mrs') H1)) as H2.
  destruct (shr_fexp F64.prec F64.emax _ e' loc_Exact) as [mrs'' e''] eqn:E2.
  simpl in H2.
  destruct (shr_m mrs'') as [|p|p]; try discriminate; try lia.
  destruct (e'' <=? _); discriminate.
Qed.

Lemma binary_round_not_nan s m e : not_nan (binary_round F64.prec F64.emax s m e).
Proof.
  unfold binary_round.
  destruct (shl_align m e _) as [mz ez].
  apply binary_round_aux_not_nan. lia.
Qed.

Lemma of_Z_not_nan n : not_nan (F64.of_Z n).
Proof.
  unfold F64.of_Z, binary_normalize.
  destruct n; try apply binary_round_not_nan. discriminate.
Qed.

Lemma div_core_nonneg mx ex my ey :
  0 <= fst (fst (SFdiv_core_binary F64.prec F64.emax (Z.pos mx) ex (Z.pos my) ey)).
Proof.
  unfold SFdiv_core_binary.
  set (s := _ - _ - _).
  set (m' := match s with Z.pos _ => Z.shiftl (Z.pos mx) s | 0 => Z.pos mx | Z.neg _ => 0 end).
  assert (Hm : 0 <= m').
  { unfold m'. destruct s; try lia. apply Z.shiftl_nonneg. lia. }
  pose proof (Z.div_pos m' (Z.pos my) Hm ltac:(lia)) as Hq.
  unfold Z.div in Hq.
  destruct (Z.div_eucl m' (Z.pos my)) as [q r]. simpl. exact Hq.
Qed.

(** Dividing or multiplying by a finite number keeps a number a number. *)
Lemma div_finite_not_nan x s m e :
  not_nan x -> not_nan (F64.div x (S754_finite s m e)).
Proof.
  intros Hx. unfold F64.div, SFdiv.
  destruct x as [sx|sx| |sx mx ex]; try discriminate; try (exfalso; apply Hx; reflexivity).
  pose proof (div_core_nonneg mx ex m e) as Hq.
  destruct (SFdiv_core_binary _ _ _ _ _ _) as [[mz ez] lz]. simpl in Hq.
  apply binary_round_aux_not_nan. exact Hq.
Qed.

Lemma mul_finite_not_nan x s m e :
  not_nan x -> not_nan (F64.mul x (S754_finite s m e)).
Proof.
  intros Hx. unfold F64.mul, SFmul.
  destruct x as [sx|sx| |sx mx ex]; try discriminate; try (exfalso; apply Hx; reflexivity).
  apply binary_round_aux_not_nan. lia.
Qed.

(** *** The order on numbers *)

Lemma compare_antisym x y :
  SFcompare y x = match SFcompare x y with Some c => Some (CompOpp c) | None => None end.
Proof.
  destruct x as [sx|sx| |sx mx ex], y as [sy|sy| |sy my ey]; simpl; auto;
    try (destruct sx; reflexivity); try (destruct sy; reflexivity);
    try (destruct sx, sy; reflexivity).
  destruct sx, sy; simpl; try reflexivity.
  - rewrite (Z.compare_antisym ex ey). destruct (ex ?= ey); simpl; try reflexivity.
    rewrite (Pos.compare_cont_antisym my mx Eq). simpl.
    rewrite CompOpp_involutive. reflexivity.
  - rewrite (Z.compare_antisym ex ey). destruct (ex ?= ey); simpl; try reflexivity.
    rewrite (Pos.compare_cont_antisym mx my Eq). reflexivity.
Qed.

Lemma compare_not_nan x y : not_nan x -> not_nan y -> SFcompare x y <> None.
Proof.
  unfold not_nan. destruct x, y; simpl; congruence.
Qed.

(** [!(x < y)] gives [y <= x] as soon as both are numbers. *)
Lemma not_ltb_leb x y :
  not_nan x -> not_nan y -> F64.ltb x y = false -> F64.leb y x = true.
Proof.
  intros Hx Hy. unfold F64.ltb, F64.leb, SFltb, SFleb.
  rewrite (compare_antisym x y).
  pose proof (compare_not_nan x y Hx Hy).
  destruct (SFcompare x y) as [[| |]|]; simpl; congruence.
Qed.

Lemma ltb_leb x y : F64.ltb x y = true -> F64.leb x y = true.
Proof.
  unfold F64.ltb, F64.leb, SFltb, SFleb.
  destruct (SFcompare x y) as [[| |]|]; congruence.
Qed.

End F64Facts.

(** ** The gauges computed on integers

    [simulatedDeviceCPU] and [simulatedDeviceTemp] start at an integer and
    move by integers inside a small range, where [float64] is exact: the
    checks below run the [float64] operations on every case. *)

Definition clampZ (lo hi k : Z) : Z := Z.max lo (Z.min hi k).

Definition cpu_check : bool :=
  forallb (fun k =>
    forallb (fun r =>
      F64.same (clampCPU (F64.add (F64.of_Z k) (F64.of_Z (r - 5))))
               (F64.of_Z (clampZ 5 90 (k + r - 5))))
      (seqZ 0 11))
    (seqZ 5 86).

Definition temp_check : bool :=
  forallb (fun k =>
    forallb (fun r =>
      F64.same (clampTemp (F64.add (F64.of_Z k) (F64.of_Z (r - 2))))
               (F64.of_Z (clampZ 20 75 (k + r - 2))))
      (seqZ 0 5))
    (seqZ 20 56).

(** On [[lo, lo+n)] the integers are ordered as floats as they are as
    integers, and converting back loses nothing. *)
Definition int_check (lo n : Z) : bool :=
  forallb (fun k =>
    F64.leb (F64.of_Z lo) (F64.of_Z k) && F64.leb (F64.of_Z k) (F64.of_Z (lo + n - 1))
    && (F64.to_uint32 (F64.of_Z k) =? k) && (F64.to_int32 (F64.of_Z k) =? k))
    (seqZ lo n).

Lemma cpu_check_ok : cpu_check = true.
Proof. vm_compute. reflexivity. Qed.

Lemma temp_check_ok : temp_check = true.
Proof. vm_compute. reflexivity. Qed.

Lemma int_check_cpu : int_check 5 86 = true.
Proof. vm_compute. reflexivity. Qed.

Lemma int_check_temp : int_check 20 56 = true.
Proof. vm_compute. reflexivity. Qed.

Lemma clampCPU_int k r :
  5 <= k <= 90 -> 0 <= r < 11 ->
  clampCPU (F64.add (F64.of_Z k) (F64.of_Z (r - 5))) = F64.of_Z (clampZ 5 90 (k + r - 5)).
Proof.
  intros Hk Hr. apply F64Facts.same_eq.
  pose proof (F64Facts.forallb_seqZ _ _ _ cpu_check_ok k ltac:(lia)) as H.
  cbv beta in H.
  exact (F64Facts.forallb_seqZ _ _ _ H r ltac:(lia)).
Qed.

Lemma clampTemp_int k r :
  20 <= k <= 75 -> 0 <= r < 5 ->
  clampTemp (F64.add (F64.of_Z k) (F64.of_Z (r - 2))) = F64.of_Z (clampZ 20 75 (k + r - 2)).
Proof.
  intros Hk Hr. apply F64Facts.same_eq.
  pose proof (F64Facts.forallb_seqZ _ _ _ temp_check_ok k ltac:(lia)) as H.
  cbv beta in H.
  exact (F64Facts.forallb_seqZ _ _ _ H r ltac:(lia)).
Qed.

Lemma int_check_spec lo n k :
  int_check lo n = true -> lo <= k < lo + n ->
  F64.leb (F64.of_Z lo) (F64.of_Z k) = true
  /\ F64.leb (F64.of_Z k) (F64.of_Z (lo + n - 1)) = true
  /\ F64.to_uint32 (F64.of_Z k) = k
  /\ F64.to_int32 (F64.of_Z k) = k.
Proof.
  intros H Hk.
  pose proof (F64Facts.forallb_seqZ _ _ _ H k Hk) as Hc. cbv beta in Hc.
  apply andb_prop in Hc as [Hc H4]. apply andb_prop in Hc as [Hc H3].
  apply andb_prop in Hc as [H1 H2].
  apply Z.eqb_eq in H3, H4. auto.
Qed.

(** The memory utilisation is between 10 and 95 whatever was allocated. *)
Lemma clampMemoryUtil_bounds x :
  F64Facts.not_nan x ->
  F64.leb (F64.of_Z 10) (clampMemoryUtil x) = true
  /\ F64.leb (clampMemoryUtil x) (F64.of_Z 95) = true.
Proof.
  intros Hx. unfold clampMemoryUtil.
  destruct (F64.ltb (F64.of_Z 95) x) eqn:E1.
  { split; vm_compute; reflexivity. }
  destruct (F64.ltb x (F64.of_Z 10)) eqn:E2.
  { split; vm_compute; reflexivity. }
  split; apply F64Facts.not_ltb_leb; auto using F64Facts.of_Z_not_nan.
Qed.

Lemma deviceMemoryUtil_bounds alloc :
  F64.leb (F64.of_Z 10) (deviceMemoryUtil alloc) = true
  /\ F64.leb (deviceMemoryUtil alloc) (F64.of_Z 95) = true.
Proof.
  apply clampMemoryUtil_bounds.
  change (F64.of_Z 100) with (S754_finite false 7036874417766400 (-46)).
  apply F64Facts.mul_finite_not_nan.
  change (F64.of_Z simulatedTotalMemoryBytes) with (S754_finite false 4503599627370496 (-23)).
  apply F64Facts.div_finite_not_nan, F64Facts.of_Z_not_nan.
Qed.

(** ** Reasoning about the monad *)

Lemma draw_range n g : 0 < n -> 0 <= draw n g < n.
Proof.
  intros Hn. destruct g as [|r g]; simpl; [lia|]. apply Z.mod_pos_bound. lia.
Qed.

(** [hoare P c Q]: from a world in [P], [c] ends with a result and a world
    in [Q]. Every computation of [M] ends. *)
Definition hoare {A} (P : World -> Prop) (c : M A) (Q : A -> World -> Prop) : Prop :=
  forall w, P w -> Q (fst (c w)) (snd (c w)).

(** [preserves f c]: [c] leaves the part [f] of the world as it was. *)
Definition preserves {A T} (f : World -> T) (c : M A) : Prop :=
  forall w, f (snd (c w)) = f w.

Section Rules.
Context {A B : Type}.

Lemma hoare_ret (P : World -> Prop) (a : A) (Q : A -> World -> Prop) :
  (forall w, P w -> Q a w) -> hoare P (ret a) Q.
Proof. intros H w Hw. simpl. auto. Qed.

Lemma hoare_bind (P : World -> Prop) (R : A -> World -> Prop)
    (Q : B -> World -> Prop) (c : M A) (k : A -> M B) :
  hoare P c R -> (forall a, hoare (R a) (k a) Q) -> hoare P (bind c k) Q.
Proof.
  intros Hc Hk w Hw. unfold bind. specialize (Hc w Hw).
  destruct (c w) as [a w1]. simpl in Hc. exact (Hk a w1 Hc).
Qed.

Lemma hoare_conseq (P P' : World -> Prop) (Q Q' : A -> World -> Prop) (c : M A) :
  hoare P' c Q' -> (forall w, P w -> P' w) -> (forall a w, Q' a w -> Q a w) ->
  hoare P c Q.
Proof. intros H HP HQ w Hw. apply HQ, H, HP, Hw. Qed.

Lemma preserves_hoare {T} (f : World -> T) (c : M A) (P : T -> Prop) :
  preserves f c -> hoare (fun w => P (f w)) c (fun _ w => P (f w)).
Proof. intros H w Hw. rewrite H. exact Hw. Qed.

Lemma preserves_ret {T} (f : World -> T) (a : A) : preserves f (ret a).
Proof. intros w. reflexivity. Qed.

Lemma preserves_bind {T} (f : World -> T) (c : M A) (k : A -> M B) :
  preserves f c -> (forall a, preserves f (k a)) -> preserves f (bind c k).
Proof.
  intros Hc Hk w. unfold bind. specialize (Hc w).
  destruct (c w) as [a w1]. simpl in Hc. rewrite <- Hc. apply Hk.
Qed.

Lemma preserves_gets {T} (f : World -> T) (g : World -> A) : preserves f (gets g).
Proof. intros w. reflexivity. Qed.
End Rules.

Lemma preserves_Intn {T} (f : World -> T) n :
  (forall g w, f (with_rng g w) = f w) -> preserves f (Intn n).
Proof. intros H w. apply H. Qed.

Lemma preserves_forRange {A T} (f : World -> T) (body : nat -> A -> M A) l :
  (forall i x, preserves f (body i x)) -> forall i, preserves f (forRange body i l).
Proof.
  intros Hb. induction l as [|x l IH]; intros i; simpl.
  - apply preserves_ret.
  - apply preserves_bind; [apply Hb|]. intros y.
    apply preserves_bind; [apply IH|]. intros ys. apply preserves_ret.
Qed.

Lemma preserves_forEach {A T} (f : World -> T) (body : A -> M unit) l :
  (forall x, preserves f (body x)) -> preserves f (forEach body l).
Proof.
  intros Hb. induction l as [|x l IH]; simpl.
  - apply preserves_ret.
  - apply preserves_bind; [apply Hb|]. intros _. exact IH.
Qed.

(** A loop that replaces every element by one related to it. *)
Lemma forRange_Forall2 {A} (R : A -> A -> Prop) (body : nat -> A -> M A) :
  (forall i x w, R x (fst (body i x w))) ->
  forall l i w, Forall2 R l (fst (forRange body i l w)).
Proof.
  intros Hb. induction l as [|x l IH]; intros i w; simpl.
  - constructor.
  - unfold mbind, M_bind, bind.
    pose proof (Hb i x w) as Hx. destruct (body i x w) as [y w1]. simpl in Hx.
    pose proof (IH (S i) w1) as Hl. destruct (forRange body (S i) l w1) as [ys w2].
    simpl in *. constructor; assumption.
Qed.

(** A loop with an invariant that knows the elements already visited. *)
Lemma hoare_forEach {A} (I : list A -> World -> Prop) (body : A -> M unit) l :
  (forall pre x suf, l = pre ++ x :: suf ->
     hoare (I pre) (body x) (fun _ => I (pre ++ [x]))) ->
  hoare (I []) (forEach body l) (fun _ => I l).
Proof.
  intros Hb.
  assert (G : forall suf pre, l = pre ++ suf ->
            hoare (I pre) (forEach body suf) (fun _ => I l)).
  { induction suf as [|x suf IH]; intros pre E; simpl.
    - apply hoare_ret. intros w Hw. rewrite E, app_nil_r. exact Hw.
    - eapply hoare_bind; [apply (Hb pre x suf E)|]. intros u.
      apply IH. rewrite E, <- app_assoc. reflexivity. }
  apply (G l []). reflexivity.
Qed.

(** Unfolds the notation of the monad and splits a frame goal along the
    structure of the computation. *)
Ltac frame_step :=
  lazymatch goal with
  | |- preserves _ (ret _) => apply preserves_ret
  | |- preserves _ (gets _) => apply preserves_gets
  | |- preserves _ (Intn _) => apply preserves_Intn; intros; reflexivity
  | |- preserves _ (bind _ _) => apply preserves_bind; [|intros ?]
  | |- preserves _ (forEach _ _) => apply preserves_forEach; intros ?
  | |- preserves _ (forRange _ _ _) => apply preserves_forRange; intros ? ?
  | |- preserves _ (if ?b then _ else _) => destruct b
  | |- preserves _ (match ?x with _ => _ end) => destruct x
  | |- preserves _ (modify _) => intros ?; reflexivity
  end.

Ltac frame := unfold mbind, M_bind; cbv zeta; repeat frame_step.

(** ** The keys of the store are distinct *)

Lemma length_append s t :
  String.length (s +:+ t) = (String.length s + String.length t)%nat.
Proof. induction s as [|a s IH]; simpl; [reflexivity|]. rewrite IH. reflexivity. Qed.

Lemma append_inj_suffix s1 s2 t1 t2 :
  String.length t1 = String.length t2 -> s1 +:+ t1 = s2 +:+ t2 -> s1 = s2 /\ t1 = t2.
Proof.
  intros Hl. revert s2. induction s1 as [|a s1 IH]; intros [|b s2] H.
  - cbn [String.append] in H. auto.
  - apply (f_equal String.length) in H. rewrite !length_append in H.
    cbn [String.length] in H. lia.
  - apply (f_equal String.length) in H. rewrite !length_append in H.
    cbn [String.length] in H. lia.
  - cbn [String.append] in H. injection H as -> H. destruct (IH _ H) as [-> ->]. auto.
Qed.

Ltac unfold_oids :=
  unfold ifInRateOID, ifOutRateOID, ifInErrorsOID, ifOutDiscardsOID, fanStatusOID,
    psuStatusOID, sysDescrOID, sysUpTimeOID, sysNameOID, ifNumberOID, simVersionOID,
    simGoroutinesOID, simGcCountOID, simMemoryMBOID, simUptimeSecOID, simCpuOID,
    simMemoryUtilOID, simTemperatureOID, simArpOID, simMacOID, simTcpOID,
    customSimSystemOIDPrefix, customSimIfRateOIDPrefix, customSimH3CCommonOIDPrefix,
    customSimBaseOIDPrefix, baseSystemOIDPrefix, baseInterfacesOIDPrefix;
  cbn [String.append].

(** Two keys that differ in their literal part. *)
Ltac oid_discr := unfold_oids; discriminate.

Lemma ifInRateOID_inj i j : ifInRateOID i = ifInRateOID j -> i = j.
Proof.
  unfold_oids. intros H. repeat injection H as H.
  apply (append_inj_suffix _ _ ".1" ".1" eq_refl) in H as [H _].
  exact (pretty_Z_inj _ _ H).
Qed.

Lemma ifOutRateOID_inj i j : ifOutRateOID i = ifOutRateOID j -> i = j.
Proof.
  unfold_oids. intros H. repeat injection H as H.
  apply (append_inj_suffix _ _ ".2" ".2" eq_refl) in H as [H _].
  exact (pretty_Z_inj _ _ H).
Qed.

Lemma ifInRateOID_ne_ifOutRateOID i j : ifInRateOID i <> ifOutRateOID j.
Proof.
  unfold_oids. intros H. repeat injection H as H.
  apply (append_inj_suffix _ _ ".1" ".2" eq_refl) in H as [_ H]. discriminate.
Qed.

Lemma ifInErrorsOID_inj i j : ifInErrorsOID i = ifInErrorsOID j -> i = j.
Proof. unfold_oids. intros H. repeat injection H as H. exact (pretty_Z_inj _ _ H). Qed.

Lemma ifOutDiscardsOID_inj i j : ifOutDiscardsOID i = ifOutDiscardsOID j -> i = j.
Proof. unfold_oids. intros H. repeat injection H as H. exact (pretty_Z_inj _ _ H). Qed.

(** ** [updateOidValue] *)

(** The value has the Go type that the tag of the entry asks for. *)
Definition type_agrees (ty : Asn1BER) (v : GoValue) : bool :=
  match ty, v with
  | (Gauge32 | Counter32 | TimeTicks), VUint32 _ => true
  | Integer, VInt32 _ => true
  | _, _ => false
  end.

(** The warning of a refused update. *)
Definition mismatch_warning (oid : string) (ty : Asn1BER) (v : GoValue) : LogEntry :=
  match ty with
  | Gauge32 | Counter32 | TimeTicks => LogTypeMismatch oid "uint32" v
  | Integer => LogTypeMismatch oid "int32" v
  | _ => LogUnhandledType oid ty
  end.

Definition has_key (k : string) (w : World) : bool :=
  bool_decide (is_Some (oidMap w !! k)).

Lemma updateOidValue_absent oid v w :
  oidMap w !! oid = None -> updateOidValue oid v w = (tt, w).
Proof.
  intros H. unfold updateOidValue, mbind, M_bind, bind, gets. rewrite H. reflexivity.
Qed.

Lemma updateOidValue_mismatch oid v w pdu :
  oidMap w !! oid = Some pdu -> type_agrees (Type' pdu) v = false ->
  updateOidValue oid v w
  = (tt, with_logs (logs w ++ [mismatch_warning oid (Type' pdu) v]) w).
Proof.
  intros H Ht. unfold updateOidValue, mbind, M_bind, bind, gets. rewrite H.
  destruct (Type' pdu), v; simpl in Ht; try discriminate; reflexivity.
Qed.

Lemma updateOidValue_agrees oid v w pdu :
  oidMap w !! oid = Some pdu -> type_agrees (Type' pdu) v = true ->
  updateOidValue oid v w
  = (tt, with_oidMap (<[ oid := mkPDU (Name pdu) (Type' pdu) v ]> (oidMap w)) w).
Proof.
  intros H Ht. unfold updateOidValue, mbind, M_bind, bind, gets. rewrite H.
  destruct (Type' pdu), v; simpl in Ht; try discriminate; reflexivity.
Qed.

(** The three cases together. *)
Lemma updateOidValue_cases oid v w :
  snd (updateOidValue oid v w) = w
  \/ (exists e, snd (updateOidValue oid v w) = with_logs (logs w ++ [e]) w)
  \/ (exists pdu, oidMap w !! oid = Some pdu /\ type_agrees (Type' pdu) v = true
                  /\ snd (updateOidValue oid v w)
                     = with_oidMap (<[ oid := mkPDU (Name pdu) (Type' pdu) v ]> (oidMap w)) w).
Proof.
  destruct (oidMap w !! oid) as [pdu|] eqn:E.
  - destruct (type_agrees (Type' pdu) v) eqn:Ht.
    + right; right. exists pdu. rewrite (updateOidValue_agrees _ _ _ _ E Ht). auto.
    + right; left. eexists. rewrite (updateOidValue_mismatch _ _ _ _ E Ht). reflexivity.
  - left. rewrite (updateOidValue_absent _ _ _ E). reflexivity.
Qed.

Lemma updateOidValue_has_key oid v k : preserves (has_key k) (updateOidValue oid v).
Proof.
  intros w. destruct (updateOidValue_cases oid v w) as [H|[[e H]|(pdu & E & _ & H)]];
    rewrite H; try reflexivity.
  unfold has_key. simpl. apply bool_decide_ext.
  destruct (decide (oid = k)) as [->|Hne].
  - rewrite lookup_insert_eq, E. split; eauto.
  - rewrite lookup_insert_ne by exact Hne. reflexivity.
Qed.

Lemma updateOidValue_dom oid v w :
  dom (oidMap (snd (updateOidValue oid v w))) = dom (oidMap w).
Proof.
  destruct (updateOidValue_cases oid v w) as [H|[[e H]|(pdu & E & _ & H)]];
    rewrite H; try reflexivity.
  simpl. rewrite dom_insert_L.
  apply subseteq_union_1_L, singleton_subseteq_l, elem_of_dom. eauto.
Qed.

Lemma updateOidValue_lookup_ne oid v k :
  oid <> k -> preserves (fun w => oidMap w !! k) (updateOidValue oid v).
Proof.
  intros Hne w. destruct (updateOidValue_cases oid v w) as [H|[[e H]|(pdu & E & _ & H)]];
    rewrite H; try reflexivity.
  simpl. apply lookup_insert_ne. exact Hne.
Qed.

Lemma store_lookup_ne oid pdu k :
  oid <> k -> preserves (fun w => oidMap w !! k) (store oid pdu).
Proof. intros Hne w. simpl. apply lookup_insert_ne. exact Hne. Qed.

Lemma store_has_key_ne oid pdu k :
  oid <> k -> preserves (has_key k) (store oid pdu).
Proof.
  intros Hne w. unfold has_key. simpl. rewrite lookup_insert_ne by exact Hne. reflexivity.
Qed.

(** Everything but the store and the log is out of reach of [updateOidValue]. *)
Lemma updateOidValue_frame {T} (f : World -> T) oid v :
  (forall m w, f (with_oidMap m w) = f w) ->
  (forall l w, f (with_logs l w) = f w) ->
  preserves f (updateOidValue oid v).
Proof.
  intros Hm Hl w.
  destruct (updateOidValue_cases oid v w) as [H|[[e H]|(pdu & _ & _ & H)]];
    rewrite H; auto.
Qed.


(** ** The stages of one fast tick *)

Ltac unfold_blocks :=
  unfold monitorSystemMetrics_iter, updateAppMetrics, updateCPU, updateMemoryUtil,
    updateTemp, publishInterfaces, publishInterface, updateFans, updateFan,
    updatePsus, updatePsu, updateTables, updateScalars,
    incrementCounters_loop, incrementInterface,
    onReg, store, logPrintf.

Ltac frame_all :=
  unfold_blocks; unfold mbind, M_bind; cbv zeta;
  repeat lazymatch goal with
    | |- preserves _ (updateOidValue _ _) => apply updateOidValue_frame; intros; reflexivity
    | |- _ => frame_step
    end.

Lemma preserves_eq {A T} (f : World -> T) (c : M A) w a w' :
  c w = (a, w') -> preserves f c -> f w' = f w.
Proof. intros E H. specialize (H w). rewrite E in H. exact H. Qed.

(** [carry f E]: the part [f] of the world after the stage [E] is the one
    before it. *)
Ltac carry f E :=
  let H := fresh in
  pose proof (preserves_eq f _ _ _ _ E) as H; cbv beta in H;
  rewrite H by frame_all; clear H.

(** The intermediate results of [monitorSystemMetrics_iter env l w]. *)
Inductive fast_stages (env : TickEnv) (l : MonitorLocals) (w : World)
    : MonitorLocals -> World -> Prop :=
  | FastStages lastGC w1 cpu w2 mem w3 temp w4 w5 w6 w7 tables w8 w9 :
      updateAppMetrics env (lastGCCount l) w = (lastGC, w1) ->
      updateCPU (simulatedDeviceCPU l) w1 = (cpu, w2) ->
      updateMemoryUtil env w2 = (mem, w3) ->
      updateTemp (simulatedDeviceTemp l) w3 = (temp, w4) ->
      publishInterfaces env w4 = (tt, w5) ->
      updateFans w5 = (tt, w6) ->
      updatePsus w6 = (tt, w7) ->
      updateTables w7 = (tables, w8) ->
      updateScalars env cpu mem temp tables.1.1 tables.1.2 tables.2 w8 = (tt, w9) ->
      fast_stages env l w (mkLocals lastGC cpu temp) w9.

Lemma monitorSystemMetrics_iter_stages env l w :
  fast_stages env l w (fst (monitorSystemMetrics_iter env l w))
                      (snd (monitorSystemMetrics_iter env l w)).
Proof.
  unfold monitorSystemMetrics_iter, mbind, M_bind, bind.
  destruct (updateAppMetrics env (lastGCCount l) w) as [lastGC w1] eqn:E1.
  destruct (updateCPU (simulatedDeviceCPU l) w1) as [cpu w2] eqn:E2.
  destruct (updateMemoryUtil env w2) as [mem w3] eqn:E3.
  destruct (updateTemp (simulatedDeviceTemp l) w3) as [temp w4] eqn:E4.
  destruct (publishInterfaces env w4) as [[] w5] eqn:E5.
  destruct (updateFans w5) as [[] w6] eqn:E6.
  destruct (updatePsus w6) as [[] w7] eqn:E7.
  destruct (updateTables w7) as [tables w8] eqn:E8.
  destruct (updateScalars env cpu mem temp tables.1.1 tables.1.2 tables.2 w8)
    as [[] w9] eqn:E9.
  simpl. econstructor; eassumption.
Qed.

(** What the fast tick never touches. *)
Lemma monitorSystemMetrics_iter_interfaces env l :
  preserves interfaces (monitorSystemMetrics_iter env l).
Proof. frame_all. Qed.

Lemma monitorSystemMetrics_iter_startTime env l :
  preserves startTime (monitorSystemMetrics_iter env l).
Proof. frame_all. Qed.

(** The locals that an iteration leaves; [g] is the random source as the
    iteration finds it. *)
Definition next_CPU (cpu : spec_float) (g : list Z) : spec_float :=
  clampCPU (F64.add cpu (F64.of_Z (draw 11 g - 5))).

Definition next_Temp (temp : spec_float) (g : list Z) : spec_float :=
  clampTemp (F64.add temp (F64.of_Z (draw 5 (tail g) - 2))).

Lemma updateAppMetrics_rng env lastGC : preserves rng (updateAppMetrics env lastGC).
Proof. frame_all. Qed.

(** The three gauges of the device after one iteration, in the registry
    and in the locals. *)
Lemma monitorSystemMetrics_iter_gauges env l w :
  let r := monitorSystemMetrics_iter env l w in
  simulatedDeviceCPU (fst r) = next_CPU (simulatedDeviceCPU l) (rng w)
  /\ simulatedDeviceTemp (fst r) = next_Temp (simulatedDeviceTemp l) (rng w)
  /\ cpuUsage (reg (snd r)) = simulatedDeviceCPU (fst r)
  /\ simDeviceTemperatureCelsius (reg (snd r)) = simulatedDeviceTemp (fst r)
  /\ simMemoryUtilPercent (reg (snd r)) = deviceMemoryUtil (memStats_Alloc env).
Proof.
  cbv zeta.
  destruct (monitorSystemMetrics_iter_stages env l w)
    as [lastGC w1 cpu w2 mem w3 temp w4 w5 w6 w7 tables w8 w9 E1 E2 E3 E4 E5 E6 E7 E8 E9].
  cbn [simulatedDeviceCPU simulatedDeviceTemp fst snd].
  pose proof (preserves_eq rng _ _ _ _ E1 (updateAppMetrics_rng _ _)) as Hg.
  unfold updateCPU, Intn, onReg, modify, mbind, M_bind, bind, ret in E2.
  injection E2 as Ec E2. rewrite Hg in Ec.
  unfold updateMemoryUtil, onReg, modify, mbind, M_bind, bind, ret in E3.
  injection E3 as Em E3.
  unfold updateTemp, Intn, onReg, modify, mbind, M_bind, bind, ret in E4.
  injection E4 as Et E4.
  assert (Hrng3 : rng w3 = tail (rng w)).
  { rewrite <- E3, <- E2, Hg. reflexivity. }
  rewrite Hrng3 in Et.
  assert (Hc : cpuUsage (reg w9) = cpu).
  { carry (fun w => cpuUsage (reg w)) E9. carry (fun w => cpuUsage (reg w)) E8.
    carry (fun w => cpuUsage (reg w)) E7. carry (fun w => cpuUsage (reg w)) E6.
    carry (fun w => cpuUsage (reg w)) E5.
    rewrite <- E4, <- E3, <- E2. cbn. rewrite Hg. exact Ec. }
  assert (Ht : simDeviceTemperatureCelsius (reg w9) = temp).
  { carry (fun w => simDeviceTemperatureCelsius (reg w)) E9.
    carry (fun w => simDeviceTemperatureCelsius (reg w)) E8.
    carry (fun w => simDeviceTemperatureCelsius (reg w)) E7.
    carry (fun w => simDeviceTemperatureCelsius (reg w)) E6.
    carry (fun w => simDeviceTemperatureCelsius (reg w)) E5.
    rewrite <- E4. cbn. rewrite Hrng3. exact Et. }
  assert (Hm : simMemoryUtilPercent (reg w9) = mem).
  { carry (fun w => simMemoryUtilPercent (reg w)) E9.
    carry (fun w => simMemoryUtilPercent (reg w)) E8.
    carry (fun w => simMemoryUtilPercent (reg w)) E7.
    carry (fun w => simMemoryUtilPercent (reg w)) E6.
    carry (fun w => simMemoryUtilPercent (reg w)) E5.
    rewrite <- E4, <- E3. cbn. exact Em. }
  unfold next_CPU, next_Temp. rewrite Hc, Ht, Hm. auto.
Qed.

(** ** The store through one fast tick *)

Ltac unfold_blocks_keep_store :=
  unfold monitorSystemMetrics_iter, updateAppMetrics, updateCPU, updateMemoryUtil,
    updateTemp, publishInterfaces, publishInterface, updateFans, updateFan,
    updatePsus, updatePsu, updateTables, updateScalars,
    incrementCounters_loop, incrementInterface,
    onReg, logPrintf.

(** Frames for the entry of the store under a key that no statement of the
    computation writes (the keys are compared by their literal parts). *)
Ltac frame_key :=
  unfold_blocks_keep_store; unfold mbind, M_bind; cbv zeta;
  repeat lazymatch goal with
    | |- preserves _ (store _ _) => apply store_lookup_ne; oid_discr
    | |- preserves _ (updateOidValue _ _) => apply updateOidValue_lookup_ne; oid_discr
    | |- _ => frame_step
    end.

(** [carry_key f E]: as [carry], for an entry of the store. *)
Ltac carry_key f E :=
  let H := fresh in
  pose proof (preserves_eq f _ _ _ _ E) as H; cbv beta in H;
  rewrite H by frame_key; clear H.

Lemma monitorSystemMetrics_iter_sysUpTime env l :
  preserves (fun w => oidMap w !! sysUpTimeOID) (monitorSystemMetrics_iter env l).
Proof. frame_key. Qed.

Lemma updateOidValue_lookup_eq oid v w pdu :
  oidMap w !! oid = Some pdu -> type_agrees (Type' pdu) v = true ->
  oidMap (snd (updateOidValue oid v w)) !! oid = Some (mkPDU (Name pdu) (Type' pdu) v).
Proof.
  intros H Ht. rewrite (updateOidValue_agrees _ _ _ _ H Ht). simpl.
  apply lookup_insert_eq.
Qed.

(** The scalars of the store after [updateScalars]: the CPU entry. *)
Lemma updateScalars_simCpu env cpu mem temp arp mac tcp w pdu :
  oidMap w !! simCpuOID = Some pdu -> Type' pdu = Gauge32 ->
  oidMap (snd (updateScalars env cpu mem temp arp mac tcp w)) !! simCpuOID
  = Some (mkPDU (Name pdu) Gauge32 (VUint32 (F64.to_uint32 cpu))).
Proof.
  intros H Ht. unfold updateScalars, mbind, M_bind, bind, gets.
  destruct (updateOidValue simGoroutinesOID _ w) as [[] w1] eqn:E1.
  destruct (updateOidValue simGcCountOID _ w1) as [[] w2] eqn:E2.
  destruct (updateOidValue simMemoryMBOID _ w2) as [[] w3] eqn:E3.
  destruct (updateOidValue simUptimeSecOID _ w3) as [[] w4] eqn:E4.
  destruct (updateOidValue simCpuOID _ w4) as [[] w5] eqn:E5.
  destruct (updateOidValue simMemoryUtilOID _ w5) as [[] w6] eqn:E6.
  destruct (updateOidValue simTemperatureOID _ w6) as [[] w7] eqn:E7.
  destruct (updateOidValue simArpOID _ w7) as [[] w8] eqn:E8.
  destruct (updateOidValue simMacOID _ w8) as [[] w9] eqn:E9.
  etrans; [apply (updateOidValue_lookup_ne simTcpOID _ simCpuOID); oid_discr|].
  carry_key (fun w => oidMap w !! simCpuOID) E9.
  carry_key (fun w => oidMap w !! simCpuOID) E8.
  carry_key (fun w => oidMap w !! simCpuOID) E7.
  carry_key (fun w => oidMap w !! simCpuOID) E6.
  assert (H4 : oidMap w4 !! simCpuOID = Some pdu).
  { carry_key (fun w => oidMap w !! simCpuOID) E4.
    carry_key (fun w => oidMap w !! simCpuOID) E3.
    carry_key (fun w => oidMap w !! simCpuOID) E2.
    carry_key (fun w => oidMap w !! simCpuOID) E1. exact H. }
  pose proof (updateOidValue_lookup_eq simCpuOID (VUint32 (F64.to_uint32 cpu)) w4 pdu H4) as H5.
  rewrite E5, Ht in H5. simpl in H5. apply H5. reflexivity.
Qed.

Lemma monitorSystemMetrics_iter_simCpu env l w pdu :
  oidMap w !! simCpuOID = Some pdu -> Type' pdu = Gauge32 ->
  let r := monitorSystemMetrics_iter env l w in
  oidMap (snd r) !! simCpuOID
  = Some (mkPDU (Name pdu) Gauge32 (VUint32 (F64.to_uint32 (simulatedDeviceCPU (fst r))))).
Proof.
  intros H Ht. cbv zeta.
  destruct (monitorSystemMetrics_iter_stages env l w)
    as [lastGC w1 cpu w2 mem w3 temp w4 w5 w6 w7 tables w8 w9 E1 E2 E3 E4 E5 E6 E7 E8 E9].
  cbn [simulatedDeviceCPU].
  assert (H8 : oidMap w8 !! simCpuOID = Some pdu).
  { carry_key (fun w => oidMap w !! simCpuOID) E8.
    carry_key (fun w => oidMap w !! simCpuOID) E7.
    carry_key (fun w => oidMap w !! simCpuOID) E6.
    carry_key (fun w => oidMap w !! simCpuOID) E5.
    carry_key (fun w => oidMap w !! simCpuOID) E4.
    carry_key (fun w => oidMap w !! simCpuOID) E3.
    carry_key (fun w => oidMap w !! simCpuOID) E2.
    carry_key (fun w => oidMap w !! simCpuOID) E1. exact H. }
  pose proof (updateScalars_simCpu env cpu mem temp tables.1.1 tables.1.2 tables.2 w8 pdu H8 Ht) as G.
  rewrite E9 in G. exact G.
Qed.

(** ** Invariants of the running system *)

(** A float that is an integer of [[lo,hi]]. *)
Definition int_float (lo hi : Z) (x : spec_float) : Prop :=
  exists k, lo <= k <= hi /\ x = F64.of_Z k.

Lemma next_CPU_int cpu g : int_float 5 90 cpu -> int_float 5 90 (next_CPU cpu g).
Proof.
  intros (k & Hk & ->). unfold next_CPU.
  pose proof (draw_range 11 g ltac:(lia)) as Hr.
  rewrite (clampCPU_int k _ Hk Hr).
  exists (clampZ 5 90 (k + draw 11 g - 5)). split; [unfold clampZ; lia|reflexivity].
Qed.

Lemma next_Temp_int temp g : int_float 20 75 temp -> int_float 20 75 (next_Temp temp g).
Proof.
  intros (k & Hk & ->). unfold next_Temp.
  pose proof (draw_range 5 (tail g) ltac:(lia)) as Hr.
  rewrite (clampTemp_int k _ Hk Hr).
  exists (clampZ 20 75 (k + draw 5 (tail g) - 2)). split; [unfold clampZ; lia|reflexivity].
Qed.

(** What holds of every state of a run: the two random walks are on
    integers of their ranges; [sysUpTime] holds a [uint32], so that the
    type assertion of the slow cycle succeeds; the CPU entry of the store is
    there with its tag. *)
Record Inv (st : State) : Prop := mkInv {
  inv_cpu : int_float 5 90 (simulatedDeviceCPU (locals st));
  inv_temp : int_float 20 75 (simulatedDeviceTemp (locals st));
  inv_sysUpTime :
    exists pdu n, oidMap (world st) !! sysUpTimeOID = Some pdu /\ Value pdu = VUint32 n;
  inv_simCpu :
    exists pdu, oidMap (world st) !! simCpuOID = Some pdu /\ Type' pdu = Gauge32
}.

(** What holds once a fast tick has run: the registry and the store carry
    the gauges of the locals. *)
Record Published (st : State) : Prop := mkPublished {
  pub_cpu : cpuUsage (reg (world st)) = simulatedDeviceCPU (locals st);
  pub_temp : simDeviceTemperatureCelsius (reg (world st)) = simulatedDeviceTemp (locals st);
  pub_mem : exists alloc, simMemoryUtilPercent (reg (world st)) = deviceMemoryUtil alloc;
  pub_simCpu :
    exists pdu, oidMap (world st) !! simCpuOID = Some pdu /\ Type' pdu = Gauge32
                /\ Value pdu = VUint32 (F64.to_uint32 (simulatedDeviceCPU (locals st)))
}.

Lemma init_locals ie g :
  locals (init ie g)
  = mkLocals 0 (F64.of_Z (draw 30 (Nat.iter 11 tail g) + 10))
               (F64.of_Z (draw 41 (Nat.iter 12 tail g) + 25)).
Proof. reflexivity. Qed.

Lemma init_oidMap ie g :
  let g' := Nat.iter 6 tail g in
  oidMap (world (init ie g))
  = initialOidMap (initGoroutines ie) 5
      (draw 1000000 g') (draw 40 (tail g')) (draw 200 (Nat.iter 2 tail g'))
      (draw 500 (Nat.iter 3 tail g')) (draw 100 (Nat.iter 4 tail g')).
Proof. reflexivity. Qed.

Ltac lookup_initial :=
  unfold initialOidMap;
  repeat (rewrite lookup_insert_ne by oid_discr);
  first [ apply lookup_insert_eq | apply lookup_empty ].

Lemma init_Inv ie g : Inv (init ie g).
Proof.
  split.
  - rewrite init_locals. cbn [simulatedDeviceCPU].
    pose proof (draw_range 30 (Nat.iter 11 tail g) ltac:(lia)).
    eexists. split; [|reflexivity]. lia.
  - rewrite init_locals. cbn [simulatedDeviceTemp].
    pose proof (draw_range 41 (Nat.iter 12 tail g) ltac:(lia)).
    eexists. split; [|reflexivity]. lia.
  - rewrite init_oidMap. cbv zeta.
    do 2 eexists. split; [lookup_initial|reflexivity].
  - rewrite init_oidMap. cbv zeta.
    eexists. split; [lookup_initial|reflexivity].
Qed.

Lemma init_interfaces ie g :
  interfaces (world (init ie g))
  = [ interfaceData.mk 1 "GigabitEthernet1/0/1" 1 1
        (u64 (draw 100000 g)) (u64 (draw 200000 (tail g))) 0 0 (initIfTime ie 0) 0 0;
      interfaceData.mk 2 "GigabitEthernet1/0/2" 1 1
        (u64 (draw 150000 (Nat.iter 2 tail g))) (u64 (draw 250000 (Nat.iter 3 tail g)))
        0 0 (initIfTime ie 1) 0 0;
      interfaceData.mk 3 "GigabitEthernet1/0/3" 1 2 0 0 0 0 (initIfTime ie 2) 0 0;
      interfaceData.mk 4 "GigabitEthernet1/0/4" 2 2 0 0 0 0 (initIfTime ie 3) 0 0;
      interfaceData.mk 5 "Ten-GigabitEthernet1/0/1" 1 1
        (u64 (draw 1000000 (Nat.iter 4 tail g))) (u64 (draw 2000000 (Nat.iter 5 tail g)))
        0 0 (initIfTime ie 4) 0 0 ].
Proof. reflexivity. Qed.

Lemma init_reg ie g : reg (world (init ie g)) = initRegistry.
Proof. reflexivity. Qed.

Lemma init_fans ie g : fans (world (init ie g)) = initFans.
Proof. reflexivity. Qed.

Lemma init_psus ie g : psus (world (init ie g)) = initPsus.
Proof. reflexivity. Qed.

Lemma fast_tick_eq env st :
  fast_tick env st
  = mkState (fst (monitorSystemMetrics_iter env (locals st) (world st)))
            (snd (monitorSystemMetrics_iter env (locals st) (world st))).
Proof.
  unfold fast_tick. destruct (monitorSystemMetrics_iter env (locals st) (world st)).
  reflexivity.
Qed.

Lemma fast_tick_Inv env st : Inv st -> Inv (fast_tick env st).
Proof.
  intros [Hc Ht (pdu & n & Hu & Hn) (pc & Hpc & Htc)].
  rewrite fast_tick_eq.
  destruct (monitorSystemMetrics_iter_gauges env (locals st) (world st))
    as (Gc & Gt & _).
  split; cbn [locals world].
  - rewrite Gc. apply next_CPU_int, Hc.
  - rewrite Gt. apply next_Temp_int, Ht.
  - exists pdu, n. split; [|exact Hn].
    rewrite (monitorSystemMetrics_iter_sysUpTime env (locals st) (world st)). exact Hu.
  - eexists. split.
    + apply (monitorSystemMetrics_iter_simCpu env _ _ pc Hpc Htc).
    + reflexivity.
Qed.

Lemma fast_tick_Published env st : Inv st -> Published (fast_tick env st).
Proof.
  intros [Hc Ht _ (pc & Hpc & Htc)].
  rewrite fast_tick_eq.
  destruct (monitorSystemMetrics_iter_gauges env (locals st) (world st))
    as (_ & _ & Gc & Gt & Gm).
  split; cbn [locals world]; auto.
  - eexists. exact Gm.
  - eexists. split; [apply (monitorSystemMetrics_iter_simCpu env _ _ pc Hpc Htc)|].
    split; reflexivity.
Qed.

(** The slow cycle: its loop leaves the store alone, and the update of
    [sysUpTime] goes through as soon as the entry holds a [uint32]. *)
Lemma incrementCounters_loop_oidMap now : preserves oidMap (incrementCounters_loop now).
Proof. frame_all. Qed.

Lemma advanceSysUpTime_uint32 m pdu n :
  m !! sysUpTimeOID = Some pdu -> Value pdu = VUint32 n ->
  advanceSysUpTime m
  = Some (<[ sysUpTimeOID := mkPDU (Name pdu) (Type' pdu) (VUint32 (u32 (n + incrementTicks))) ]> m).
Proof. intros H Hv. unfold advanceSysUpTime. rewrite H, Hv. reflexivity. Qed.

Lemma advanceSysUpTime_lookup_ne m m' k :
  advanceSysUpTime m = Some m' -> k <> sysUpTimeOID -> m' !! k = m !! k.
Proof.
  unfold advanceSysUpTime. intros H Hk.
  destruct (m !! sysUpTimeOID) as [pdu|]; [|congruence].
  destruct (Value pdu); try discriminate.
  injection H as <-. apply lookup_insert_ne. congruence.
Qed.

Lemma slow_tick_Some now st st' :
  slow_tick now st = Some st' ->
  exists m, advanceSysUpTime (oidMap (world st)) = Some m
            /\ st' = mkState (locals st)
                       (with_oidMap m (snd (incrementCounters_loop now (world st)))).
Proof.
  unfold slow_tick, incrementCounters_iter.
  rewrite (incrementCounters_loop_oidMap now (world st)).
  destruct (advanceSysUpTime (oidMap (world st))) as [m|]; [|discriminate].
  intros H. injection H as <-. eauto.
Qed.

Lemma slow_tick_total now st :
  Inv st -> exists st', slow_tick now st = Some st'.
Proof.
  intros [_ _ (pdu & n & Hu & Hn) _].
  unfold slow_tick, incrementCounters_iter.
  rewrite (incrementCounters_loop_oidMap now (world st)).
  rewrite (advanceSysUpTime_uint32 _ _ _ Hu Hn). eauto.
Qed.

Lemma slow_tick_Inv now st st' : Inv st -> slow_tick now st = Some st' -> Inv st'.
Proof.
  intros [Hc Ht (pdu & n & Hu & Hn) (pc & Hpc & Htc)] H.
  apply slow_tick_Some in H as (m & Hm & ->).
  rewrite (advanceSysUpTime_uint32 _ _ _ Hu Hn) in Hm. injection Hm as <-.
  split; cbn [locals world oidMap with_oidMap]; auto.
  - do 2 eexists. split; [apply lookup_insert_eq|reflexivity].
  - exists pc. split; [|exact Htc].
    rewrite lookup_insert_ne by oid_discr. exact Hpc.
Qed.

Lemma slow_tick_Published now st st' :
  Published st -> slow_tick now st = Some st' -> Published st'.
Proof.
  intros [Pc Pt Pm (pc & Hpc & Htc & Hvc)] H.
  apply slow_tick_Some in H as (m & Hm & ->).
  split; cbn [locals world reg oidMap with_oidMap].
  - rewrite <- Pc. apply (ltac:(frame_all) :
      preserves (fun w => cpuUsage (reg w)) (incrementCounters_loop now)).
  - rewrite <- Pt. apply (ltac:(frame_all) :
      preserves (fun w => simDeviceTemperatureCelsius (reg w)) (incrementCounters_loop now)).
  - destruct Pm as [a Pm]. exists a. rewrite <- Pm. apply (ltac:(frame_all) :
      preserves (fun w => simMemoryUtilPercent (reg w)) (incrementCounters_loop now)).
  - exists pc. split; [|auto].
    rewrite (advanceSysUpTime_lookup_ne _ _ simCpuOID Hm) by oid_discr. exact Hpc.
Qed.

Lemma run_app evs1 evs2 st :
  run (evs1 ++ evs2) st
  = match run evs1 st with Some st' => run evs2 st' | None => None end.
Proof.
  revert st. induction evs1 as [|ev evs1 IH]; intros st; simpl; [reflexivity|].
  destruct (step ev st); [apply IH|reflexivity].
Qed.

(** No run from a state of the invariant panics. *)
Lemma run_Inv evs st : Inv st -> exists st', run evs st = Some st' /\ Inv st'.
Proof.
  revert st. induction evs as [|[env|now] evs IH]; intros st HI; simpl.
  - eauto.
  - apply IH, fast_tick_Inv, HI.
  - destruct (slow_tick_total now st HI) as [st1 H1]. rewrite H1.
    apply IH. exact (slow_tick_Inv _ _ _ HI H1).
Qed.

Lemma run_Published evs st :
  Inv st -> Published st ->
  exists st', run evs st = Some st' /\ Inv st' /\ Published st'.
Proof.
  revert st. induction evs as [|[env|now] evs IH]; intros st HI HP; simpl.
  - eauto.
  - apply IH; [apply fast_tick_Inv, HI|apply fast_tick_Published, HI].
  - destruct (slow_tick_total now st HI) as [st1 H1]. rewrite H1.
    apply IH; [exact (slow_tick_Inv _ _ _ HI H1)|exact (slow_tick_Published _ _ _ HP H1)].
Qed.

(** Every run from the initial state that contains a fast tick ends in a
    state of both invariants. *)
Lemma run_after_fast_tick ie g evs1 env evs2 :
  exists st, run (evs1 ++ FastTick env :: evs2) (init ie g) = Some st
             /\ Inv st /\ Published st.
Proof.
  destruct (run_Inv evs1 _ (init_Inv ie g)) as (st1 & H1 & I1).
  rewrite run_app, H1. simpl.
  apply run_Published; [apply fast_tick_Inv, I1|apply fast_tick_Published, I1].
Qed.

(** ** Sample inputs *)

Definition sampleInit : InitEnv := mkInitEnv 0 (fun _ => 0) 3.

(** One second after the start, three garbage collections, 256 MiB
    allocated; the same with 384 MiB. *)
Definition sampleEnv : TickEnv :=
  mkEnv 1000000000 3 (256 * 1024 * 1024) 5 5 1000000000.
Definition sampleEnv' : TickEnv :=
  mkEnv 1000000000 3 (384 * 1024 * 1024) 5 5 1000000000.

Definition sampleState : State := init sampleInit [].

(** The state that a run from the sample state ends in. *)
Definition the (o : option State) : State :=
  match o with Some st => st | None => sampleState end.

Definition sampleEnv6 : TickEnv :=
  mkEnv 6000000000 3 (256 * 1024 * 1024) 5 5 6000000000.

Definition sampleAfterSlow : State := the (slow_tick 5000000000 sampleState).

Definition sampleShortRun : list Event := [FastTick sampleEnv; SlowTick 5000000000].
Definition sampleAfterShortRun : State := the (run sampleShortRun sampleState).

Definition sampleRun : list Event :=
  [FastTick sampleEnv; SlowTick 5000000000; FastTick sampleEnv6].
Definition sampleAfterRun : State := the (run sampleRun sampleState).

Lemma the_Some o st : o = Some st -> o = Some (the o).
Proof. intros ->. reflexivity. Qed.

Lemma sampleState_Inv : Inv sampleState.
Proof. apply init_Inv. Qed.

Lemma sampleAfterSlow_eq : slow_tick 5000000000 sampleState = Some sampleAfterSlow.
Proof.
  destruct (slow_tick_total 5000000000 sampleState sampleState_Inv) as [st H].
  exact (the_Some _ _ H).
Qed.

Lemma sampleAfterShortRun_eq : run sampleShortRun sampleState = Some sampleAfterShortRun.
Proof.
  destruct (run_Inv sampleShortRun sampleState sampleState_Inv) as (st & H & _).
  exact (the_Some _ _ H).
Qed.

Lemma sampleAfterRun_eq : run sampleRun sampleState = Some sampleAfterRun.
Proof.
  destruct (run_Inv sampleRun sampleState sampleState_Inv) as (st & H & _).
  exact (the_Some _ _ H).
Qed.

Lemma sampleState_oidMap :
  oidMap (world sampleState) = initialOidMap 3 5 0 0 0 0 0.
Proof. unfold sampleState. rewrite init_oidMap. reflexivity. Qed.

(** ** The gauges *)

Definition gauges_in_bounds (r : Registry) : Prop :=
  F64.leb (F64.of_Z 5) (cpuUsage r) = true
  /\ F64.leb (cpuUsage r) (F64.of_Z 90) = true
  /\ F64.leb (F64.of_Z 20) (simDeviceTemperatureCelsius r) = true
  /\ F64.leb (simDeviceTemperatureCelsius r) (F64.of_Z 75) = true
  /\ F64.leb (F64.of_Z 10) (simMemoryUtilPercent r) = true
  /\ F64.leb (simMemoryUtilPercent r) (F64.of_Z 95) = true.

Lemma int_float_cpu_bounds x :
  int_float 5 90 x ->
  F64.leb (F64.of_Z 5) x = true /\ F64.leb x (F64.of_Z 90) = true
  /\ F64.of_Z (F64.to_uint32 x) = x.
Proof.
  intros (k & Hk & ->).
  destruct (int_check_spec 5 86 k int_check_cpu ltac:(lia)) as (H1 & H2 & H3 & _).
  rewrite H3. auto.
Qed.

Lemma int_float_temp_bounds x :
  int_float 20 75 x ->
  F64.leb (F64.of_Z 20) x = true /\ F64.leb x (F64.of_Z 75) = true.
Proof.
  intros (k & Hk & ->).
  destruct (int_check_spec 20 56 k int_check_temp ltac:(lia)) as (H1 & H2 & _).
  auto.
Qed.

(** C1. In every run of the system from its initial state, whatever the
    random draws, the clock and the runtime statistics, once a fast tick has
    run the three gauges of the registry are within their bounds: CPU in
    [[5,90]], temperature in [[20,75]], memory utilisation in [[10,95]]; and
    the run does not panic. *)
Theorem gauges_stay_within_bounds ie g evs1 env evs2 :
  exists st, run (evs1 ++ FastTick env :: evs2) (init ie g) = Some st
             /\ gauges_in_bounds (reg (world st)).
Proof.
  destruct (run_after_fast_tick ie g evs1 env evs2)
    as (st & Hrun & [Hc Ht _ _] & [Pc Pt (a & Pm) _]).
  exists st. split; [exact Hrun|].
  unfold gauges_in_bounds. rewrite Pc, Pt, Pm.
  destruct (int_float_cpu_bounds _ Hc) as (? & ? & _).
  destruct (int_float_temp_bounds _ Ht) as (? & ?).
  destruct (deviceMemoryUtil_bounds a) as (? & ?).
  auto 7.
Qed.

(** ** The memory utilisation *)

Definition publishedMemoryUtil (st : State) : spec_float :=
  simMemoryUtilPercent (reg (world st)).

(** C5, amended. On every fast tick the memory utilisation is recomputed
    from the memory that the simulator itself has allocated:
    [(Alloc / 512 MiB) * 100], held in [[10,95]]. It depends neither on the
    previous value nor on a random draw. *)
Theorem memory_util_from_alloc env st :
  publishedMemoryUtil (fast_tick env st)
  = clampMemoryUtil
      (F64.mul (F64.div (F64.of_Z (u64 (Alloc env))) (F64.of_Z (512 * 1024 * 1024)))
               (F64.of_Z 100)).
Proof.
  unfold publishedMemoryUtil. rewrite fast_tick_eq. cbn [world].
  destruct (monitorSystemMetrics_iter_gauges env (locals st) (world st))
    as (_ & _ & _ & _ & Gm).
  exact Gm.
Qed.

(** C5 as the specification words it fails: from one and the same state
    (the same previous value, the same random source) two fast ticks that
    differ only in the allocated memory publish 50 and 75; so no delta added
    to the previous value gives what the tick publishes. *)
Lemma memory_util_not_random_walk :
  publishedMemoryUtil (fast_tick sampleEnv sampleState) = F64.of_Z 50
  /\ publishedMemoryUtil (fast_tick sampleEnv' sampleState) = F64.of_Z 75
  /\ ~ (exists delta : spec_float, forall env,
          publishedMemoryUtil (fast_tick env sampleState)
          = clampMemoryUtil (F64.add (publishedMemoryUtil sampleState) delta)).
Proof.
  assert (H1 : publishedMemoryUtil (fast_tick sampleEnv sampleState) = F64.of_Z 50).
  { rewrite memory_util_from_alloc. vm_compute. reflexivity. }
  assert (H2 : publishedMemoryUtil (fast_tick sampleEnv' sampleState) = F64.of_Z 75).
  { rewrite memory_util_from_alloc. vm_compute. reflexivity. }
  split; [exact H1|]. split; [exact H2|].
  intros (delta & H).
  pose proof (H sampleEnv) as Ha. pose proof (H sampleEnv') as Hb.
  rewrite H1 in Ha. rewrite H2, <- Ha in Hb. vm_compute in Hb. discriminate.
Qed.

(** ** The CPU gauge in the two read models *)

(** C6. In every run from the initial state, once a fast tick has run, the
    store holds under the CPU key a [Gauge32] whose [uint32] value [n],
    converted to [float64], is the value of the CPU gauge of the registry:
    the conversion [uint32(simulatedDeviceCPU)] lost nothing. *)
Theorem cpu_gauge_matches_store ie g evs1 env evs2 :
  exists st pdu n,
    run (evs1 ++ FastTick env :: evs2) (init ie g) = Some st
    /\ oidMap (world st) !! simCpuOID = Some pdu
    /\ Type' pdu = Gauge32
    /\ Value pdu = VUint32 n
    /\ n = F64.to_uint32 (cpuUsage (reg (world st)))
    /\ F64.of_Z n = cpuUsage (reg (world st)).
Proof.
  destruct (run_after_fast_tick ie g evs1 env evs2)
    as (st & Hrun & [Hc _ _ _] & [Pc _ _ (pdu & Hl & Hty & Hv)]).
  exists st, pdu, (F64.to_uint32 (simulatedDeviceCPU (locals st))).
  rewrite Pc.
  destruct (int_float_cpu_bounds _ Hc) as (_ & _ & Hrt).
  auto 7.
Qed.

(** ** The scalar-update path *)

(** C7. For a key that is in the store, an update through [updateOidValue]
    with a value whose Go type is not the one of the key's tag ([uint32] for
    [Gauge32], [Counter32] and [TimeTicks], [int32] for [Integer]) returns
    normally, leaves the store as it was, so that the key keeps its stale
    entry, and appends one warning to the log; nothing else changes. *)
Theorem updateOidValue_type_mismatch_skips oid value w pdu :
  oidMap w !! oid = Some pdu ->
  type_agrees (Type' pdu) value = false ->
  exists w', updateOidValue oid value w = (tt, w')
    /\ oidMap w' = oidMap w
    /\ oidMap w' !! oid = Some pdu
    /\ logs w' = logs w ++ [mismatch_warning oid (Type' pdu) value]
    /\ interfaces w' = interfaces w /\ fans w' = fans w /\ psus w' = psus w
    /\ reg w' = reg w /\ rng w' = rng w.
Proof.
  intros H Ht. eexists. split; [apply (updateOidValue_mismatch _ _ _ _ H Ht)|].
  cbn. auto 10.
Qed.

Lemma updateOidValue_type_mismatch_skips_witness :
  let w := world sampleState in
  let pdu := mkPDU simCpuOID Gauge32 (VUint32 0) in
  oidMap w !! simCpuOID = Some pdu
  /\ type_agrees (Type' pdu) (VInt32 7) = false
  /\ exists w', updateOidValue simCpuOID (VInt32 7) w = (tt, w')
       /\ oidMap w' = oidMap w
       /\ oidMap w' !! simCpuOID = Some pdu
       /\ logs w' = logs w ++ [mismatch_warning simCpuOID (Type' pdu) (VInt32 7)]
       /\ interfaces w' = interfaces w /\ fans w' = fans w /\ psus w' = psus w
       /\ reg w' = reg w /\ rng w' = rng w.
Proof.
  cbv zeta.
  assert (H : oidMap (world sampleState) !! simCpuOID
              = Some (mkPDU simCpuOID Gauge32 (VUint32 0)))
    by (rewrite sampleState_oidMap; lookup_initial).
  split; [exact H|]. split; [reflexivity|].
  apply (updateOidValue_type_mismatch_skips simCpuOID (VInt32 7) (world sampleState)
           (mkPDU simCpuOID Gauge32 (VUint32 0)) H eq_refl).
Defined.

(** *** What the loops write *)

Lemma preserves_forEach_in {A T} (f : World -> T) (body : A -> M unit) l :
  (forall x, x ∈ l -> preserves f (body x)) -> preserves f (forEach body l).
Proof.
  induction l as [|x l IH]; intros Hb; simpl.
  - apply preserves_ret.
  - apply preserves_bind; [apply Hb; left|]. intros _.
    apply IH. intros y Hy. apply Hb. right. exact Hy.
Qed.

Lemma preserves_forRange_in {A T} (f : World -> T) (body : nat -> A -> M A) l :
  (forall i x, x ∈ l -> preserves f (body i x)) ->
  forall i, preserves f (forRange body i l).
Proof.
  induction l as [|x l IH]; intros Hb i; simpl.
  - apply preserves_ret.
  - apply preserves_bind; [apply Hb; left|]. intros y.
    apply preserves_bind; [|intros ys; apply preserves_ret].
    apply IH. intros j z Hz. apply Hb. right. exact Hz.
Qed.

(** The test of the fast cycle on an interface: it is up and its baseline
    is strictly in the past. *)
Definition timeDiffSeconds (env : TickEnv) (iface : interfaceData.t) : spec_float :=
  time.Seconds (time.Sub (currentTime env) (interfaceData.lastUpdateTime iface)).

Definition rate_published (env : TickEnv) (iface : interfaceData.t) : bool :=
  (interfaceData.operStatus iface =? 1)
  && F64.ltb (F64.of_Z 0) (timeDiffSeconds env iface).

Lemma publishInterface_skip env iface w :
  rate_published env iface = false -> publishInterface env iface w = (tt, w).
Proof.
  unfold rate_published, timeDiffSeconds, publishInterface. intros H.
  destruct (interfaceData.operStatus iface =? 1); [|reflexivity].
  cbn [andb] in H. rewrite H. reflexivity.
Qed.

Lemma publishInterface_lookup_ne env iface k :
  k <> ifInRateOID (interfaceData.index iface) ->
  k <> ifOutRateOID (interfaceData.index iface) ->
  k <> ifInErrorsOID (interfaceData.index iface) ->
  k <> ifOutDiscardsOID (interfaceData.index iface) ->
  preserves (fun w => oidMap w !! k) (publishInterface env iface).
Proof.
  intros H1 H2 H3 H4. unfold publishInterface, onReg, mbind, M_bind. cbv zeta.
  repeat lazymatch goal with
    | |- preserves _ (store _ _) => apply store_lookup_ne; congruence
    | |- _ => frame_step
    end.
Qed.

Lemma updateFan_fst i fan w :
  exists s, fst (updateFan i fan w) = fanData.set_status s fan
            /\ (s = fanData.status fan
                \/ (fanData.status fan = 1 /\ s = 2)
                \/ (fanData.status fan <> 1 /\ s = 1)).
Proof.
  unfold updateFan, mbind, M_bind, bind, Intn.
  destruct (draw 200 (rng w) <? 1).
  - destruct (fanData.status fan =? 1) eqn:E; simpl.
    + apply Z.eqb_eq in E. exists 2. auto.
    + apply Z.eqb_neq in E. exists 1. auto.
  - simpl. exists (fanData.status fan). split; [|auto]. destruct fan; reflexivity.
Qed.

Lemma updateFan_lookup_ne i fan k :
  k <> fanStatusOID (fanData.index fan) ->
  preserves (fun w => oidMap w !! k) (updateFan i fan).
Proof.
  intros Hk w. unfold updateFan, mbind, M_bind, bind, Intn.
  destruct (draw 200 (rng w) <? 1); [destruct (fanData.status fan =? 1)|];
    simpl; apply lookup_insert_ne; congruence.
Qed.

Lemma updatePsu_fst i psu w :
  exists s, fst (updatePsu i psu w) = psuData.set_status s psu
            /\ (s = psuData.status psu
                \/ (psuData.descr psu <> pinnedPsu
                    /\ ((psuData.status psu = 1 /\ s = 2)
                        \/ (psuData.status psu = 2 /\ s = 1)))).
Proof.
  assert (Hid : psuData.set_status (psuData.status psu) psu = psu) by (destruct psu; reflexivity).
  unfold updatePsu, mbind, M_bind, bind, Intn.
  destruct (bool_decide (psuData.descr psu <> pinnedPsu)) eqn:Ep.
  - apply bool_decide_eq_true in Ep. unfold ret at 1.
    destruct (draw 500 (rng w) <? 1).
    + destruct (psuData.status psu =? 1) eqn:E1; simpl.
      * apply Z.eqb_eq in E1. exists 2. auto 6.
      * destruct (psuData.status psu =? 2) eqn:E2; simpl.
        -- apply Z.eqb_eq in E2. exists 1. auto 6.
        -- exists (psuData.status psu). rewrite Hid. auto.
    + simpl. exists (psuData.status psu). rewrite Hid. auto.
  - simpl. exists (psuData.status psu). rewrite Hid. auto.
Qed.

Lemma updatePsu_lookup_ne i psu k :
  k <> psuStatusOID (psuData.index psu) ->
  preserves (fun w => oidMap w !! k) (updatePsu i psu).
Proof.
  intros Hk w. unfold updatePsu, mbind, M_bind, bind, Intn.
  destruct (bool_decide (psuData.descr psu <> pinnedPsu)); unfold ret at 1;
    [destruct (draw 500 (rng w) <? 1);
       [destruct (psuData.status psu =? 1); [|destruct (psuData.status psu =? 2)]|]|];
    simpl; apply lookup_insert_ne; congruence.
Qed.

(** *** The keys that a computation may add to the store *)

(** [grows_by c K]: a key of the store after [c] was there before, or is
    in [K]. *)
Definition grows_by {A} (c : M A) (K : string -> Prop) : Prop :=
  forall w k, k ∈ dom (oidMap (snd (c w))) -> k ∈ dom (oidMap w) \/ K k.

Lemma grows_by_preserves {A} (c : M A) (K : string -> Prop) :
  preserves oidMap c -> grows_by c K.
Proof. intros H w k Hk. rewrite H in Hk. auto. Qed.

Lemma grows_by_weaken {A} (c : M A) (K K' : string -> Prop) :
  grows_by c K -> (forall k, K k -> K' k) -> grows_by c K'.
Proof. intros H HK w k Hk. destruct (H w k Hk); auto. Qed.

Lemma grows_by_bind {A B} (c : M A) (k : A -> M B) (K : string -> Prop) :
  grows_by c K -> (forall a, grows_by (k a) K) -> grows_by (bind c k) K.
Proof.
  intros Hc Hk w x. unfold bind. specialize (Hc w x).
  destruct (c w) as [a w1]. simpl in Hc. intros Hx.
  destruct (Hk a w1 x Hx); auto.
Qed.

Lemma grows_by_store oid pdu : grows_by (store oid pdu) (fun k => k = oid).
Proof.
  intros w k. simpl. rewrite dom_insert_L, elem_of_union, elem_of_singleton. tauto.
Qed.

Lemma grows_by_forEach {A} (body : A -> M unit) (K : A -> string -> Prop) l :
  (forall x, x ∈ l -> grows_by (body x) (K x)) ->
  grows_by (forEach body l) (fun k => exists x, x ∈ l /\ K x k).
Proof.
  induction l as [|x l IH]; intros Hb; simpl.
  - apply grows_by_preserves, preserves_ret.
  - apply grows_by_bind.
    + eapply grows_by_weaken; [apply Hb; left|]. intros k Hk. exists x. split; [left|exact Hk].
    + intros _. eapply grows_by_weaken; [apply IH|].
      * intros y Hy. apply Hb. right. exact Hy.
      * intros k (y & Hy & Hk). exists y. split; [right; exact Hy|exact Hk].
Qed.

Lemma grows_by_forRange {A} (body : nat -> A -> M A) (K : A -> string -> Prop) l :
  (forall i x, x ∈ l -> grows_by (body i x) (K x)) ->
  forall i, grows_by (forRange body i l) (fun k => exists x, x ∈ l /\ K x k).
Proof.
  induction l as [|x l IH]; intros Hb i; simpl.
  - apply grows_by_preserves, preserves_ret.
  - apply grows_by_bind.
    + eapply grows_by_weaken; [apply Hb; left|]. intros k Hk. exists x. split; [left|exact Hk].
    + intros y. apply grows_by_bind; [|intros ys; apply grows_by_preserves, preserves_ret].
      eapply grows_by_weaken; [apply IH|].
      * intros j z Hz. apply Hb. right. exact Hz.
      * intros k (z & Hz & Hk). exists z. split; [right; exact Hz|exact Hk].
Qed.

(** The keys of the entries that belong to one interface, fan or power
    supply. *)
Definition interface_key (iface : interfaceData.t) (k : string) : Prop :=
  k = ifInRateOID (interfaceData.index iface)
  \/ k = ifOutRateOID (interfaceData.index iface)
  \/ k = ifInErrorsOID (interfaceData.index iface)
  \/ k = ifOutDiscardsOID (interfaceData.index iface).

Definition fan_key (fan : fanData.t) (k : string) : Prop :=
  k = fanStatusOID (fanData.index fan).

Definition psu_key (psu : psuData.t) (k : string) : Prop :=
  k = psuStatusOID (psuData.index psu).

Definition entity_key (w : World) (k : string) : Prop :=
  (exists iface, iface ∈ interfaces w /\ interface_key iface k)
  \/ (exists fan, fan ∈ fans w /\ fan_key fan k)
  \/ (exists psu, psu ∈ psus w /\ psu_key psu k).

Lemma publishInterface_grows env iface :
  grows_by (publishInterface env iface) (interface_key iface).
Proof.
  intros w k. destruct (rate_published env iface) eqn:E.
  - intros Hk. destruct (decide (interface_key iface k)) as [|Hn]; [auto|left].
    unfold interface_key in Hn.
    apply elem_of_dom. apply elem_of_dom in Hk.
    rewrite (publishInterface_lookup_ne env iface k) in Hk by tauto. exact Hk.
  - rewrite (publishInterface_skip _ _ _ E). auto.
Qed.

Lemma updateFan_grows i fan : grows_by (updateFan i fan) (fan_key fan).
Proof.
  intros w k Hk.
  destruct (decide (k = fanStatusOID (fanData.index fan))) as [|Hn]; [auto|left].
  apply elem_of_dom. apply elem_of_dom in Hk.
  rewrite (updateFan_lookup_ne i fan k Hn) in Hk. exact Hk.
Qed.

Lemma updatePsu_grows i psu : grows_by (updatePsu i psu) (psu_key psu).
Proof.
  intros w k Hk.
  destruct (decide (k = psuStatusOID (psuData.index psu))) as [|Hn]; [auto|left].
  apply elem_of_dom. apply elem_of_dom in Hk.
  rewrite (updatePsu_lookup_ne i psu k Hn) in Hk. exact Hk.
Qed.

Lemma publishInterfaces_grows env w k :
  k ∈ dom (oidMap (snd (publishInterfaces env w))) ->
  k ∈ dom (oidMap w) \/ exists iface, iface ∈ interfaces w /\ interface_key iface k.
Proof.
  apply (grows_by_forEach (publishInterface env) interface_key (interfaces w)
           (fun x _ => publishInterface_grows env x) w k).
Qed.

Lemma updateFans_grows w k :
  k ∈ dom (oidMap (snd (updateFans w))) ->
  k ∈ dom (oidMap w) \/ exists fan, fan ∈ fans w /\ fan_key fan k.
Proof.
  intros Hk.
  apply (grows_by_forRange updateFan fan_key (fans w) (fun i x _ => updateFan_grows i x) 0 w k).
  unfold updateFans, mbind, M_bind, bind, gets, modify in Hk.
  destruct (forRange updateFan 0 (fans w) w) as [fs w1]. exact Hk.
Qed.

Lemma updatePsus_grows w k :
  k ∈ dom (oidMap (snd (updatePsus w))) ->
  k ∈ dom (oidMap w) \/ exists psu, psu ∈ psus w /\ psu_key psu k.
Proof.
  intros Hk.
  apply (grows_by_forRange updatePsu psu_key (psus w) (fun i x _ => updatePsu_grows i x) 0 w k).
  unfold updatePsus, mbind, M_bind, bind, gets, modify in Hk.
  destruct (forRange updatePsu 0 (psus w) w) as [ps w1]. exact Hk.
Qed.

Lemma updateScalars_dom env cpu mem temp arp mac tcp w :
  dom (oidMap (snd (updateScalars env cpu mem temp arp mac tcp w))) = dom (oidMap w).
Proof.
  apply (ltac:(unfold updateScalars, mbind, M_bind;
               repeat lazymatch goal with
                 | |- preserves _ (updateOidValue _ _) =>
                     intros ?; apply updateOidValue_dom
                 | |- _ => frame_step
                 end)
         : preserves (fun w => dom (oidMap w)) (updateScalars env cpu mem temp arp mac tcp)).
Qed.

(** C10. [updateOidValue] never inserts: on a key that is not in the store
    it does nothing at all, and in every case it leaves the set of keys as
    it was; so does the whole block of scalar updates of a fast tick. A key
    that is in the store after a fast tick and was not there before is the
    key of an entry of an interface (its two rates, its error and discard
    counters), of a fan or of a power supply. *)
Theorem scalar_update_never_inserts oid value env l cpu mem temp arp mac tcp w k :
  (oidMap w !! oid = None -> updateOidValue oid value w = (tt, w))
  /\ dom (oidMap (snd (updateOidValue oid value w))) = dom (oidMap w)
  /\ dom (oidMap (snd (updateScalars env cpu mem temp arp mac tcp w))) = dom (oidMap w)
  /\ (k ∈ dom (oidMap (snd (monitorSystemMetrics_iter env l w))) ->
      k ∈ dom (oidMap w) \/ entity_key w k).
Proof.
  split; [apply updateOidValue_absent|].
  split; [apply updateOidValue_dom|].
  split; [apply updateScalars_dom|].
  destruct (monitorSystemMetrics_iter_stages env l w)
    as [lastGC w1 cpu' w2 mem' w3 temp' w4 w5 w6 w7 tables w8 w9 E1 E2 E3 E4 E5 E6 E7 E8 E9].
  intros Hk. unfold entity_key.
  pose proof (updateScalars_dom env cpu' mem' temp' tables.1.1 tables.1.2 tables.2 w8) as H9.
  rewrite E9 in H9. cbn [snd] in H9. rewrite H9 in Hk.
  revert Hk. carry oidMap E8. intros Hk.
  pose proof (updatePsus_grows w6 k) as H7. rewrite E7 in H7.
  destruct (H7 Hk) as [Hk6|(psu & Hpsu & Hkey)].
  2:{ right; right; right. exists psu. split; [|exact Hkey]. revert Hpsu.
      carry psus E6. carry psus E5. carry psus E4. carry psus E3. carry psus E2.
      carry psus E1. auto. }
  pose proof (updateFans_grows w5 k) as H6. rewrite E6 in H6.
  destruct (H6 Hk6) as [Hk5|(fan & Hfan & Hkey)].
  2:{ right; right; left. exists fan. split; [|exact Hkey]. revert Hfan.
      carry fans E5. carry fans E4. carry fans E3. carry fans E2. carry fans E1. auto. }
  pose proof (publishInterfaces_grows env w4 k) as H5. rewrite E5 in H5.
  destruct (H5 Hk5) as [Hk4|(iface & Hif & Hkey)].
  2:{ right; left. exists iface. split; [|exact Hkey]. revert Hif.
      carry interfaces E4. carry interfaces E3. carry interfaces E2.
      carry interfaces E1. auto. }
  left. revert Hk4.
  carry oidMap E4. carry oidMap E3. carry oidMap E2. carry oidMap E1. auto.
Qed.

Lemma scalar_update_never_inserts_witness :
  let w := world sampleState in
  oidMap w !! ".1.3.6.1.4.1.2021.13.1.7.0" = None
  /\ updateOidValue ".1.3.6.1.4.1.2021.13.1.7.0" (VUint32 1) w = (tt, w).
Proof.
  cbv zeta.
  assert (H : oidMap (world sampleState) !! ".1.3.6.1.4.1.2021.13.1.7.0" = None)
    by (rewrite sampleState_oidMap; lookup_initial).
  split; [exact H|].
  exact (proj1 (scalar_update_never_inserts ".1.3.6.1.4.1.2021.13.1.7.0" (VUint32 1)
                  sampleEnv (locals sampleState) (F64.of_Z 0) (F64.of_Z 0) (F64.of_Z 0)
                  0 0 0 (world sampleState) "") H).
Defined.

(** ** The health of the fans and of the power supplies *)

(** What a run may do to a fan: nothing, or leave it normal or failed. *)
Definition fan_rel (f f' : fanData.t) : Prop :=
  fanData.index f' = fanData.index f
  /\ fanData.descr f' = fanData.descr f
  /\ (fanData.status f' = fanData.status f
      \/ fanData.status f' = statusNormal \/ fanData.status f' = statusFailed)
  /\ (fanData.status f = statusNormal \/ fanData.status f = statusFailed ->
      fanData.status f' = statusNormal \/ fanData.status f' = statusFailed).

(** What a run may do to a power supply: nothing, or, when it is not the
    pinned one, exchange normal and failed. *)
Definition psu_rel (p p' : psuData.t) : Prop :=
  psuData.index p' = psuData.index p
  /\ psuData.descr p' = psuData.descr p
  /\ (psuData.status p' = psuData.status p
      \/ (psuData.descr p <> pinnedPsu
          /\ ((psuData.status p = statusNormal /\ psuData.status p' = statusFailed)
              \/ (psuData.status p = statusFailed /\ psuData.status p' = statusNormal)))).

Lemma fan_rel_refl f : fan_rel f f.
Proof. unfold fan_rel. auto. Qed.

Lemma fan_rel_trans f1 f2 f3 : fan_rel f1 f2 -> fan_rel f2 f3 -> fan_rel f1 f3.
Proof.
  unfold fan_rel. intros (I1 & D1 & S1 & K1) (I2 & D2 & S2 & K2).
  split; [congruence|]. split; [congruence|]. split.
  - destruct S2 as [S2|S2]; [rewrite S2; exact S1|auto].
  - auto.
Qed.

Lemma psu_rel_refl p : psu_rel p p.
Proof. unfold psu_rel. auto. Qed.

Lemma psu_rel_trans p1 p2 p3 : psu_rel p1 p2 -> psu_rel p2 p3 -> psu_rel p1 p3.
Proof.
  unfold psu_rel, statusNormal, statusFailed.
  intros (I1 & D1 & S1) (I2 & D2 & S2).
  split; [congruence|]. split; [congruence|].
  rewrite D1 in S2.
  destruct S1 as [S1|(N1 & S1)], S2 as [S2|(N2 & S2)].
  - left. congruence.
  - right. split; [exact N2|]. rewrite <- S1. exact S2.
  - right. split; [exact N1|]. rewrite S2. exact S1.
  - left. lia.
Qed.

Lemma Forall2_refl_rel {A} (R : A -> A -> Prop) l : (forall x, R x x) -> Forall2 R l l.
Proof. intros H. induction l; constructor; auto. Qed.

Lemma Forall2_trans_rel {A} (R : A -> A -> Prop) l1 l2 l3 :
  (forall x y z, R x y -> R y z -> R x z) ->
  Forall2 R l1 l2 -> Forall2 R l2 l3 -> Forall2 R l1 l3.
Proof.
  intros HR H12. revert l3. induction H12; intros l3 H23; inversion H23; subst;
    constructor; eauto.
Qed.

Lemma updateFan_rel i fan w : fan_rel fan (fst (updateFan i fan w)).
Proof.
  destruct (updateFan_fst i fan w) as (s & -> & Hs).
  unfold fan_rel, statusNormal, statusFailed. cbn.
  repeat split; lia.
Qed.

Lemma updatePsu_rel i psu w : psu_rel psu (fst (updatePsu i psu w)).
Proof.
  destruct (updatePsu_fst i psu w) as (s & -> & Hs).
  unfold psu_rel, statusNormal, statusFailed. cbn.
  repeat split. destruct Hs as [->|(? & ?)]; [left; reflexivity|right; split; [assumption|lia]].
Qed.

Lemma updateFans_rel w : Forall2 fan_rel (fans w) (fans (snd (updateFans w))).
Proof.
  pose proof (forRange_Forall2 fan_rel updateFan updateFan_rel (fans w) 0 w) as H.
  unfold updateFans, mbind, M_bind, bind, gets, modify.
  destruct (forRange updateFan 0 (fans w) w) as [fs w1]. exact H.
Qed.

Lemma updatePsus_rel w : Forall2 psu_rel (psus w) (psus (snd (updatePsus w))).
Proof.
  pose proof (forRange_Forall2 psu_rel updatePsu updatePsu_rel (psus w) 0 w) as H.
  unfold updatePsus, mbind, M_bind, bind, gets, modify.
  destruct (forRange updatePsu 0 (psus w) w) as [ps w1]. exact H.
Qed.

Lemma fast_tick_health env st :
  Forall2 fan_rel (fans (world st)) (fans (world (fast_tick env st)))
  /\ Forall2 psu_rel (psus (world st)) (psus (world (fast_tick env st))).
Proof.
  rewrite fast_tick_eq. cbn [world].
  destruct (monitorSystemMetrics_iter_stages env (locals st) (world st))
    as [lastGC w1 cpu w2 mem w3 temp w4 w5 w6 w7 tables w8 w9 E1 E2 E3 E4 E5 E6 E7 E8 E9].
  split.
  - carry fans E9. carry fans E8. carry fans E7.
    pose proof (updateFans_rel w5) as H. rewrite E6 in H. cbn [snd] in H.
    revert H. carry fans E5. carry fans E4. carry fans E3. carry fans E2. carry fans E1.
    auto.
  - carry psus E9. carry psus E8.
    pose proof (updatePsus_rel w6) as H. rewrite E7 in H. cbn [snd] in H.
    revert H. carry psus E6. carry psus E5. carry psus E4. carry psus E3.
    carry psus E2. carry psus E1. auto.
Qed.

Lemma slow_tick_health now st st' :
  slow_tick now st = Some st' ->
  fans (world st') = fans (world st) /\ psus (world st') = psus (world st).
Proof.
  intros H. apply slow_tick_Some in H as (m & _ & ->). cbn [world fans psus with_oidMap].
  split.
  - apply (ltac:(frame_all) : preserves fans (incrementCounters_loop now)).
  - apply (ltac:(frame_all) : preserves psus (incrementCounters_loop now)).
Qed.

(** C9. Over any run, from any state: a fan that is normal or failed stays
    normal or failed; a power supply keeps its status or, when it is not the
    pinned one, has normal and failed exchanged. Hence no run moves a power
    supply into or out of not-present, and none changes the status of the
    pinned power supply. *)
Theorem health_flips_only_normal_failed evs st st' :
  run evs st = Some st' ->
  Forall2 fan_rel (fans (world st)) (fans (world st'))
  /\ Forall2 psu_rel (psus (world st)) (psus (world st'))
  /\ (forall i p p',
        psus (world st) !! i = Some p -> psus (world st') !! i = Some p' ->
        (psuData.status p = statusNotPresent <-> psuData.status p' = statusNotPresent)
        /\ (psuData.descr p = pinnedPsu -> psuData.status p' = psuData.status p)).
Proof.
  intros Hrun.
  assert (G : Forall2 fan_rel (fans (world st)) (fans (world st'))
              /\ Forall2 psu_rel (psus (world st)) (psus (world st'))).
  { revert st Hrun. induction evs as [|[env|now] evs IH]; intros st Hrun; simpl in Hrun.
    - injection Hrun as <-.
      split; apply Forall2_refl_rel; [apply fan_rel_refl|apply psu_rel_refl].
    - destruct (IH _ Hrun) as [Hf Hp]. destruct (fast_tick_health env st) as [Hf0 Hp0].
      split.
      + exact (Forall2_trans_rel _ _ _ _ fan_rel_trans Hf0 Hf).
      + exact (Forall2_trans_rel _ _ _ _ psu_rel_trans Hp0 Hp).
    - destruct (slow_tick now st) as [st1|] eqn:E; [|discriminate].
      destruct (IH _ Hrun) as [Hf Hp].
      destruct (slow_tick_health _ _ _ E) as [Ef Ep]. rewrite Ef in Hf. rewrite Ep in Hp.
      auto. }
  destruct G as [Gf Gp]. split; [exact Gf|]. split; [exact Gp|].
  intros i p p' Hp Hp'.
  destruct (Forall2_lookup_lr _ _ _ _ _ _ Gp Hp Hp') as (_ & _ & Hs).
  unfold statusNotPresent, statusNormal, statusFailed in *.
  split; [split; intros; lia|]. intros Hd. destruct Hs as [Hs|(Hn & _)]; [exact Hs|contradiction].
Qed.

Lemma health_flips_only_normal_failed_witness :
  run sampleShortRun sampleState = Some sampleAfterShortRun
  /\ Forall2 fan_rel (fans (world sampleState)) (fans (world sampleAfterShortRun))
  /\ Forall2 psu_rel (psus (world sampleState)) (psus (world sampleAfterShortRun))
  /\ (forall i p p',
        psus (world sampleState) !! i = Some p ->
        psus (world sampleAfterShortRun) !! i = Some p' ->
        (psuData.status p = statusNotPresent <-> psuData.status p' = statusNotPresent)
        /\ (psuData.descr p = pinnedPsu -> psuData.status p' = psuData.status p)).
Proof.
  split; [exact sampleAfterShortRun_eq|].
  exact (health_flips_only_normal_failed sampleShortRun sampleState sampleAfterShortRun
           sampleAfterShortRun_eq).
Defined.

(** ** The slow cycle *)

(** The gauges, the health vectors and the runtime metrics of the registry:
    everything but the two counter vectors of errors and discards. *)
Definition same_gauges (r r' : Registry) : Prop :=
  gcCount r' = gcCount r
  /\ memoryUsage r' = memoryUsage r
  /\ goroutineCount r' = goroutineCount r
  /\ cpuUsage r' = cpuUsage r
  /\ uptime r' = uptime r
  /\ ifInRate r' = ifInRate r
  /\ ifOutRate r' = ifOutRate r
  /\ simMemoryUtilPercent r' = simMemoryUtilPercent r
  /\ simDeviceTemperatureCelsius r' = simDeviceTemperatureCelsius r
  /\ simFanStatus r' = simFanStatus r
  /\ simPsuStatus r' = simPsuStatus r
  /\ simArpCacheEntries r' = simArpCacheEntries r
  /\ simMacTableEntries r' = simMacTableEntries r
  /\ simActiveTcpConnections r' = simActiveTcpConnections r.

(** What the slow cycle may do to an interface: its identity and its two
    statuses stay; an interface that is not up stays as it is. *)
Definition iface_slow_rel (a b : interfaceData.t) : Prop :=
  interfaceData.index b = interfaceData.index a
  /\ interfaceData.descr b = interfaceData.descr a
  /\ interfaceData.adminStatus b = interfaceData.adminStatus a
  /\ interfaceData.operStatus b = interfaceData.operStatus a
  /\ (interfaceData.operStatus a <> 1 -> b = a).

Lemma incrementInterface_rel now i iface w :
  iface_slow_rel iface (fst (incrementInterface now i iface w)).
Proof.
  unfold incrementInterface, iface_slow_rel.
  destruct (interfaceData.operStatus iface =? 1) eqn:E.
  - apply Z.eqb_eq in E. unfold mbind, M_bind, bind, Intn, onReg, modify, ret.
    cbn [fst snd]. destruct (draw 100 _ <? 2); cbn; repeat split; congruence.
  - apply Z.eqb_neq in E. cbn. auto.
Qed.

Lemma incrementCounters_loop_interfaces now w :
  Forall2 iface_slow_rel (interfaces w) (interfaces (snd (incrementCounters_loop now w))).
Proof.
  pose proof (forRange_Forall2 iface_slow_rel (incrementInterface now)
                (incrementInterface_rel now) (interfaces w) 0 w) as H.
  unfold incrementCounters_loop, mbind, M_bind, bind, gets, modify.
  destruct (forRange (incrementInterface now) 0 (interfaces w) w) as [ifs w1]. exact H.
Qed.

(** C8. One slow tick leaves the locals of the fast cycle (CPU,
    temperature, GC baseline), the fans, the power supplies, the log, every
    gauge, health vector and runtime metric of the registry, and every entry
    of the store but [sysUpTime] exactly as they were. Of the interfaces it
    changes only those that are up, and of these neither the identity nor
    the statuses. What is left for it to change are the counters and
    baselines of the interfaces that are up, the two counter vectors of
    errors and discards, and [sysUpTime]. *)
Theorem slow_tick_frame now st st' :
  slow_tick now st = Some st' ->
  locals st' = locals st
  /\ fans (world st') = fans (world st)
  /\ psus (world st') = psus (world st)
  /\ logs (world st') = logs (world st)
  /\ startTime (world st') = startTime (world st)
  /\ same_gauges (reg (world st)) (reg (world st'))
  /\ (forall k, k <> sysUpTimeOID -> oidMap (world st') !! k = oidMap (world st) !! k)
  /\ Forall2 iface_slow_rel (interfaces (world st)) (interfaces (world st')).
Proof.
  intros H. apply slow_tick_Some in H as (m & Hm & ->).
  cbn [locals world fans psus logs startTime reg oidMap interfaces with_oidMap].
  split; [reflexivity|].
  split; [apply (ltac:(frame_all) : preserves fans (incrementCounters_loop now))|].
  split; [apply (ltac:(frame_all) : preserves psus (incrementCounters_loop now))|].
  split; [apply (ltac:(frame_all) : preserves logs (incrementCounters_loop now))|].
  split; [apply (ltac:(frame_all) : preserves startTime (incrementCounters_loop now))|].
  split.
  { unfold same_gauges.
    repeat split.
    - apply (ltac:(frame_all) : preserves (fun w => gcCount (reg w)) (incrementCounters_loop now)).
    - apply (ltac:(frame_all) : preserves (fun w => memoryUsage (reg w)) (incrementCounters_loop now)).
    - apply (ltac:(frame_all) : preserves (fun w => goroutineCount (reg w)) (incrementCounters_loop now)).
    - apply (ltac:(frame_all) : preserves (fun w => cpuUsage (reg w)) (incrementCounters_loop now)).
    - apply (ltac:(frame_all) : preserves (fun w => uptime (reg w)) (incrementCounters_loop now)).
    - apply (ltac:(frame_all) : preserves (fun w => ifInRate (reg w)) (incrementCounters_loop now)).
    - apply (ltac:(frame_all) : preserves (fun w => ifOutRate (reg w)) (incrementCounters_loop now)).
    - apply (ltac:(frame_all) : preserves (fun w => simMemoryUtilPercent (reg w)) (incrementCounters_loop now)).
    - apply (ltac:(frame_all) : preserves (fun w => simDeviceTemperatureCelsius (reg w)) (incrementCounters_loop now)).
    - apply (ltac:(frame_all) : preserves (fun w => simFanStatus (reg w)) (incrementCounters_loop now)).
    - apply (ltac:(frame_all) : preserves (fun w => simPsuStatus (reg w)) (incrementCounters_loop now)).
    - apply (ltac:(frame_all) : preserves (fun w => simArpCacheEntries (reg w)) (incrementCounters_loop now)).
    - apply (ltac:(frame_all) : preserves (fun w => simMacTableEntries (reg w)) (incrementCounters_loop now)).
    - apply (ltac:(frame_all) : preserves (fun w => simActiveTcpConnections (reg w)) (incrementCounters_loop now)). }
  split.
  - intros k Hk. apply (advanceSysUpTime_lookup_ne _ _ k Hm Hk).
  - apply incrementCounters_loop_interfaces.
Qed.

Lemma slow_tick_frame_witness :
  slow_tick 5000000000 sampleState = Some sampleAfterSlow
  /\ locals sampleAfterSlow = locals sampleState
  /\ fans (world sampleAfterSlow) = fans (world sampleState)
  /\ psus (world sampleAfterSlow) = psus (world sampleState)
  /\ logs (world sampleAfterSlow) = logs (world sampleState)
  /\ startTime (world sampleAfterSlow) = startTime (world sampleState)
  /\ same_gauges (reg (world sampleState)) (reg (world sampleAfterSlow))
  /\ (forall k, k <> sysUpTimeOID ->
       oidMap (world sampleAfterSlow) !! k = oidMap (world sampleState) !! k)
  /\ Forall2 iface_slow_rel (interfaces (world sampleState))
                            (interfaces (world sampleAfterSlow)).
Proof.
  split; [exact sampleAfterSlow_eq|].
  exact (slow_tick_frame 5000000000 sampleState sampleAfterSlow sampleAfterSlow_eq).
Defined.

(** ** The rates of the interfaces *)

Lemma forEach_app {A} (body : A -> M unit) l1 l2 w :
  snd (forEach body (l1 ++ l2) w) = snd (forEach body l2 (snd (forEach body l1 w))).
Proof.
  revert w. induction l1 as [|x l1 IH]; intros w; simpl; [reflexivity|].
  unfold mbind, M_bind, bind. destruct (body x w) as [[] w1]. apply IH.
Qed.

(** In a loop, what the last iteration that writes a part of the world
    leaves there is what the loop leaves there. *)
Lemma forEach_last_write {A T} (get : World -> T) (body : A -> M unit) pre x suf v w :
  (forall w, get (snd (body x w)) = v) ->
  (forall y, y ∈ suf -> preserves get (body y)) ->
  get (snd (forEach body (pre ++ x :: suf) w)) = v.
Proof.
  intros Hx Hsuf. rewrite forEach_app. simpl.
  unfold mbind, M_bind, bind.
  pose proof (Hx (snd (forEach body pre w))) as H.
  destruct (body x (snd (forEach body pre w))) as [[] w1]. simpl in H.
  rewrite (preserves_forEach_in get body suf Hsuf w1). exact H.
Qed.

(** The rates that the fast cycle computes for an interface. *)
Definition inRateBps (env : TickEnv) (iface : interfaceData.t) : spec_float :=
  F64.div (F64.of_Z (u64 (interfaceData.inOctets iface - interfaceData.lastInOctets iface)))
          (timeDiffSeconds env iface).

Definition outRateBps (env : TickEnv) (iface : interfaceData.t) : spec_float :=
  F64.div (F64.of_Z (u64 (interfaceData.outOctets iface - interfaceData.lastOutOctets iface)))
          (timeDiffSeconds env iface).

(** What [publishInterface] leaves for an interface that passes its test. *)
Lemma publishInterface_eq env iface w :
  rate_published env iface = true ->
  publishInterface env iface w
  = (tt,
     let idx := interfaceData.index iface in
     with_oidMap
       (<[ ifOutDiscardsOID idx :=
             mkPDU (ifOutDiscardsOID idx) Counter32 (VUint32 (u32 (interfaceData.outDiscards iface))) ]>
       (<[ ifInErrorsOID idx :=
             mkPDU (ifInErrorsOID idx) Counter32 (VUint32 (u32 (interfaceData.inErrors iface))) ]>
       (<[ ifOutRateOID idx :=
             mkPDU (ifOutRateOID idx) Gauge32 (VUint32 (F64.to_uint32 (outRateBps env iface))) ]>
       (<[ ifInRateOID idx :=
             mkPDU (ifInRateOID idx) Gauge32 (VUint32 (F64.to_uint32 (inRateBps env iface))) ]>
        (oidMap w)))))
       (with_reg (set_ifOutRate (interfaceData.labels iface) (outRateBps env iface)
                   (set_ifInRate (interfaceData.labels iface) (inRateBps env iface) (reg w)))
                 w)).
Proof.
  unfold rate_published, timeDiffSeconds. intros H. apply andb_prop in H as [H1 H2].
  unfold publishInterface. rewrite H1, H2. reflexivity.
Qed.

Lemma publishInterface_rates env iface w :
  rate_published env iface = true ->
  let w' := snd (publishInterface env iface w) in
  ifInRate (reg w') !! interfaceData.labels iface = Some (inRateBps env iface)
  /\ ifOutRate (reg w') !! interfaceData.labels iface = Some (outRateBps env iface).
Proof.
  intros H. rewrite (publishInterface_eq _ _ _ H). cbn.
  unfold Vec_Set. rewrite !lookup_insert_eq. auto.
Qed.

Lemma publishInterface_rates_ne env iface lbl :
  rate_published env iface = false \/ interfaceData.labels iface <> lbl ->
  preserves (fun w => (ifInRate (reg w) !! lbl, ifOutRate (reg w) !! lbl))
            (publishInterface env iface).
Proof.
  intros H w. destruct (rate_published env iface) eqn:E.
  - destruct H as [H|H]; [discriminate|].
    rewrite (publishInterface_eq _ _ _ E). cbn. unfold Vec_Set.
    rewrite !lookup_insert_ne by exact H. reflexivity.
  - rewrite (publishInterface_skip _ _ _ E). reflexivity.
Qed.

Lemma publishInterfaces_eq env w :
  publishInterfaces env w = forEach (publishInterface env) (interfaces w) w.
Proof. reflexivity. Qed.

Lemma NoDup_split_fmap {A B} (f : A -> B) pre x suf :
  NoDup (f <$> (pre ++ x :: suf)) -> forall y, y ∈ suf -> f y <> f x.
Proof.
  rewrite fmap_app, fmap_cons. intros H y Hy E.
  apply NoDup_app in H as (_ & _ & H). apply NoDup_cons in H as [H _].
  apply H. rewrite <- E. apply list_elem_of_fmap. eauto.
Qed.

(** C3. After a fast tick, for every interface that is up and whose
    elapsed time since the baseline, [currentTime.Sub(lastUpdateTime).Seconds()],
    is positive, the registry holds under the labels of the interface the
    in-rate [(inOctets - lastInOctets) / elapsed] and the out-rate
    [(outOctets - lastOutOctets) / elapsed], in [float64], the differences
    being those of [uint64]; the interfaces have distinct labels. *)
Theorem rates_are_delta_over_elapsed env st iface :
  NoDup (interfaceData.labels <$> interfaces (world st)) ->
  iface ∈ interfaces (world st) ->
  interfaceData.operStatus iface = 1 ->
  F64.ltb (F64.of_Z 0)
    (time.Seconds (time.Sub (currentTime env) (interfaceData.lastUpdateTime iface))) = true ->
  let r := reg (world (fast_tick env st)) in
  let elapsed :=
    time.Seconds (time.Sub (currentTime env) (interfaceData.lastUpdateTime iface)) in
  ifInRate r !! interfaceData.labels iface
  = Some (F64.div (F64.of_Z (u64 (interfaceData.inOctets iface
                                  - interfaceData.lastInOctets iface))) elapsed)
  /\ ifOutRate r !! interfaceData.labels iface
     = Some (F64.div (F64.of_Z (u64 (interfaceData.outOctets iface
                                     - interfaceData.lastOutOctets iface))) elapsed).
Proof.
  intros Hnd Hin Hup Hpos. cbv zeta.
  assert (Hpub : rate_published env iface = true).
  { unfold rate_published, timeDiffSeconds. rewrite Hup, Hpos. reflexivity. }
  rewrite fast_tick_eq. cbn [world].
  destruct (monitorSystemMetrics_iter_stages env (locals st) (world st))
    as [lastGC w1 cpu w2 mem w3 temp w4 w5 w6 w7 tables w8 w9 E1 E2 E3 E4 E5 E6 E7 E8 E9].
  set (get := fun w => (ifInRate (reg w) !! interfaceData.labels iface,
                        ifOutRate (reg w) !! interfaceData.labels iface)).
  assert (G : get w9 = (Some (inRateBps env iface), Some (outRateBps env iface))).
  { unfold get.
    carry (fun w => (ifInRate (reg w) !! interfaceData.labels iface,
                     ifOutRate (reg w) !! interfaceData.labels iface)) E9.
    carry (fun w => (ifInRate (reg w) !! interfaceData.labels iface,
                     ifOutRate (reg w) !! interfaceData.labels iface)) E8.
    carry (fun w => (ifInRate (reg w) !! interfaceData.labels iface,
                     ifOutRate (reg w) !! interfaceData.labels iface)) E7.
    carry (fun w => (ifInRate (reg w) !! interfaceData.labels iface,
                     ifOutRate (reg w) !! interfaceData.labels iface)) E6.
    assert (Hifs : interfaces w4 = interfaces (world st)).
    { carry interfaces E4. carry interfaces E3. carry interfaces E2.
      carry interfaces E1. reflexivity. }
    rewrite publishInterfaces_eq, Hifs in E5.
    apply list_elem_of_split in Hin as (pre & suf & Hsplit).
    rewrite Hsplit in E5, Hnd.
    pose proof (forEach_last_write get (publishInterface env) pre iface suf
                  (Some (inRateBps env iface), Some (outRateBps env iface)) w4) as H.
    rewrite E5 in H. apply H.
    - intros w. unfold get.
      destruct (publishInterface_rates env iface w Hpub) as [-> ->]. reflexivity.
    - intros y Hy. apply publishInterface_rates_ne. right.
      exact (NoDup_split_fmap _ _ _ _ Hnd y Hy). }
  unfold get in G. injection G as G1 G2. auto.
Qed.

(** An interface that is up, with 10000 and 15000 octets since its
    baseline at 5 s; the third interface of the program, up for the
    administrator and down in operation; a state that holds the two. *)
Definition sampleInterface : interfaceData.t :=
  interfaceData.mk 1 "GigabitEthernet1/0/1" 1 1 10000 15000 0 0 5000000000 1 1.

Definition sampleDownInterface : interfaceData.t :=
  interfaceData.mk 3 "GigabitEthernet1/0/3" 1 2 0 0 0 0 0 0 0.

Definition sampleTrafficState : State :=
  mkState (locals sampleState)
          (with_interfaces [sampleInterface; sampleDownInterface] (world sampleState)).

Lemma sampleTrafficState_NoDup :
  NoDup (interfaceData.labels <$> interfaces (world sampleTrafficState)).
Proof.
  cbn [sampleTrafficState world interfaces with_interfaces fmap list_fmap].
  apply NoDup_cons. split; [|apply NoDup_singleton].
  intros Hin. apply list_elem_of_singleton in Hin.
  unfold interfaceData.labels, sampleInterface, sampleDownInterface in Hin.
  cbn [interfaceData.descr interfaceData.index] in Hin. injection Hin as _ Hd.
  discriminate Hd.
Qed.

Lemma sampleInterface_in : sampleInterface ∈ interfaces (world sampleTrafficState).
Proof. cbn [sampleTrafficState world interfaces with_interfaces]. left. Qed.

Lemma rates_are_delta_over_elapsed_witness :
  NoDup (interfaceData.labels <$> interfaces (world sampleTrafficState))
  /\ sampleInterface ∈ interfaces (world sampleTrafficState)
  /\ interfaceData.operStatus sampleInterface = 1
  /\ F64.ltb (F64.of_Z 0) (time.Seconds (time.Sub 6000000000 5000000000)) = true
  /\ ifInRate (reg (world (fast_tick sampleEnv6 sampleTrafficState)))
       !! interfaceData.labels sampleInterface
     = Some (F64.div (F64.of_Z (u64 (10000 - 0)))
                     (time.Seconds (time.Sub 6000000000 5000000000)))
  /\ ifOutRate (reg (world (fast_tick sampleEnv6 sampleTrafficState)))
       !! interfaceData.labels sampleInterface
     = Some (F64.div (F64.of_Z (u64 (15000 - 0)))
                     (time.Seconds (time.Sub 6000000000 5000000000))).
Proof.
  split; [exact sampleTrafficState_NoDup|]. split; [exact sampleInterface_in|].
  split; [reflexivity|].
  assert (Hpos : F64.ltb (F64.of_Z 0) (time.Seconds (time.Sub 6000000000 5000000000)) = true)
    by (vm_compute; reflexivity).
  split; [exact Hpos|].
  exact (rates_are_delta_over_elapsed sampleEnv6 sampleTrafficState sampleInterface
           sampleTrafficState_NoDup sampleInterface_in eq_refl Hpos).
Defined.

(** ** The interfaces that are down *)

(** No interface that is up has the index [idx]. *)
Definition no_up_shares_index (ifs : list interfaceData.t) (idx : Z) : Prop :=
  forall other, other ∈ ifs -> interfaceData.operStatus other = 1 ->
                interfaceData.index other <> idx.

(** Where the rates of an interface are published: the two samples of the
    registry and the two entries of the store. *)
Definition rate_entries (w : World) (d : interfaceData.t)
    : option spec_float * option spec_float * option SnmpPDU * option SnmpPDU :=
  (ifInRate (reg w) !! interfaceData.labels d,
   ifOutRate (reg w) !! interfaceData.labels d,
   oidMap w !! ifInRateOID (interfaceData.index d),
   oidMap w !! ifOutRateOID (interfaceData.index d)).

Lemma rate_published_up env iface :
  rate_published env iface = true -> interfaceData.operStatus iface = 1.
Proof.
  unfold rate_published. intros H. apply andb_prop in H as [H _].
  apply Z.eqb_eq. exact H.
Qed.

Lemma labels_index_ne (a b : interfaceData.t) :
  interfaceData.index a <> interfaceData.index b ->
  interfaceData.labels a <> interfaceData.labels b.
Proof.
  unfold interfaceData.labels, fmt_d. intros H E. injection E as E _.
  apply H. exact (pretty_Z_inj _ _ E).
Qed.

Lemma publishInterface_rate_entries env iface d :
  (interfaceData.operStatus iface = 1 ->
   interfaceData.index iface <> interfaceData.index d) ->
  forall w, rate_entries (snd (publishInterface env iface w)) d = rate_entries w d.
Proof.
  intros H w. unfold rate_entries.
  destruct (rate_published env iface) eqn:E.
  - specialize (H (rate_published_up _ _ E)).
    pose proof (publishInterface_rates_ne env iface (interfaceData.labels d)
                  (or_intror (labels_index_ne _ _ H)) w) as Hr.
    cbv beta in Hr. injection Hr as -> ->.
    rewrite (publishInterface_lookup_ne env iface (ifInRateOID (interfaceData.index d))),
            (publishInterface_lookup_ne env iface (ifOutRateOID (interfaceData.index d)));
      try reflexivity;
      first
        [ oid_discr
        | intros E'; apply ifInRateOID_inj in E'; congruence
        | intros E'; apply ifOutRateOID_inj in E'; congruence
        | intros E'; apply ifInRateOID_ne_ifOutRateOID in E'; exact E'
        | intros E'; symmetry in E'; apply ifInRateOID_ne_ifOutRateOID in E'; exact E' ].
  - rewrite (publishInterface_skip _ _ _ E). reflexivity.
Qed.

Lemma fast_tick_rate_entries env st d :
  no_up_shares_index (interfaces (world st)) (interfaceData.index d) ->
  rate_entries (world (fast_tick env st)) d = rate_entries (world st) d.
Proof.
  intros Hno. rewrite fast_tick_eq. cbn [world].
  destruct (monitorSystemMetrics_iter_stages env (locals st) (world st))
    as [lastGC w1 cpu w2 mem w3 temp w4 w5 w6 w7 tables w8 w9 E1 E2 E3 E4 E5 E6 E7 E8 E9].
  assert (Hifs : interfaces w4 = interfaces (world st)).
  { carry interfaces E4. carry interfaces E3. carry interfaces E2.
    carry interfaces E1. reflexivity. }
  assert (H5 : rate_entries w5 d = rate_entries w4 d).
  { rewrite publishInterfaces_eq, Hifs in E5.
    pose proof (preserves_forEach_in (fun w => rate_entries w d) (publishInterface env)
                  (interfaces (world st))) as H.
    rewrite <- (H ltac:(intros y Hy w0; apply publishInterface_rate_entries;
                        intros Hup; exact (Hno y Hy Hup)) w4).
    rewrite E5. reflexivity. }
  unfold rate_entries in *.
  carry (fun w => ifInRate (reg w) !! interfaceData.labels d) E9.
  carry (fun w => ifInRate (reg w) !! interfaceData.labels d) E8.
  carry (fun w => ifInRate (reg w) !! interfaceData.labels d) E7.
  carry (fun w => ifInRate (reg w) !! interfaceData.labels d) E6.
  carry (fun w => ifOutRate (reg w) !! interfaceData.labels d) E9.
  carry (fun w => ifOutRate (reg w) !! interfaceData.labels d) E8.
  carry (fun w => ifOutRate (reg w) !! interfaceData.labels d) E7.
  carry (fun w => ifOutRate (reg w) !! interfaceData.labels d) E6.
  carry_key (fun w => oidMap w !! ifInRateOID (interfaceData.index d)) E9.
  carry_key (fun w => oidMap w !! ifInRateOID (interfaceData.index d)) E8.
  carry_key (fun w => oidMap w !! ifInRateOID (interfaceData.index d)) E7.
  carry_key (fun w => oidMap w !! ifInRateOID (interfaceData.index d)) E6.
  carry_key (fun w => oidMap w !! ifOutRateOID (interfaceData.index d)) E9.
  carry_key (fun w => oidMap w !! ifOutRateOID (interfaceData.index d)) E8.
  carry_key (fun w => oidMap w !! ifOutRateOID (interfaceData.index d)) E7.
  carry_key (fun w => oidMap w !! ifOutRateOID (interfaceData.index d)) E6.
  rewrite H5.
  carry (fun w => ifInRate (reg w) !! interfaceData.labels d) E4.
  carry (fun w => ifInRate (reg w) !! interfaceData.labels d) E3.
  carry (fun w => ifInRate (reg w) !! interfaceData.labels d) E2.
  carry (fun w => ifInRate (reg w) !! interfaceData.labels d) E1.
  carry (fun w => ifOutRate (reg w) !! interfaceData.labels d) E4.
  carry (fun w => ifOutRate (reg w) !! interfaceData.labels d) E3.
  carry (fun w => ifOutRate (reg w) !! interfaceData.labels d) E2.
  carry (fun w => ifOutRate (reg w) !! interfaceData.labels d) E1.
  carry oidMap E4. carry oidMap E3. carry oidMap E2. carry oidMap E1.
  reflexivity.
Qed.

Lemma fast_tick_interfaces env st :
  interfaces (world (fast_tick env st)) = interfaces (world st).
Proof. rewrite fast_tick_eq. apply monitorSystemMetrics_iter_interfaces. Qed.

Lemma step_down_frozen ev st st' i d :
  step ev st = Some st' ->
  interfaces (world st) !! i = Some d ->
  interfaceData.operStatus d <> 1 ->
  no_up_shares_index (interfaces (world st)) (interfaceData.index d) ->
  interfaces (world st') !! i = Some d
  /\ rate_entries (world st') d = rate_entries (world st) d
  /\ no_up_shares_index (interfaces (world st')) (interfaceData.index d).
Proof.
  intros Hstep Hi Hd Hno. destruct ev as [env|now]; simpl in Hstep.
  - injection Hstep as <-. rewrite fast_tick_interfaces.
    split; [exact Hi|]. split; [apply fast_tick_rate_entries, Hno|exact Hno].
  - destruct (slow_tick_frame _ _ _ Hstep)
      as (_ & _ & _ & _ & _ & Hg & Hk & Hifs).
    split; [|split].
    + destruct (Forall2_lookup_l _ _ _ _ _ Hifs Hi) as (b & Hb & Hrel).
      destruct Hrel as (_ & _ & _ & _ & Hsame). rewrite Hb, (Hsame Hd). reflexivity.
    + unfold rate_entries.
      destruct Hg as (_ & _ & _ & _ & _ & -> & -> & _).
      rewrite !Hk by oid_discr. reflexivity.
    + intros other Hin Hup.
      apply list_elem_of_lookup in Hin as [j Hj].
      destruct (Forall2_lookup_r _ _ _ _ _ Hifs Hj) as (a & Ha & Hrel).
      destruct Hrel as (Hidx & _ & _ & Hop & _).
      rewrite Hidx. apply (Hno a).
      * apply list_elem_of_lookup. eauto.
      * congruence.
Qed.

Lemma run_down_frozen evs st st' i d :
  run evs st = Some st' ->
  interfaces (world st) !! i = Some d ->
  interfaceData.operStatus d <> 1 ->
  no_up_shares_index (interfaces (world st)) (interfaceData.index d) ->
  interfaces (world st') !! i = Some d
  /\ rate_entries (world st') d = rate_entries (world st) d.
Proof.
  revert st. induction evs as [|ev evs IH]; intros st Hrun Hi Hd Hno; simpl in Hrun.
  - injection Hrun as <-. auto.
  - destruct (step ev st) as [st1|] eqn:E; [|discriminate].
    destruct (step_down_frozen _ _ _ _ _ E Hi Hd Hno) as (Hi1 & Hr1 & Hno1).
    destruct (IH _ Hrun Hi1 Hd Hno1) as (Hi' & Hr'). rewrite Hr', Hr1. auto.
Qed.

Lemma pair4_eq_inv {A B C D} (a a' : A) (b b' : B) (c c' : C) (d d' : D) :
  (a, b, c, d) = (a', b', c', d') -> a = a' /\ b = b'.
Proof. intros H. inversion H. auto. Qed.

(** C2, amended. Over any run, an interface that is not up (and whose index
    no interface that is up shares) keeps every one of its fields, the four
    cumulative counters included; and no tick writes a rate for it: the two
    rate samples of the registry under its labels and the two rate entries
    of the store under its index stay what they were, absent if they were
    absent. *)
Theorem down_interface_frozen evs st st' i d :
  run evs st = Some st' ->
  interfaces (world st) !! i = Some d ->
  interfaceData.operStatus d <> 1 ->
  no_up_shares_index (interfaces (world st)) (interfaceData.index d) ->
  interfaces (world st') !! i = Some d
  /\ rate_entries (world st') d = rate_entries (world st) d.
Proof.
  revert st. induction evs as [|ev evs IH]; intros st Hrun Hi Hd Hno; simpl in Hrun.
  - injection Hrun as <-. auto.
  - destruct (step ev st) as [st1|] eqn:E; [|discriminate].
    destruct (step_down_frozen _ _ _ _ _ E Hi Hd Hno) as (Hi1 & Hr1 & Hno1).
    destruct (IH _ Hrun Hi1 Hd Hno1) as (Hi' & Hr'). rewrite Hr', Hr1. auto.
Qed.

Lemma sampleState_interfaces :
  interfaces (world sampleState)
  = [ interfaceData.mk 1 "GigabitEthernet1/0/1" 1 1 0 0 0 0 0 0 0;
      interfaceData.mk 2 "GigabitEthernet1/0/2" 1 1 0 0 0 0 0 0 0;
      sampleDownInterface;
      interfaceData.mk 4 "GigabitEthernet1/0/4" 2 2 0 0 0 0 0 0 0;
      interfaceData.mk 5 "Ten-GigabitEthernet1/0/1" 1 1 0 0 0 0 0 0 0 ].
Proof. unfold sampleState. rewrite init_interfaces. reflexivity. Qed.

Lemma sample_no_up_shares_index :
  no_up_shares_index (interfaces (world sampleState)) 3.
Proof.
  intros other Hin Hup. rewrite sampleState_interfaces in Hin.
  apply list_elem_of_In in Hin. cbn [In] in Hin.
  destruct Hin as [<-|[<-|[<-|[<-|[<-|[]]]]]];
    cbn [interfaceData.operStatus interfaceData.index sampleDownInterface] in Hup |- *;
    congruence.
Qed.

Lemma down_interface_frozen_witness :
  run sampleRun sampleState = Some sampleAfterRun
  /\ interfaces (world sampleState) !! 2%nat = Some sampleDownInterface
  /\ interfaceData.operStatus sampleDownInterface <> 1
  /\ no_up_shares_index (interfaces (world sampleState))
       (interfaceData.index sampleDownInterface)
  /\ interfaces (world sampleAfterRun) !! 2%nat = Some sampleDownInterface
  /\ rate_entries (world sampleAfterRun) sampleDownInterface
     = rate_entries (world sampleState) sampleDownInterface.
Proof.
  assert (Hi : interfaces (world sampleState) !! 2%nat = Some sampleDownInterface)
    by (rewrite sampleState_interfaces; reflexivity).
  assert (Hd : interfaceData.operStatus sampleDownInterface <> 1)
    by (cbn; discriminate).
  split; [exact sampleAfterRun_eq|]. split; [exact Hi|]. split; [exact Hd|].
  split; [exact sample_no_up_shares_index|].
  exact (down_interface_frozen sampleRun sampleState sampleAfterRun 2%nat
           sampleDownInterface sampleAfterRun_eq Hi Hd sample_no_up_shares_index).
Defined.

Lemma sampleState_rate_entries :
  rate_entries (world sampleState) sampleDownInterface = (None, None, None, None).
Proof.
  unfold rate_entries. rewrite sampleState_oidMap.
  unfold sampleState. rewrite init_reg. cbn [initRegistry ifInRate ifOutRate].
  rewrite !lookup_empty.
  assert (H1 : initialOidMap 3 5 0 0 0 0 0
               !! ifInRateOID (interfaceData.index sampleDownInterface) = None)
    by lookup_initial.
  assert (H2 : initialOidMap 3 5 0 0 0 0 0
               !! ifOutRateOID (interfaceData.index sampleDownInterface) = None)
    by lookup_initial.
  rewrite H1, H2. reflexivity.
Qed.

(** C2 as the specification words it fails: a rate of 0 is not what is
    published for an interface that is down, nothing is. After a fast tick,
    a slow tick and a fast tick from the initial state, the third interface
    has no rate sample in the registry and no rate entry in the store. *)
Lemma down_interface_has_no_rate :
  run sampleRun sampleState = Some sampleAfterRun
  /\ interfaces (world sampleAfterRun) !! 2%nat = Some sampleDownInterface
  /\ rate_entries (world sampleAfterRun) sampleDownInterface = (None, None, None, None)
  /\ ifInRate (reg (world sampleAfterRun)) !! interfaceData.labels sampleDownInterface
     <> Some (F64.of_Z 0)
  /\ ifOutRate (reg (world sampleAfterRun)) !! interfaceData.labels sampleDownInterface
     <> Some (F64.of_Z 0).
Proof.
  assert (Hi0 : interfaces (world sampleState) !! 2%nat = Some sampleDownInterface)
    by (rewrite sampleState_interfaces; reflexivity).
  assert (Hd : interfaceData.operStatus sampleDownInterface <> 1)
    by (cbn; discriminate).
  destruct (run_down_frozen sampleRun sampleState sampleAfterRun 2%nat
              sampleDownInterface sampleAfterRun_eq Hi0 Hd sample_no_up_shares_index)
    as (Hi & Hr).
  rewrite sampleState_rate_entries in Hr.
  split; [exact sampleAfterRun_eq|]. split; [exact Hi|]. split; [exact Hr|].
  destruct (pair4_eq_inv _ _ _ _ _ _ _ _ Hr) as (Ha & Hb).
  rewrite Ha, Hb. split; discriminate.
Qed.

(** ** The counters *)

Lemma forRange_lookup {A} (R : nat -> A -> A -> Prop) (body : nat -> A -> M A) :
  (forall i x w, R i x (fst (body i x w))) ->
  forall l i0 w j a b,
    l !! j = Some a -> fst (forRange body i0 l w) !! j = Some b -> R (i0 + j)%nat a b.
Proof.
  intros Hb. induction l as [|x l IH]; intros i0 w j a b Ha Hj; [discriminate|].
  simpl in Hj. unfold mbind, M_bind, bind in Hj.
  pose proof (Hb i0 x w) as Hx. destruct (body i0 x w) as [y w1]. simpl in Hx.
  specialize (IH (S i0) w1). destruct (forRange body (S i0) l w1) as [ys w2].
  simpl in Hj, IH. destruct j as [|j]; simpl in Ha, Hj.
  - injection Ha as <-. injection Hj as <-. rewrite Nat.add_0_r. exact Hx.
  - replace (i0 + S j)%nat with (S i0 + j)%nat by lia. eauto.
Qed.

(** An addition in [uint64] that does not overflow does not decrease. *)
Lemma u64_add_le x d bound :
  0 <= d <= bound -> x + bound < 2 ^ 64 -> x <= u64 (x + d).
Proof.
  intros Hd Hb. unfold u64.
  destruct (Z_lt_le_dec (x + d) 0) as [Hneg|Hpos].
  - pose proof (Z.mod_pos_bound (x + d) (2 ^ 64) ltac:(lia)). lia.
  - rewrite Z.mod_small by lia. lia.
Qed.

Lemma u64_bounds d : 0 <= d -> 0 <= u64 d <= d.
Proof.
  intros Hd. unfold u64. split.
  - apply Z.mod_pos_bound. lia.
  - apply Z.mod_le; lia.
Qed.

(** What one slow tick does to the four counters of the interface at
    position [i]: none decreases unless its addition overflows [uint64]. *)
Definition counters_advance (i : nat) (a b : interfaceData.t) : Prop :=
  (interfaceData.inOctets a + (29999 + 1000 * Z.of_nat i) < 2 ^ 64 ->
   interfaceData.inOctets a <= interfaceData.inOctets b)
  /\ (interfaceData.outOctets a + (44999 + 2000 * Z.of_nat i) < 2 ^ 64 ->
      interfaceData.outOctets a <= interfaceData.outOctets b)
  /\ (interfaceData.inErrors a + 3 < 2 ^ 64 ->
      interfaceData.inErrors a <= interfaceData.inErrors b)
  /\ (interfaceData.outDiscards a + 2 < 2 ^ 64 ->
      interfaceData.outDiscards a <= interfaceData.outDiscards b).

Lemma incrementInterface_advance now i a w :
  counters_advance i a (fst (incrementInterface now i a w)).
Proof.
  unfold incrementInterface, counters_advance.
  destruct (interfaceData.operStatus a =? 1); [|cbn; repeat split; lia].
  unfold mbind, M_bind, bind, Intn, onReg, modify, ret. cbn [fst snd rng with_rng].
  set (r1 := draw 20000 _). set (r2 := draw 30000 _). set (r3 := draw 100 _).
  assert (H1 : 0 <= r1 < 20000) by (apply draw_range; lia).
  assert (H2 : 0 <= r2 < 30000) by (apply draw_range; lia).
  pose proof (u64_bounds (r1 + 10000 + Z.of_nat i * 1000) ltac:(lia)) as B1.
  pose proof (u64_bounds (r2 + 15000 + Z.of_nat i * 2000) ltac:(lia)) as B2.
  destruct (r3 <? 2).
  - cbn [fst snd rng with_rng with_reg].
    set (r4 := draw 3 _). set (r5 := draw 2 _).
    assert (H4 : 0 <= r4 < 3) by (apply draw_range; lia).
    assert (H5 : 0 <= r5 < 2) by (apply draw_range; lia).
    pose proof (u64_bounds (r4 + 1) ltac:(lia)) as B4.
    pose proof (u64_bounds (r5 + 1) ltac:(lia)) as B5.
    cbn. repeat split; intros Hb; refine (u64_add_le _ _ _ _ Hb); lia.
  - cbn. repeat split; intros Hb; try lia; refine (u64_add_le _ _ _ _ Hb); lia.
Qed.

(** The [uint32] that [sysUpTime] holds. *)
Definition sysUpTimeValue (w : World) : option Z :=
  match oidMap w !! sysUpTimeOID with
  | Some pdu => match Value pdu with VUint32 n => Some n | _ => None end
  | None => None
  end.

Lemma incrementTicks_eq : incrementTicks = 500.
Proof. vm_compute. reflexivity. Qed.

Lemma slow_tick_sysUpTime now st n :
  sysUpTimeValue (world st) = Some n ->
  exists st', slow_tick now st = Some st'
              /\ sysUpTimeValue (world st') = Some (u32 (n + 500)).
Proof.
  unfold sysUpTimeValue. intros H.
  destruct (oidMap (world st) !! sysUpTimeOID) as [pdu|] eqn:E; [|discriminate].
  destruct (Value pdu) eqn:Ev; try discriminate. injection H as ->.
  unfold slow_tick, incrementCounters_iter.
  rewrite (incrementCounters_loop_oidMap now (world st)).
  rewrite (advanceSysUpTime_uint32 _ _ _ E Ev), incrementTicks_eq.
  eexists. split; [reflexivity|]. cbn [world oidMap with_oidMap].
  rewrite lookup_insert_eq. reflexivity.
Qed.

Lemma slow_tick_sysUpTime_inv now st st' n :
  slow_tick now st = Some st' -> sysUpTimeValue (world st) = Some n ->
  sysUpTimeValue (world st') = Some (u32 (n + 500)).
Proof.
  intros H Hn. destruct (slow_tick_sysUpTime now st n Hn) as (st1 & H1 & Hv). congruence.
Qed.

Lemma slow_tick_interfaces_advance now st st' i a b :
  slow_tick now st = Some st' ->
  interfaces (world st) !! i = Some a -> interfaces (world st') !! i = Some b ->
  counters_advance i a b.
Proof.
  intros H Ha Hb. apply slow_tick_Some in H as (m & _ & ->).
  cbn [world interfaces with_oidMap] in Hb.
  unfold incrementCounters_loop, mbind, M_bind, bind, gets, modify in Hb.
  pose proof (forRange_lookup counters_advance (incrementInterface now)
                (incrementInterface_advance now) (interfaces (world st)) 0 (world st) i a b Ha)
    as G.
  destruct (forRange (incrementInterface now) 0 (interfaces (world st)) (world st))
    as [ifs w1]. exact (G Hb).
Qed.

(** The garbage collections: the count that the fast cycle remembers and
    the counter of the registry. *)
Lemma monitorSystemMetrics_iter_gc env l w :
  let r := monitorSystemMetrics_iter env l w in
  let cur := memStats_NumGC env in
  lastGCCount (fst r) = (if lastGCCount l <? cur then cur else lastGCCount l)
  /\ gcCount (reg (snd r))
     = (if lastGCCount l <? cur
        then Counter_Add (F64.of_Z (u32 (cur - lastGCCount l))) (gcCount (reg w))
        else gcCount (reg w)).
Proof.
  cbv zeta.
  destruct (monitorSystemMetrics_iter_stages env l w)
    as [lastGC w1 cpu w2 mem w3 temp w4 w5 w6 w7 tables w8 w9 E1 E2 E3 E4 E5 E6 E7 E8 E9].
  cbn [lastGCCount fst snd].
  carry (fun w => gcCount (reg w)) E9. carry (fun w => gcCount (reg w)) E8.
  carry (fun w => gcCount (reg w)) E7. carry (fun w => gcCount (reg w)) E6.
  carry (fun w => gcCount (reg w)) E5. carry (fun w => gcCount (reg w)) E4.
  carry (fun w => gcCount (reg w)) E3. carry (fun w => gcCount (reg w)) E2.
  unfold updateAppMetrics, mbind, M_bind, bind, onReg, modify, ret in E1.
  destruct (lastGCCount l <? memStats_NumGC env); injection E1 as <- <-; auto.
Qed.

(** The two [Counter32] entries that a fast tick writes for an interface. *)
Lemma publishInterface_counters env iface w :
  rate_published env iface = true ->
  let w' := snd (publishInterface env iface w) in
  let idx := interfaceData.index iface in
  oidMap w' !! ifInErrorsOID idx
  = Some (mkPDU (ifInErrorsOID idx) Counter32 (VUint32 (u32 (interfaceData.inErrors iface))))
  /\ oidMap w' !! ifOutDiscardsOID idx
     = Some (mkPDU (ifOutDiscardsOID idx) Counter32
                   (VUint32 (u32 (interfaceData.outDiscards iface)))).
Proof.
  intros H. rewrite (publishInterface_eq _ _ _ H). cbn. split.
  - rewrite lookup_insert_ne by oid_discr. apply lookup_insert_eq.
  - apply lookup_insert_eq.
Qed.

Lemma publishInterface_counters_ne env iface idx :
  interfaceData.index iface <> idx ->
  preserves (fun w => (oidMap w !! ifInErrorsOID idx, oidMap w !! ifOutDiscardsOID idx))
            (publishInterface env iface).
Proof.
  intros H w.
  rewrite (publishInterface_lookup_ne env iface (ifInErrorsOID idx)),
          (publishInterface_lookup_ne env iface (ifOutDiscardsOID idx));
    try reflexivity;
    first
      [ oid_discr
      | intros E'; apply ifInErrorsOID_inj in E'; congruence
      | intros E'; apply ifOutDiscardsOID_inj in E'; congruence ].
Qed.

Lemma fast_tick_counter_entries env st iface :
  NoDup (interfaceData.index <$> interfaces (world st)) ->
  iface ∈ interfaces (world st) ->
  rate_published env iface = true ->
  let w' := world (fast_tick env st) in
  let idx := interfaceData.index iface in
  oidMap w' !! ifInErrorsOID idx
  = Some (mkPDU (ifInErrorsOID idx) Counter32 (VUint32 (u32 (interfaceData.inErrors iface))))
  /\ oidMap w' !! ifOutDiscardsOID idx
     = Some (mkPDU (ifOutDiscardsOID idx) Counter32
                   (VUint32 (u32 (interfaceData.outDiscards iface)))).
Proof.
  intros Hnd Hin Hpub. cbv zeta. rewrite fast_tick_eq. cbn [world].
  destruct (monitorSystemMetrics_iter_stages env (locals st) (world st))
    as [lastGC w1 cpu w2 mem w3 temp w4 w5 w6 w7 tables w8 w9 E1 E2 E3 E4 E5 E6 E7 E8 E9].
  set (idx := interfaceData.index iface).
  set (get := fun w => (oidMap w !! ifInErrorsOID idx, oidMap w !! ifOutDiscardsOID idx)).
  assert (G : get w5
              = (Some (mkPDU (ifInErrorsOID idx) Counter32
                             (VUint32 (u32 (interfaceData.inErrors iface)))),
                 Some (mkPDU (ifOutDiscardsOID idx) Counter32
                             (VUint32 (u32 (interfaceData.outDiscards iface)))))).
  { assert (Hifs : interfaces w4 = interfaces (world st)).
    { carry interfaces E4. carry interfaces E3. carry interfaces E2.
      carry interfaces E1. reflexivity. }
    rewrite publishInterfaces_eq, Hifs in E5.
    apply list_elem_of_split in Hin as (pre & suf & Hsplit).
    rewrite Hsplit in E5, Hnd.
    pose proof (forEach_last_write get (publishInterface env) pre iface suf
                  (Some (mkPDU (ifInErrorsOID idx) Counter32
                               (VUint32 (u32 (interfaceData.inErrors iface)))),
                   Some (mkPDU (ifOutDiscardsOID idx) Counter32
                               (VUint32 (u32 (interfaceData.outDiscards iface))))) w4) as H.
    rewrite E5 in H. apply H.
    - intros w. unfold get, idx.
      destruct (publishInterface_counters env iface w Hpub) as [-> ->]. reflexivity.
    - intros y Hy. apply publishInterface_counters_ne.
      exact (NoDup_split_fmap _ _ _ _ Hnd y Hy). }
  unfold get in G. injection G as G1 G2. rewrite <- G1, <- G2. split.
  - carry_key (fun w => oidMap w !! ifInErrorsOID idx) E9.
    carry_key (fun w => oidMap w !! ifInErrorsOID idx) E8.
    carry_key (fun w => oidMap w !! ifInErrorsOID idx) E7.
    carry_key (fun w => oidMap w !! ifInErrorsOID idx) E6. reflexivity.
  - carry_key (fun w => oidMap w !! ifOutDiscardsOID idx) E9.
    carry_key (fun w => oidMap w !! ifOutDiscardsOID idx) E8.
    carry_key (fun w => oidMap w !! ifOutDiscardsOID idx) E7.
    carry_key (fun w => oidMap w !! ifOutDiscardsOID idx) E6. reflexivity.
Qed.

(** C4, amended. No tick sets a counter back, but the fixed-width ones wrap.
    - A slow tick does not decrease a cumulative counter of an interface
      unless the [uint64] addition overflows (the increment is at most
      [29999 + 1000 i] and [44999 + 2000 i] octets for the interface at
      position [i], 3 errors, 2 discards); it advances [sysUpTime] by
      exactly 500 modulo [2^32]; it leaves the GC counter of the registry
      and the [Counter32] entries of the store as they were.
    - A fast tick leaves the interfaces and [sysUpTime] as they were; the
      GC count that it remembers does not decrease, and the GC counter of
      the registry stays or has a non-negative difference added.
    - The two [Counter32] entries that a fast tick publishes for an
      interface hold the interface's counters modulo [2^32]. *)
Theorem counters_monotone_unless_wrap :
  (forall now st st',
     slow_tick now st = Some st' ->
     (forall i a b,
        interfaces (world st) !! i = Some a -> interfaces (world st') !! i = Some b ->
        counters_advance i a b)
     /\ (forall n, sysUpTimeValue (world st) = Some n ->
           sysUpTimeValue (world st') = Some ((n + 500) mod 2 ^ 32)
           /\ (0 <= n -> n + 500 < 2 ^ 32 -> sysUpTimeValue (world st') = Some (n + 500)))
     /\ gcCount (reg (world st')) = gcCount (reg (world st))
     /\ lastGCCount (locals st') = lastGCCount (locals st)
     /\ (forall idx,
           oidMap (world st') !! ifInErrorsOID idx = oidMap (world st) !! ifInErrorsOID idx
           /\ oidMap (world st') !! ifOutDiscardsOID idx
              = oidMap (world st) !! ifOutDiscardsOID idx))
  /\ (forall env st,
        interfaces (world (fast_tick env st)) = interfaces (world st)
        /\ sysUpTimeValue (world (fast_tick env st)) = sysUpTimeValue (world st)
        /\ lastGCCount (locals st) <= lastGCCount (locals (fast_tick env st))
        /\ (gcCount (reg (world (fast_tick env st))) = gcCount (reg (world st))
            \/ exists d, 0 <= d
                 /\ gcCount (reg (world (fast_tick env st)))
                    = Counter_Add (F64.of_Z d) (gcCount (reg (world st)))))
  /\ (forall env st iface,
        NoDup (interfaceData.index <$> interfaces (world st)) ->
        iface ∈ interfaces (world st) ->
        rate_published env iface = true ->
        oidMap (world (fast_tick env st)) !! ifInErrorsOID (interfaceData.index iface)
        = Some (mkPDU (ifInErrorsOID (interfaceData.index iface)) Counter32
                      (VUint32 (interfaceData.inErrors iface mod 2 ^ 32)))
        /\ oidMap (world (fast_tick env st)) !! ifOutDiscardsOID (interfaceData.index iface)
           = Some (mkPDU (ifOutDiscardsOID (interfaceData.index iface)) Counter32
                         (VUint32 (interfaceData.outDiscards iface mod 2 ^ 32)))).
Proof.
  split; [|split].
  - intros now st st' H.
    destruct (slow_tick_frame _ _ _ H) as (Hl & _ & _ & _ & _ & Hg & Hk & _).
    split; [intros i a b; apply (slow_tick_interfaces_advance _ _ _ _ _ _ H)|].
    split.
    { intros n Hn. pose proof (slow_tick_sysUpTime_inv _ _ _ _ H Hn) as Hv.
      split; [exact Hv|]. intros H0 Hlt. rewrite Hv. unfold u32.
      rewrite Z.mod_small by lia. reflexivity. }
    split; [apply Hg|]. split; [rewrite Hl; reflexivity|].
    intros idx. split; apply Hk; oid_discr.
  - intros env st. rewrite fast_tick_eq. cbn [world locals].
    split; [apply monitorSystemMetrics_iter_interfaces|].
    split.
    { unfold sysUpTimeValue.
      rewrite (monitorSystemMetrics_iter_sysUpTime env (locals st) (world st)).
      reflexivity. }
    destruct (monitorSystemMetrics_iter_gc env (locals st) (world st)) as [-> ->].
    destruct (lastGCCount (locals st) <? memStats_NumGC env) eqn:E.
    + apply Z.ltb_lt in E. split; [lia|]. right. eexists. split; [|reflexivity].
      apply Z.mod_pos_bound. lia.
    + split; [lia|auto].
  - intros env st iface Hnd Hin Hpub.
    apply (fast_tick_counter_entries env st iface Hnd Hin Hpub).
Qed.

Lemma sampleState_sysUpTime : sysUpTimeValue (world sampleState) = Some 12345000.
Proof.
  unfold sysUpTimeValue. rewrite sampleState_oidMap.
  assert (H : initialOidMap 3 5 0 0 0 0 0 !! sysUpTimeOID
              = Some (mkPDU sysUpTimeOID TimeTicks (VUint32 (u32 (0 + 12345000)))))
    by lookup_initial.
  rewrite H. reflexivity.
Qed.

Lemma counters_monotone_unless_wrap_witness :
  slow_tick 5000000000 sampleState = Some sampleAfterSlow
  /\ sysUpTimeValue (world sampleState) = Some 12345000
  /\ sysUpTimeValue (world sampleAfterSlow) = Some (12345000 + 500).
Proof.
  assert (H : sysUpTimeValue (world sampleState) = Some 12345000)
    by exact sampleState_sysUpTime.
  split; [exact sampleAfterSlow_eq|]. split; [exact H|].
  refine (proj2 (proj1 (proj2 (proj1 counters_monotone_unless_wrap
                                 5000000000 sampleState sampleAfterSlow
                                 sampleAfterSlow_eq)) 12345000 H) _ _); lia.
Defined.

(** The closed form of [sysUpTime] over a run of slow ticks. *)
Lemma slow_run_sysUpTime k now st n :
  sysUpTimeValue (world st) = Some n -> 0 <= n < 2 ^ 32 ->
  exists st', run (replicate k (SlowTick now)) st = Some st'
              /\ sysUpTimeValue (world st') = Some (u32 (n + 500 * Z.of_nat k)).
Proof.
  revert st n. induction k as [|k IH]; intros st n Hn Hr.
  - exists st. split; [reflexivity|]. rewrite Hn. unfold u32.
    rewrite Z.mod_small by lia. f_equal. lia.
  - destruct (slow_tick_sysUpTime now st n Hn) as (st1 & H1 & Hv1).
    destruct (IH st1 (u32 (n + 500)) Hv1 ltac:(apply Z.mod_pos_bound; lia))
      as (st' & Hrun & Hv).
    exists st'. simpl. rewrite H1. split; [exact Hrun|]. rewrite Hv. f_equal.
    unfold u32. rewrite Zplus_mod_idemp_l. f_equal. lia.
Qed.

(** C4 as the specification words it fails: [sysUpTime] is not monotone
    for all time. From the initial state with [sysUpTime] at 12345000,
    after 8565244 slow ticks (about 496 days) it is at 4294967000, and
    after the next one at 204. *)
Lemma sysUpTime_wraps :
  exists st st',
    run (replicate (Z.to_nat 8565244) (SlowTick 0)) sampleState = Some st
    /\ step (SlowTick 0) st = Some st'
    /\ sysUpTimeValue (world st) = Some 4294967000
    /\ sysUpTimeValue (world st') = Some 204
    /\ 204 < 4294967000.
Proof.
  assert (H0 : sysUpTimeValue (world sampleState) = Some 12345000)
    by exact sampleState_sysUpTime.
  destruct (slow_run_sysUpTime (Z.to_nat 8565244) 0 sampleState 12345000 H0 ltac:(lia))
    as (st & Hrun & Hv).
  rewrite Z2Nat.id in Hv by lia.
  change (u32 (12345000 + 500 * 8565244)) with 4294967000 in Hv.
  destruct (slow_tick_sysUpTime 0 st 4294967000 Hv) as (st' & Hstep & Hv').
  change (u32 (4294967000 + 500)) with 204 in Hv'.
  exists st, st'.
  exact (conj Hrun (conj Hstep (conj Hv (conj Hv' eq_refl)))).
Qed.

(** * The rest of the engine *)

(** ** Invariants of the world *)

(** [keeps P c]: [c] takes a world of [P] to a world of [P]. *)
Definition keeps {A} (P : World -> Prop) (c : M A) : Prop :=
  forall w, P w -> P (snd (c w)).

Lemma keeps_ret {A} (P : World -> Prop) (a : A) : keeps P (ret a).
Proof. intros w Hw. exact Hw. Qed.

Lemma keeps_gets {A} (P : World -> Prop) (g : World -> A) : keeps P (gets g).
Proof. intros w Hw. exact Hw. Qed.

Lemma keeps_bind {A B} (P : World -> Prop) (c : M A) (k : A -> M B) :
  keeps P c -> (forall a, keeps P (k a)) -> keeps P (bind c k).
Proof.
  intros Hc Hk w Hw. unfold bind. specialize (Hc w Hw).
  destruct (c w) as [a w1]. exact (Hk a w1 Hc).
Qed.

Lemma keeps_forRange {A} (P : World -> Prop) (body : nat -> A -> M A) l :
  (forall i x, keeps P (body i x)) -> forall i, keeps P (forRange body i l).
Proof.
  intros Hb. induction l as [|x l IH]; intros i; simpl.
  - apply keeps_ret.
  - apply keeps_bind; [apply Hb|]. intros y.
    apply keeps_bind; [apply IH|]. intros ys. apply keeps_ret.
Qed.

Lemma keeps_forEach {A} (P : World -> Prop) (body : A -> M unit) l :
  (forall x, keeps P (body x)) -> keeps P (forEach body l).
Proof.
  intros Hb. induction l as [|x l IH]; simpl.
  - apply keeps_ret.
  - apply keeps_bind; [apply Hb|]. intros _. exact IH.
Qed.

Lemma keeps_preserves {A T} (f : World -> T) (Q : T -> Prop) (c : M A) :
  preserves f c -> keeps (fun w => Q (f w)) c.
Proof. intros H w Hw. rewrite H. exact Hw. Qed.

Ltac keeps_step :=
  lazymatch goal with
  | |- keeps _ (ret _) => apply keeps_ret
  | |- keeps _ (gets _) => apply keeps_gets
  | |- keeps _ (bind _ _) => apply keeps_bind; [|intros ?]
  | |- keeps _ (forEach _ _) => apply keeps_forEach; intros ?
  | |- keeps _ (forRange _ _ _) => apply keeps_forRange; intros ? ?
  | |- keeps _ (if ?b then _ else _) => destruct b
  | |- keeps _ (match ?x with _ => _ end) => destruct x
  end.

(** The blocks of the two cycles, down to the statements that write the
    store or the log. *)
Ltac unfold_to_writes :=
  unfold monitorSystemMetrics_iter, updateAppMetrics, updateCPU, updateMemoryUtil,
    updateTemp, publishInterfaces, publishInterface, updateFans, updateFan,
    updatePsus, updatePsu, updateTables, updateScalars,
    incrementCounters_loop, incrementInterface, onReg;
  unfold mbind, M_bind; cbv zeta.

(** From the world to the states of a run. *)
Lemma fast_tick_world env st :
  world (fast_tick env st) = snd (monitorSystemMetrics_iter env (locals st) (world st)).
Proof. rewrite fast_tick_eq. reflexivity. Qed.

Lemma run_keeps (P : State -> Prop) :
  (forall env st, P st -> P (fast_tick env st)) ->
  (forall now st st', P st -> slow_tick now st = Some st' -> P st') ->
  forall evs st st', P st -> run evs st = Some st' -> P st'.
Proof.
  intros Hf Hs. induction evs as [|[env|now] evs IH]; intros st st' HP Hrun; simpl in Hrun.
  - injection Hrun as <-. exact HP.
  - exact (IH _ _ (Hf env st HP) Hrun).
  - destruct (slow_tick now st) as [st1|] eqn:E; [|discriminate].
    exact (IH _ _ (Hs now st st1 HP E) Hrun).
Qed.

(** Every run from the initial state ends, in a state of every invariant
    that the initial state has and that the two ticks keep. *)
Lemma reachable_keeps (P : State -> Prop) ie g :
  P (init ie g) ->
  (forall env st, Inv st -> P st -> P (fast_tick env st)) ->
  (forall now st st', Inv st -> P st -> slow_tick now st = Some st' -> P st') ->
  forall evs, exists st, run evs (init ie g) = Some st /\ Inv st /\ P st.
Proof.
  intros H0 Hf Hs evs.
  destruct (run_Inv evs _ (init_Inv ie g)) as (st & Hrun & HI).
  exists st. split; [exact Hrun|]. split; [exact HI|].
  assert (G : Inv st /\ P st); [|exact (proj2 G)].
  apply (run_keeps (fun st => Inv st /\ P st)) with (evs := evs) (st := init ie g).
  - intros env s [I1 P1]. split; [apply fast_tick_Inv, I1|apply Hf; assumption].
  - intros now s s' [I1 P1] E. split; [exact (slow_tick_Inv _ _ _ I1 E)|exact (Hs _ _ _ I1 P1 E)].
  - split; [apply init_Inv|exact H0].
  - exact Hrun.
Qed.

(** ** The slow cycle panics on a [sysUpTime] that is not a [uint32], and
    only then *)



(** X2. No run from the initial state panics, whatever the random source,
    the clock and the runtime give: every sequence of ticks ends in a state. *)
Theorem run_never_panics ie g evs : exists st, run evs (init ie g) = Some st.
Proof.
  destruct (run_Inv evs _ (init_Inv ie g)) as (st & H & _). eauto.
Qed.

(** ** What a fast tick leaves alone *)

(** The entries of the store that only the initialisation writes. *)
Definition staticOIDs : list string :=
  [sysDescrOID; sysNameOID; ifNumberOID; simVersionOID].

Lemma monitorSystemMetrics_iter_static env l k :
  k ∈ sysUpTimeOID :: staticOIDs ->
  preserves (fun w => oidMap w !! k) (monitorSystemMetrics_iter env l).
Proof.
  unfold staticOIDs. intros Hk.
  repeat (apply elem_of_cons in Hk as [->|Hk]); [..|by apply elem_of_nil in Hk];
    frame_key.
Qed.

(** X3. A fast tick is out of reach of the slow cycle's data: it leaves
    every interface (counters, baselines, statuses), the start time, the
    two counter vectors of errors and discards, [sysUpTime] and the four
    static entries of the store exactly as they were. *)
Theorem fast_tick_frame env st :
  interfaces (world (fast_tick env st)) = interfaces (world st)
  /\ startTime (world (fast_tick env st)) = startTime (world st)
  /\ simIfInErrorsTotal (reg (world (fast_tick env st)))
     = simIfInErrorsTotal (reg (world st))
  /\ simIfOutDiscardsTotal (reg (world (fast_tick env st)))
     = simIfOutDiscardsTotal (reg (world st))
  /\ (forall k, k ∈ sysUpTimeOID :: staticOIDs ->
        oidMap (world (fast_tick env st)) !! k = oidMap (world st) !! k).
Proof.
  rewrite fast_tick_world.
  split; [apply monitorSystemMetrics_iter_interfaces|].
  split; [apply monitorSystemMetrics_iter_startTime|].
  split; [apply (ltac:(frame_all) :
            preserves (fun w => simIfInErrorsTotal (reg w))
                      (monitorSystemMetrics_iter env (locals st)))|].
  split; [apply (ltac:(frame_all) :
            preserves (fun w => simIfOutDiscardsTotal (reg w))
                      (monitorSystemMetrics_iter env (locals st)))|].
  intros k Hk. apply (monitorSystemMetrics_iter_static env (locals st) k Hk).
Qed.

(** ** The entries of the store are well formed *)

(** The value of an entry has the Go type that goes with its tag. *)
Definition value_has_tag (pdu : SnmpPDU) : Prop :=
  match Type' pdu, Value pdu with
  | (Gauge32 | Counter32 | TimeTicks), VUint32 _ => True
  | Integer, VInt32 _ => True
  | OctetString, VBytes _ => True
  | _, _ => False
  end.

Definition StoreOK (m : gmap string SnmpPDU) : Prop :=
  forall k pdu, m !! k = Some pdu -> Name pdu = k /\ value_has_tag pdu.

Lemma StoreOK_empty : StoreOK ∅.
Proof. intros k pdu H. rewrite lookup_empty in H. discriminate. Qed.

Lemma StoreOK_insert k pdu m :
  Name pdu = k -> value_has_tag pdu -> StoreOK m -> StoreOK (<[ k := pdu ]> m).
Proof.
  intros Hn Ht Hm k' pdu' H. destruct (decide (k = k')) as [<-|Hne].
  - rewrite lookup_insert_eq in H. injection H as <-. auto.
  - rewrite lookup_insert_ne in H by exact Hne. exact (Hm _ _ H).
Qed.

Lemma StoreOK_store k ty v :
  value_has_tag (mkPDU k ty v) -> keeps (fun w => StoreOK (oidMap w)) (store k (mkPDU k ty v)).
Proof. intros Ht w Hw. simpl. apply StoreOK_insert; auto. Qed.

Lemma type_agrees_has_tag name ty v :
  type_agrees ty v = true -> value_has_tag (mkPDU name ty v).
Proof. unfold value_has_tag. destruct ty, v; simpl; try discriminate; auto. Qed.

Lemma StoreOK_updateOidValue oid v :
  keeps (fun w => StoreOK (oidMap w)) (updateOidValue oid v).
Proof.
  intros w Hw. destruct (updateOidValue_cases oid v w) as [H|[[e H]|(pdu & E & Ht & H)]];
    rewrite H; try exact Hw.
  simpl. apply StoreOK_insert; [exact (proj1 (Hw _ _ E))| |exact Hw].
  apply type_agrees_has_tag, Ht.
Qed.

Ltac keeps_store_ok :=
  unfold_to_writes; unfold logPrintf;
  repeat lazymatch goal with
    | |- keeps _ (store _ _) => apply StoreOK_store; exact I
    | |- keeps _ (updateOidValue _ _) => apply StoreOK_updateOidValue
    | |- keeps _ (Intn _) => intros ? H; exact H
    | |- keeps _ (modify _) => intros ? H; exact H
    | |- _ => keeps_step
    end.

Lemma monitorSystemMetrics_iter_StoreOK env l :
  keeps (fun w => StoreOK (oidMap w)) (monitorSystemMetrics_iter env l).
Proof. keeps_store_ok. Qed.

Lemma advanceSysUpTime_StoreOK m m' :
  advanceSysUpTime m = Some m' -> StoreOK m -> StoreOK m'.
Proof.
  unfold advanceSysUpTime. intros H Hm.
  destruct (m !! sysUpTimeOID) as [pdu|] eqn:E; [|injection H as <-; exact Hm].
  destruct (Hm _ _ E) as [Hn Ht].
  destruct (Value pdu) eqn:Ev; try discriminate. injection H as <-.
  apply StoreOK_insert; [exact Hn| |exact Hm].
  unfold value_has_tag in *. rewrite Ev in Ht. cbn [Type' Value].
  destruct (Type' pdu); auto.
Qed.

Lemma initialOidMap_StoreOK n k up temp arp mac tcp :
  StoreOK (initialOidMap n k up temp arp mac tcp).
Proof.
  unfold initialOidMap, octetString.
  repeat (apply StoreOK_insert; [reflexivity|exact I|]). apply StoreOK_empty.
Qed.

(** X4. In every state that a run from the initial state reaches, every
    entry of the store is well formed: its [Name] is the key it is stored
    under, and its value has the Go type of its tag ([uint32] under
    [Gauge32], [Counter32] and [TimeTicks], [int32] under [Integer], bytes
    under [OctetString]). *)
Theorem store_entries_well_formed ie g evs :
  exists st, run evs (init ie g) = Some st
    /\ forall k pdu, oidMap (world st) !! k = Some pdu ->
         Name pdu = k /\ value_has_tag pdu.
Proof.
  destruct (reachable_keeps (fun st => StoreOK (oidMap (world st))) ie g) with (evs := evs)
    as (st & Hrun & _ & H).
  - rewrite init_oidMap. apply initialOidMap_StoreOK.
  - intros env st _ H. rewrite fast_tick_world.
    apply monitorSystemMetrics_iter_StoreOK, H.
  - intros now st st' _ H E. apply slow_tick_Some in E as (m & Hm & ->).
    cbn [world oidMap with_oidMap]. exact (advanceSysUpTime_StoreOK _ _ Hm H).
  - exists st. split; [exact Hrun|exact H].
Qed.

(** ** No entry leaves the store, no predefined entry changes its header *)

(** The fifteen entries that the program starts with. *)
Definition predefinedOIDs : list string :=
  [sysDescrOID; sysUpTimeOID; sysNameOID; ifNumberOID; simVersionOID;
   simGoroutinesOID; simGcCountOID; simMemoryMBOID; simUptimeSecOID; simCpuOID;
   simMemoryUtilOID; simTemperatureOID; simArpOID; simMacOID; simTcpOID].

(** The name and the tag of the entry under a key. *)
Definition header (k : string) (w : World) : option (string * Asn1BER) :=
  (fun pdu => (Name pdu, Type' pdu)) <$> oidMap w !! k.

Lemma updateOidValue_header oid v k : preserves (header k) (updateOidValue oid v).
Proof.
  intros w. destruct (updateOidValue_cases oid v w) as [H|[[e H]|(pdu & E & _ & H)]];
    rewrite H; try reflexivity.
  unfold header. simpl. destruct (decide (oid = k)) as [<-|Hne].
  - rewrite lookup_insert_eq, E. reflexivity.
  - rewrite lookup_insert_ne by exact Hne. reflexivity.
Qed.

Lemma store_header_ne oid pdu k : oid <> k -> preserves (header k) (store oid pdu).
Proof. intros Hne w. unfold header. simpl. rewrite lookup_insert_ne by exact Hne. reflexivity. Qed.

Ltac frame_header :=
  unfold_to_writes; unfold logPrintf;
  repeat lazymatch goal with
    | |- preserves _ (store _ _) => apply store_header_ne; oid_discr
    | |- preserves _ (updateOidValue _ _) => apply updateOidValue_header
    | |- _ => frame_step
    end.

Lemma monitorSystemMetrics_iter_header env l k :
  k ∈ predefinedOIDs -> preserves (header k) (monitorSystemMetrics_iter env l).
Proof.
  unfold predefinedOIDs. intros Hk.
  repeat (apply elem_of_cons in Hk as [->|Hk]); [..|by apply elem_of_nil in Hk];
    frame_header.
Qed.

Lemma advanceSysUpTime_header m' w k :
  advanceSysUpTime (oidMap w) = Some m' -> header k (with_oidMap m' w) = header k w.
Proof.
  unfold advanceSysUpTime, header. intros H. cbn [oidMap with_oidMap].
  destruct (oidMap w !! sysUpTimeOID) as [pdu|] eqn:E; [|injection H as <-; reflexivity].
  destruct (Value pdu); try discriminate. injection H as <-.
  destruct (decide (sysUpTimeOID = k)) as [<-|Hne].
  - rewrite lookup_insert_eq, E. reflexivity.
  - rewrite lookup_insert_ne by exact Hne. reflexivity.
Qed.

Lemma slow_tick_header now st st' k :
  slow_tick now st = Some st' -> header k (world st') = header k (world st).
Proof.
  intros E. apply slow_tick_Some in E as (m & Hm & ->). cbn [world].
  unfold header. cbn [oidMap with_oidMap].
  pose proof (advanceSysUpTime_header m (world st) k Hm) as H.
  unfold header in H. cbn [oidMap with_oidMap] in H. exact H.
Qed.

Lemma StoreGrows_store D k pdu :
  keeps (fun w => D ⊆ dom (oidMap w)) (store k pdu).
Proof.
  intros w Hw. simpl. rewrite dom_insert_L. etrans; [exact Hw|]. apply union_subseteq_r.
Qed.

Lemma StoreGrows_updateOidValue (D : gset string) oid v :
  keeps (fun w => D ⊆ dom (oidMap w)) (updateOidValue oid v).
Proof. intros w Hw. rewrite updateOidValue_dom. exact Hw. Qed.

Lemma monitorSystemMetrics_iter_dom env l (D : gset string) :
  keeps (fun w => D ⊆ dom (oidMap w)) (monitorSystemMetrics_iter env l).
Proof.
  unfold_to_writes; unfold logPrintf;
  repeat lazymatch goal with
    | |- keeps _ (store _ _) => apply StoreGrows_store
    | |- keeps _ (updateOidValue _ _) => apply StoreGrows_updateOidValue
    | |- keeps _ (Intn _) => intros ? H; exact H
    | |- keeps _ (modify _) => intros ? H; exact H
    | |- _ => keeps_step
    end.
Qed.

Lemma advanceSysUpTime_dom m m' : advanceSysUpTime m = Some m' -> dom m' = dom m.
Proof.
  unfold advanceSysUpTime. intros H.
  destruct (m !! sysUpTimeOID) as [pdu|] eqn:E; [|injection H as <-; reflexivity].
  destruct (Value pdu); try discriminate. injection H as <-.
  rewrite dom_insert_L. apply subseteq_union_1_L, singleton_subseteq_l, elem_of_dom. eauto.
Qed.

(** X5. Over any run, from any state: no entry is ever removed from the
    store, and each of the fifteen predefined entries keeps the name and
    the type tag it has; only values change. *)
Theorem store_only_grows evs st st' :
  run evs st = Some st' ->
  dom (oidMap (world st)) ⊆ dom (oidMap (world st'))
  /\ forall k, k ∈ predefinedOIDs -> header k (world st') = header k (world st).
Proof.
  intros Hrun. split.
  - apply (run_keeps (fun s => dom (oidMap (world st)) ⊆ dom (oidMap (world s))))
      with (evs := evs) (st := st); [| |reflexivity|exact Hrun].
    + intros env s H. rewrite fast_tick_world.
      apply (monitorSystemMetrics_iter_dom env (locals s) _ _ H).
    + intros now s s' H E. apply slow_tick_Some in E as (m & Hm & ->).
      cbn [world oidMap with_oidMap]. rewrite (advanceSysUpTime_dom _ _ Hm). exact H.
  - intros k Hk.
    apply (run_keeps (fun s => header k (world s) = header k (world st)))
      with (evs := evs) (st := st); [| |reflexivity|exact Hrun].
    + intros env s H. rewrite fast_tick_world, <- H.
      apply (monitorSystemMetrics_iter_header env (locals s) k Hk).
    + intros now s s' H E. rewrite <- H. exact (slow_tick_header _ _ _ k E).
Qed.

Lemma store_only_grows_witness :
  run sampleRun sampleState = Some sampleAfterRun
  /\ dom (oidMap (world sampleState)) ⊆ dom (oidMap (world sampleAfterRun))
  /\ forall k, k ∈ predefinedOIDs ->
       header k (world sampleAfterRun) = header k (world sampleState).
Proof.
  split; [exact sampleAfterRun_eq|].
  exact (store_only_grows sampleRun sampleState sampleAfterRun sampleAfterRun_eq).
Defined.

(** ** The configuration of the device is fixed *)

Definition ifaceIdentity (x : interfaceData.t) : Z * string * Z * Z :=
  (interfaceData.index x, interfaceData.descr x,
   interfaceData.adminStatus x, interfaceData.operStatus x).

Definition configuredInterfaces : list (Z * string * Z * Z) :=
  [ (1, "GigabitEthernet1/0/1", 1, 1);
    (2, "GigabitEthernet1/0/2", 1, 1);
    (3, "GigabitEthernet1/0/3", 1, 2);
    (4, "GigabitEthernet1/0/4", 2, 2);
    (5, "Ten-GigabitEthernet1/0/1", 1, 1) ].

(** The five interfaces with their names and statuses; the two fans,
    normal or failed; the first power supply, normal or failed, and the
    second, failed. *)
Record Configured (w : World) : Prop := mkConfigured {
  cfg_interfaces : ifaceIdentity <$> interfaces w = configuredInterfaces;
  cfg_fans :
    exists s1 s2,
      fans w = [fanData.mk 1 "FAN1_SLOT1" s1; fanData.mk 2 "FAN2_SLOT1" s2]
      /\ (s1 = statusNormal \/ s1 = statusFailed)
      /\ (s2 = statusNormal \/ s2 = statusFailed);
  cfg_psus :
    exists s,
      psus w = [psuData.mk 1 "PSU1_SLOT1" s; psuData.mk 2 "PSU2_SLOT1" statusFailed]
      /\ (s = statusNormal \/ s = statusFailed)
}.

Lemma init_Configured ie g : Configured (world (init ie g)).
Proof.
  split.
  - rewrite init_interfaces. reflexivity.
  - rewrite init_fans. exists 1, 1. unfold statusNormal. auto.
  - rewrite init_psus. exists 1. unfold statusNormal. auto.
Qed.

Lemma iface_slow_rel_identity l l' :
  Forall2 iface_slow_rel l l' -> ifaceIdentity <$> l' = ifaceIdentity <$> l.
Proof.
  induction 1 as [|a b l l' (Hi & Hd & Ha & Ho & _) _ IH]; [reflexivity|].
  rewrite !fmap_cons, IH. unfold ifaceIdentity. congruence.
Qed.

Lemma fan_rel_mk i d s f' :
  fan_rel (fanData.mk i d s) f' -> s = statusNormal \/ s = statusFailed ->
  exists s', f' = fanData.mk i d s' /\ (s' = statusNormal \/ s' = statusFailed).
Proof.
  intros (Hi & Hd & _ & Hk) Hs. destruct f' as [i' d' s']. cbn in *. subst.
  exists s'. auto.
Qed.

Lemma psu_rel_mk i d s p' :
  psu_rel (psuData.mk i d s) p' -> s = statusNormal \/ s = statusFailed ->
  exists s', p' = psuData.mk i d s' /\ (s' = statusNormal \/ s' = statusFailed)
             /\ (d = pinnedPsu -> s' = s).
Proof.
  intros (Hi & Hd & Hs') Hs. destruct p' as [i' d' s']. cbn in *. subst.
  exists s'. split; [reflexivity|]. split.
  - destruct Hs' as [->|(_ & [[_ ->]|[_ ->]])]; auto.
  - intros Hp. destruct Hs' as [->|(Hn & _)]; [reflexivity|contradiction].
Qed.

Lemma fast_tick_Configured env st :
  Configured (world st) -> Configured (world (fast_tick env st)).
Proof.
  intros [Hi (s1 & s2 & Hf & H1 & H2) (s & Hp & Hs)].
  destruct (fast_tick_health env st) as [Gf Gp]. split.
  - rewrite fast_tick_interfaces. exact Hi.
  - rewrite Hf in Gf.
    apply Forall2_cons_inv_l in Gf as (f1 & l1 & R1 & Gf & E1).
    apply Forall2_cons_inv_l in Gf as (f2 & l2 & R2 & Gf & ->).
    apply Forall2_nil_inv_l in Gf as ->.
    destruct (fan_rel_mk _ _ _ _ R1 H1) as (s1' & -> & ?).
    destruct (fan_rel_mk _ _ _ _ R2 H2) as (s2' & -> & ?).
    rewrite E1. exists s1', s2'. auto.
  - rewrite Hp in Gp.
    apply Forall2_cons_inv_l in Gp as (p1 & l1 & R1 & Gp & E1).
    apply Forall2_cons_inv_l in Gp as (p2 & l2 & R2 & Gp & ->).
    apply Forall2_nil_inv_l in Gp as ->.
    destruct (psu_rel_mk _ _ _ _ R1 Hs) as (s1' & -> & ? & _).
    destruct (psu_rel_mk _ _ _ _ R2 (or_intror eq_refl)) as (s2' & -> & _ & Hpin).
    rewrite E1, (Hpin eq_refl). exists s1'. auto.
Qed.

Lemma slow_tick_interfaces_rel now st st' :
  slow_tick now st = Some st' ->
  Forall2 iface_slow_rel (interfaces (world st)) (interfaces (world st')).
Proof.
  intros E. apply slow_tick_Some in E as (m & _ & ->).
  cbn [world interfaces with_oidMap]. apply incrementCounters_loop_interfaces.
Qed.

Lemma slow_tick_Configured now st st' :
  Configured (world st) -> slow_tick now st = Some st' -> Configured (world st').
Proof.
  intros [Hi Hf Hp] E. destruct (slow_tick_health _ _ _ E) as [Ef Ep]. split.
  - rewrite (iface_slow_rel_identity _ _ (slow_tick_interfaces_rel _ _ _ E)). exact Hi.
  - rewrite Ef. exact Hf.
  - rewrite Ep. exact Hp.
Qed.

Lemma reachable_Configured ie g evs :
  exists st, run evs (init ie g) = Some st /\ Inv st /\ Configured (world st).
Proof.
  apply (reachable_keeps (fun st => Configured (world st))).
  - apply init_Configured.
  - intros env st _. apply fast_tick_Configured.
  - intros now st st' _. apply slow_tick_Configured.
Qed.

(** X6. The configuration never changes. In every state that a run from
    the initial state reaches there are the five interfaces of the program
    with their indexes, names, administrative and operational statuses (so
    an interface that is down never comes up), two fans that are normal or
    failed, and two power supplies: the first normal or failed, the second,
    [PSU2_SLOT1], failed. No power supply is ever not-present. *)
Theorem configuration_is_fixed ie g evs :
  exists st, run evs (init ie g) = Some st
    /\ ifaceIdentity <$> interfaces (world st) = configuredInterfaces
    /\ (exists s1 s2,
          fans (world st) = [fanData.mk 1 "FAN1_SLOT1" s1; fanData.mk 2 "FAN2_SLOT1" s2]
          /\ (s1 = statusNormal \/ s1 = statusFailed)
          /\ (s2 = statusNormal \/ s2 = statusFailed))
    /\ (exists s,
          psus (world st)
          = [psuData.mk 1 "PSU1_SLOT1" s; psuData.mk 2 "PSU2_SLOT1" statusFailed]
          /\ (s = statusNormal \/ s = statusFailed)).
Proof.
  destruct (reachable_Configured ie g evs) as (st & Hrun & _ & [Hi Hf Hp]).
  exists st. auto.
Qed.

(** ** The static entries of the store *)

Definition StaticOK (w : World) : Prop :=
  oidMap w !! sysDescrOID
  = Some (octetString sysDescrOID
            "H3C S5120-52P-SI Switch Software Version 5.20, Release 1115P01 (Simulated)")
  /\ oidMap w !! sysNameOID = Some (octetString sysNameOID "H3C-Simulated-Switch-01")
  /\ oidMap w !! simVersionOID = Some (octetString simVersionOID version)
  /\ oidMap w !! ifNumberOID = Some (mkPDU ifNumberOID Integer (VInt32 5)).

Lemma init_StaticOK ie g : StaticOK (world (init ie g)).
Proof.
  unfold StaticOK. rewrite init_oidMap. cbv zeta.
  split; [lookup_initial|]. split; [lookup_initial|]. split; lookup_initial.
Qed.

Lemma fast_tick_StaticOK env st : StaticOK (world st) -> StaticOK (world (fast_tick env st)).
Proof.
  unfold StaticOK. rewrite fast_tick_world.
  rewrite (monitorSystemMetrics_iter_static env (locals st) sysDescrOID),
          (monitorSystemMetrics_iter_static env (locals st) sysNameOID),
          (monitorSystemMetrics_iter_static env (locals st) simVersionOID),
          (monitorSystemMetrics_iter_static env (locals st) ifNumberOID);
    [auto|unfold staticOIDs..].
  - do 3 right. left.
  - do 4 right. left.
  - do 2 right. left.
  - right. left.
Qed.

Lemma slow_tick_lookup_ne now st st' k :
  slow_tick now st = Some st' -> k <> sysUpTimeOID ->
  oidMap (world st') !! k = oidMap (world st) !! k.
Proof.
  intros E Hk. apply slow_tick_Some in E as (m & Hm & ->).
  cbn [world oidMap with_oidMap]. exact (advanceSysUpTime_lookup_ne _ _ k Hm Hk).
Qed.

Lemma slow_tick_StaticOK now st st' :
  StaticOK (world st) -> slow_tick now st = Some st' -> StaticOK (world st').
Proof.
  unfold StaticOK. intros H E.
  rewrite !(slow_tick_lookup_ne _ _ _ _ E) by oid_discr. exact H.
Qed.

(** X7. The four static entries are never written after the
    initialisation: in every reachable state [sysDescr], [sysName] and the
    version hold the strings of the program, and [ifNumber], which is set
    once from [len(interfaces)], still is the number of interfaces. *)
Theorem static_entries_stay ie g evs :
  exists st, run evs (init ie g) = Some st
    /\ oidMap (world st) !! sysDescrOID
       = Some (octetString sysDescrOID
                 "H3C S5120-52P-SI Switch Software Version 5.20, Release 1115P01 (Simulated)")
    /\ oidMap (world st) !! sysNameOID
       = Some (octetString sysNameOID "H3C-Simulated-Switch-01")
    /\ oidMap (world st) !! simVersionOID = Some (octetString simVersionOID version)
    /\ oidMap (world st) !! ifNumberOID
       = Some (mkPDU ifNumberOID Integer
                 (VInt32 (Z.of_nat (length (interfaces (world st)))))).
Proof.
  destruct (reachable_keeps
              (fun st => StaticOK (world st) /\ Configured (world st)) ie g)
    with (evs := evs) as (st & Hrun & _ & (H1 & H2 & H3 & H4) & [Hi _ _]).
  - split; [apply init_StaticOK|apply init_Configured].
  - intros env st _ [H C]. split; [apply fast_tick_StaticOK, H|apply fast_tick_Configured, C].
  - intros now st st' _ [H C] E.
    split; [exact (slow_tick_StaticOK _ _ _ H E)|exact (slow_tick_Configured _ _ _ C E)].
  - exists st. split; [exact Hrun|]. split; [exact H1|]. split; [exact H2|].
    split; [exact H3|].
    apply (f_equal length) in Hi. rewrite length_fmap in Hi. rewrite Hi. exact H4.
Qed.

(** ** The keys of the store *)

(** The keys that a fast tick may add: those of the interfaces that are
    up, of the fans and of the power supplies. *)
Definition new_key (w : World) (k : string) : Prop :=
  (exists iface, iface ∈ interfaces w /\ interfaceData.operStatus iface = 1
                 /\ interface_key iface k)
  \/ (exists fan, fan ∈ fans w /\ fan_key fan k)
  \/ (exists psu, psu ∈ psus w /\ psu_key psu k).

Lemma publishInterface_grows_up env iface :
  grows_by (publishInterface env iface)
           (fun k => interfaceData.operStatus iface = 1 /\ interface_key iface k).
Proof.
  intros w k Hk. destruct (rate_published env iface) eqn:E.
  - destruct (publishInterface_grows env iface w k Hk) as [|H]; [auto|].
    right. split; [exact (rate_published_up _ _ E)|exact H].
  - rewrite (publishInterface_skip _ _ _ E) in Hk. auto.
Qed.

Lemma monitorSystemMetrics_iter_new_keys env l w k :
  k ∈ dom (oidMap (snd (monitorSystemMetrics_iter env l w))) ->
  k ∈ dom (oidMap w) \/ new_key w k.
Proof.
  destruct (monitorSystemMetrics_iter_stages env l w)
    as [lastGC w1 cpu' w2 mem' w3 temp' w4 w5 w6 w7 tables w8 w9 E1 E2 E3 E4 E5 E6 E7 E8 E9].
  intros Hk. unfold new_key.
  pose proof (updateScalars_dom env cpu' mem' temp' tables.1.1 tables.1.2 tables.2 w8) as H9.
  rewrite E9 in H9. cbn [snd] in H9. rewrite H9 in Hk.
  revert Hk. carry oidMap E8. intros Hk.
  pose proof (updatePsus_grows w6 k) as H7. rewrite E7 in H7.
  destruct (H7 Hk) as [Hk6|(psu & Hpsu & Hkey)].
  2:{ right; right; right. exists psu. split; [|exact Hkey]. revert Hpsu.
      carry psus E6. carry psus E5. carry psus E4. carry psus E3. carry psus E2.
      carry psus E1. auto. }
  pose proof (updateFans_grows w5 k) as H6. rewrite E6 in H6.
  destruct (H6 Hk6) as [Hk5|(fan & Hfan & Hkey)].
  2:{ right; right; left. exists fan. split; [|exact Hkey]. revert Hfan.
      carry fans E5. carry fans E4. carry fans E3. carry fans E2. carry fans E1. auto. }
  pose proof (grows_by_forEach (publishInterface env)
                (fun iface k => interfaceData.operStatus iface = 1 /\ interface_key iface k)
                (interfaces w4) (fun x _ => publishInterface_grows_up env x) w4 k) as H5.
  rewrite <- publishInterfaces_eq, E5 in H5.
  destruct (H5 Hk5) as [Hk4|(iface & Hif & Hup & Hkey)].
  2:{ right; left. exists iface. split; [|auto]. revert Hif.
      carry interfaces E4. carry interfaces E3. carry interfaces E2.
      carry interfaces E1. auto. }
  left. revert Hk4.
  carry oidMap E4. carry oidMap E3. carry oidMap E2. carry oidMap E1. auto.
Qed.

(** The thirty-one keys that the store may ever hold. *)
Definition expectedOIDs : list string :=
  predefinedOIDs ++
  [ ifInRateOID 1; ifOutRateOID 1; ifInErrorsOID 1; ifOutDiscardsOID 1;
    ifInRateOID 2; ifOutRateOID 2; ifInErrorsOID 2; ifOutDiscardsOID 2;
    ifInRateOID 5; ifOutRateOID 5; ifInErrorsOID 5; ifOutDiscardsOID 5;
    fanStatusOID 1; fanStatusOID 2; psuStatusOID 1; psuStatusOID 2 ].

Ltac expected_at n := apply list_elem_of_lookup; exists n; reflexivity.

Lemma Configured_new_key w k : Configured w -> new_key w k -> k ∈ expectedOIDs.
Proof.
  intros [Hi (s1 & s2 & Hf & _) (s & Hp & _)] [(iface & Hin & Hup & Hk)|[(fan & Hin & Hk)|(psu & Hin & Hk)]].
  - apply (list_elem_of_fmap_2 ifaceIdentity) in Hin. rewrite Hi in Hin.
    unfold configuredInterfaces, ifaceIdentity in Hin.
    repeat (apply elem_of_cons in Hin as [Hin|Hin]); [..|by apply elem_of_nil in Hin];
      injection Hin as Hidx _ _ Hop; try (rewrite Hup in Hop; discriminate);
      unfold interface_key in Hk; rewrite Hidx in Hk;
      destruct Hk as [->|[->|[->| ->]]].
    + expected_at 15%nat.
    + expected_at 16%nat.
    + expected_at 17%nat.
    + expected_at 18%nat.
    + expected_at 19%nat.
    + expected_at 20%nat.
    + expected_at 21%nat.
    + expected_at 22%nat.
    + expected_at 23%nat.
    + expected_at 24%nat.
    + expected_at 25%nat.
    + expected_at 26%nat.
  - rewrite Hf in Hin. unfold fan_key in Hk.
    repeat (apply elem_of_cons in Hin as [->|Hin]); [..|by apply elem_of_nil in Hin];
      rewrite Hk; cbn [fanData.index].
    + expected_at 27%nat.
    + expected_at 28%nat.
  - rewrite Hp in Hin. unfold psu_key in Hk.
    repeat (apply elem_of_cons in Hin as [->|Hin]); [..|by apply elem_of_nil in Hin];
      rewrite Hk; cbn [psuData.index].
    + expected_at 29%nat.
    + expected_at 30%nat.
Qed.

Lemma initialOidMap_keys n i up temp arp mac tcp k :
  k ∈ dom (initialOidMap n i up temp arp mac tcp) -> k ∈ expectedOIDs.
Proof.
  unfold initialOidMap. rewrite !dom_insert_L, dom_empty_L.
  rewrite !elem_of_union, !elem_of_singleton, elem_of_empty.
  intros H.
  destruct H as [->|H]; [expected_at 0%nat|].
  destruct H as [->|H]; [expected_at 1%nat|].
  destruct H as [->|H]; [expected_at 2%nat|].
  destruct H as [->|H]; [expected_at 3%nat|].
  destruct H as [->|H]; [expected_at 4%nat|].
  destruct H as [->|H]; [expected_at 5%nat|].
  destruct H as [->|H]; [expected_at 6%nat|].
  destruct H as [->|H]; [expected_at 7%nat|].
  destruct H as [->|H]; [expected_at 8%nat|].
  destruct H as [->|H]; [expected_at 9%nat|].
  destruct H as [->|H]; [expected_at 10%nat|].
  destruct H as [->|H]; [expected_at 11%nat|].
  destruct H as [->|H]; [expected_at 12%nat|].
  destruct H as [->|H]; [expected_at 13%nat|].
  destruct H as [->|H]; [expected_at 14%nat|].
  contradiction.
Qed.

(** X8. The store never holds a key outside a fixed set of thirty-one: the
    fifteen predefined scalars, the four entries (two rates, errors,
    discards) of each of the interfaces 1, 2 and 5, which are up, and the
    status entries of the two fans and of the two power supplies. The
    interfaces 3 and 4, which are down, never get an entry. *)
Theorem store_keys_are_expected ie g evs :
  exists st, run evs (init ie g) = Some st
    /\ forall k, k ∈ dom (oidMap (world st)) -> k ∈ expectedOIDs.
Proof.
  destruct (reachable_keeps
              (fun st => Configured (world st)
                         /\ forall k, k ∈ dom (oidMap (world st)) -> k ∈ expectedOIDs) ie g)
    with (evs := evs) as (st & Hrun & _ & _ & H).
  - split; [apply init_Configured|]. rewrite init_oidMap. cbv zeta.
    intros k. apply initialOidMap_keys.
  - intros env st _ [C H]. split; [apply fast_tick_Configured, C|].
    intros k. rewrite fast_tick_world. intros Hk.
    destruct (monitorSystemMetrics_iter_new_keys _ _ _ _ Hk) as [Hk0|Hn].
    + exact (H k Hk0).
    + exact (Configured_new_key _ _ C Hn).
  - intros now st st' _ [C H] E. split; [exact (slow_tick_Configured _ _ _ C E)|].
    intros k Hk. apply H.
    apply slow_tick_Some in E as (m & Hm & ->). cbn [world oidMap with_oidMap] in Hk.
    rewrite (advanceSysUpTime_dom _ _ Hm) in Hk. exact Hk.
  - exists st. split; [exact Hrun|exact H].
Qed.

(** ** The scalar updates always fit their entries *)

(** The ten scalars that a fast tick updates, with the tags that the
    initialisation gives them. *)
Definition scalarTags : list (string * Asn1BER) :=
  [ (simGoroutinesOID, Gauge32); (simGcCountOID, Counter32); (simMemoryMBOID, Gauge32);
    (simUptimeSecOID, TimeTicks); (simCpuOID, Gauge32); (simMemoryUtilOID, Gauge32);
    (simTemperatureOID, Integer); (simArpOID, Gauge32); (simMacOID, Gauge32);
    (simTcpOID, Gauge32) ].

Definition tag_of (k : string) (w : World) : option Asn1BER := Type' <$> oidMap w !! k.

Definition TagsOK (w : World) : Prop :=
  forall k ty, (k, ty) ∈ scalarTags -> tag_of k w = Some ty.

Lemma header_tag_of k w w' : header k w' = header k w -> tag_of k w' = tag_of k w.
Proof.
  unfold header, tag_of. intros H.
  destruct (oidMap w' !! k), (oidMap w !! k); simpl in *; congruence.
Qed.

Lemma updateOidValue_tag_of oid v k : preserves (tag_of k) (updateOidValue oid v).
Proof. intros w. apply header_tag_of, updateOidValue_header. Qed.

Lemma TagsOK_updateOidValue oid v : keeps TagsOK (updateOidValue oid v).
Proof. intros w H k ty Hk. rewrite updateOidValue_tag_of. exact (H k ty Hk). Qed.

Lemma TagsOK_store oid pdu :
  Forall (fun kt => oid <> kt.1) scalarTags -> keeps TagsOK (store oid pdu).
Proof.
  intros Hne w H k ty Hk. rewrite <- (H k ty Hk).
  rewrite Forall_forall in Hne. specialize (Hne _ Hk).
  unfold tag_of. simpl. rewrite lookup_insert_ne by exact Hne. reflexivity.
Qed.

Ltac not_a_scalar :=
  unfold scalarTags; repeat (constructor; [cbn [fst]; oid_discr|]); constructor.

Ltac keeps_tags :=
  unfold_to_writes; unfold logPrintf;
  repeat lazymatch goal with
    | |- keeps _ (store _ _) => apply TagsOK_store; not_a_scalar
    | |- keeps _ (updateOidValue _ _) => apply TagsOK_updateOidValue
    | |- keeps _ (Intn _) => intros ? H; exact H
    | |- keeps _ (modify _) => intros ? H; exact H
    | |- _ => keeps_step
    end.

Lemma updateAppMetrics_TagsOK env lastGC : keeps TagsOK (updateAppMetrics env lastGC).
Proof. keeps_tags. Qed.
Lemma updateCPU_TagsOK cpu : keeps TagsOK (updateCPU cpu).
Proof. keeps_tags. Qed.
Lemma updateMemoryUtil_TagsOK env : keeps TagsOK (updateMemoryUtil env).
Proof. keeps_tags. Qed.
Lemma updateTemp_TagsOK temp : keeps TagsOK (updateTemp temp).
Proof. keeps_tags. Qed.
Lemma publishInterfaces_TagsOK env : keeps TagsOK (publishInterfaces env).
Proof. keeps_tags. Qed.
Lemma updateFans_TagsOK : keeps TagsOK updateFans.
Proof. keeps_tags. Qed.
Lemma updatePsus_TagsOK : keeps TagsOK updatePsus.
Proof. keeps_tags. Qed.
Lemma updateTables_TagsOK : keeps TagsOK updateTables.
Proof. keeps_tags. Qed.
Lemma updateScalars_TagsOK env cpu mem temp arp mac tcp :
  keeps TagsOK (updateScalars env cpu mem temp arp mac tcp).
Proof. keeps_tags. Qed.

Lemma keeps_eq {A} (P : World -> Prop) (c : M A) w a w' :
  c w = (a, w') -> keeps P c -> P w -> P w'.
Proof. intros E H Hw. specialize (H w Hw). rewrite E in H. exact H. Qed.

(** The tags before the scalar updates of a fast tick, and after it. *)
Lemma stages_TagsOK env l w lastGC w1 cpu w2 mem w3 temp w4 w5 w6 w7 tables w8 :
  TagsOK w ->
  updateAppMetrics env (lastGCCount l) w = (lastGC, w1) ->
  updateCPU (simulatedDeviceCPU l) w1 = (cpu, w2) ->
  updateMemoryUtil env w2 = (mem, w3) ->
  updateTemp (simulatedDeviceTemp l) w3 = (temp, w4) ->
  publishInterfaces env w4 = (tt, w5) ->
  updateFans w5 = (tt, w6) ->
  updatePsus w6 = (tt, w7) ->
  updateTables w7 = (tables, w8) ->
  TagsOK w8.
Proof.
  intros H E1 E2 E3 E4 E5 E6 E7 E8.
  apply (keeps_eq _ _ _ _ _ E8 updateTables_TagsOK).
  apply (keeps_eq _ _ _ _ _ E7 updatePsus_TagsOK).
  apply (keeps_eq _ _ _ _ _ E6 updateFans_TagsOK).
  apply (keeps_eq _ _ _ _ _ E5 (publishInterfaces_TagsOK env)).
  apply (keeps_eq _ _ _ _ _ E4 (updateTemp_TagsOK _)).
  apply (keeps_eq _ _ _ _ _ E3 (updateMemoryUtil_TagsOK env)).
  apply (keeps_eq _ _ _ _ _ E2 (updateCPU_TagsOK _)).
  apply (keeps_eq _ _ _ _ _ E1 (updateAppMetrics_TagsOK env _)).
  exact H.
Qed.

Lemma monitorSystemMetrics_iter_TagsOK env l : keeps TagsOK (monitorSystemMetrics_iter env l).
Proof.
  intros w H.
  destruct (monitorSystemMetrics_iter_stages env l w)
    as [lastGC w1 cpu w2 mem w3 temp w4 w5 w6 w7 tables w8 w9 E1 E2 E3 E4 E5 E6 E7 E8 E9].
  apply (keeps_eq _ _ _ _ _ E9 (updateScalars_TagsOK _ _ _ _ _ _ _)).
  apply (keeps_eq _ _ _ _ _ E8 updateTables_TagsOK).
  apply (keeps_eq _ _ _ _ _ E7 updatePsus_TagsOK).
  apply (keeps_eq _ _ _ _ _ E6 updateFans_TagsOK).
  apply (keeps_eq _ _ _ _ _ E5 (publishInterfaces_TagsOK env)).
  apply (keeps_eq _ _ _ _ _ E4 (updateTemp_TagsOK _)).
  apply (keeps_eq _ _ _ _ _ E3 (updateMemoryUtil_TagsOK env)).
  apply (keeps_eq _ _ _ _ _ E2 (updateCPU_TagsOK _)).
  apply (keeps_eq _ _ _ _ _ E1 (updateAppMetrics_TagsOK env _)).
  exact H.
Qed.

Lemma init_TagsOK ie g : TagsOK (world (init ie g)).
Proof.
  intros k ty Hk. unfold tag_of. rewrite init_oidMap. cbv zeta.
  unfold scalarTags in Hk.
  repeat (apply elem_of_cons in Hk as [Hk|Hk]); [..|by apply elem_of_nil in Hk];
    injection Hk as -> ->; unfold initialOidMap;
    repeat (rewrite lookup_insert_ne by oid_discr);
    rewrite lookup_insert_eq; reflexivity.
Qed.

Lemma slow_tick_TagsOK now st st' :
  TagsOK (world st) -> slow_tick now st = Some st' -> TagsOK (world st').
Proof.
  intros H E k ty Hk. rewrite <- (H k ty Hk).
  apply header_tag_of. exact (slow_tick_header _ _ _ k E).
Qed.

(** ** Nothing but health events in the log *)


(** The tags are in place and the log is in [Q]. *)
Definition Tagged (Q : list LogEntry -> Prop) (w : World) : Prop :=
  TagsOK w /\ Q (logs w).




(** An update that fits the tag of its entry writes nothing to the log. *)
Lemma Tagged_updateOidValue Q oid v ty :
  (oid, ty) ∈ scalarTags -> type_agrees ty v = true -> keeps (Tagged Q) (updateOidValue oid v).
Proof.
  intros Hk Ht w [H L]. split; [exact (TagsOK_updateOidValue oid v w H)|].
  pose proof (H oid ty Hk) as Htag. unfold tag_of in Htag.
  destruct (oidMap w !! oid) as [pdu|] eqn:E; [|discriminate].
  injection Htag as Htag. rewrite <- Htag in Ht.
  rewrite (updateOidValue_agrees _ _ _ _ E Ht). exact L.
Qed.

Ltac scalar_at n := apply list_elem_of_lookup; exists n; reflexivity.

Lemma updateScalars_Tagged Q env cpu mem temp arp mac tcp :
  keeps (Tagged Q) (updateScalars env cpu mem temp arp mac tcp).
Proof.
  unfold updateScalars, mbind, M_bind.
  apply keeps_bind; [apply (Tagged_updateOidValue _ _ _ Gauge32); [scalar_at 0%nat|reflexivity]|intros _].
  apply keeps_bind; [apply (Tagged_updateOidValue _ _ _ Counter32); [scalar_at 1%nat|reflexivity]|intros _].
  apply keeps_bind; [apply (Tagged_updateOidValue _ _ _ Gauge32); [scalar_at 2%nat|reflexivity]|intros _].
  apply keeps_bind; [apply keeps_gets|intros t0].
  apply keeps_bind; [apply (Tagged_updateOidValue _ _ _ TimeTicks); [scalar_at 3%nat|reflexivity]|intros _].
  apply keeps_bind; [apply (Tagged_updateOidValue _ _ _ Gauge32); [scalar_at 4%nat|reflexivity]|intros _].
  apply keeps_bind; [apply (Tagged_updateOidValue _ _ _ Gauge32); [scalar_at 5%nat|reflexivity]|intros _].
  apply keeps_bind; [apply (Tagged_updateOidValue _ _ _ Integer); [scalar_at 6%nat|reflexivity]|intros _].
  apply keeps_bind; [apply (Tagged_updateOidValue _ _ _ Gauge32); [scalar_at 7%nat|reflexivity]|intros _].
  apply keeps_bind; [apply (Tagged_updateOidValue _ _ _ Gauge32); [scalar_at 8%nat|reflexivity]|intros _].
  apply (Tagged_updateOidValue _ _ _ Gauge32); [scalar_at 9%nat|reflexivity].
Qed.

Lemma updateScalars_logs env cpu mem temp arp mac tcp w :
  TagsOK w -> logs (snd (updateScalars env cpu mem temp arp mac tcp w)) = logs w.
Proof.
  intros H. symmetry.
  exact (proj2 (updateScalars_Tagged (eq (logs w)) env cpu mem temp arp mac tcp w
                  (conj H eq_refl))).
Qed.


Lemma slow_tick_logs now st st' :
  slow_tick now st = Some st' -> logs (world st') = logs (world st).
Proof.
  intros E. apply slow_tick_Some in E as (m & _ & ->). cbn [world logs with_oidMap].
  apply (ltac:(frame_all) : preserves logs (incrementCounters_loop now)).
Qed.


(** ** The scalars that a fast tick publishes *)

(** The ten calls of [updateOidValue] of one fast tick, in their order;
    [t0] is the start time. *)
Definition scalarUpdates (env : TickEnv) (t0 : Z) (cpu mem temp : spec_float)
    (arp mac tcp : Z) : list (string * GoValue) :=
  [ (simGoroutinesOID, VUint32 (u32 (NumGoroutine2 env)));
    (simGcCountOID, VUint32 (memStats_NumGC env));
    (simMemoryMBOID, VUint32 (u32 (memStats_Alloc env / 1024 / 1024)));
    (simUptimeSecOID,
     VUint32 (F64.to_uint32 (F64.mul (time.Seconds (time.Sub (timeNow env) t0))
                                     (F64.of_Z 100))));
    (simCpuOID, VUint32 (F64.to_uint32 cpu));
    (simMemoryUtilOID, VUint32 (F64.to_uint32 mem));
    (simTemperatureOID, VInt32 (F64.to_int32 temp));
    (simArpOID, VUint32 arp);
    (simMacOID, VUint32 mac);
    (simTcpOID, VUint32 tcp) ].

Definition applyUpdate (kv : string * GoValue) : M unit := updateOidValue kv.1 kv.2.

Lemma updateScalars_forEach env cpu mem temp arp mac tcp w :
  snd (updateScalars env cpu mem temp arp mac tcp w)
  = snd (forEach applyUpdate (scalarUpdates env (startTime w) cpu mem temp arp mac tcp) w).
Proof.
  unfold updateScalars, scalarUpdates, applyUpdate. cbn [forEach fst snd].
  unfold mbind, M_bind, bind, gets.
  destruct (updateOidValue simGoroutinesOID _ w) as [[] w1] eqn:E1.
  destruct (updateOidValue simGcCountOID _ w1) as [[] w2] eqn:E2.
  destruct (updateOidValue simMemoryMBOID _ w2) as [[] w3] eqn:E3.
  assert (Ht : startTime w3 = startTime w).
  { carry startTime E3. carry startTime E2. carry startTime E1. reflexivity. }
  rewrite Ht.
  destruct (updateOidValue simUptimeSecOID _ w3) as [[] w4].
  destruct (updateOidValue simCpuOID _ w4) as [[] w5].
  destruct (updateOidValue simMemoryUtilOID _ w5) as [[] w6].
  destruct (updateOidValue simTemperatureOID _ w6) as [[] w7].
  destruct (updateOidValue simArpOID _ w7) as [[] w8].
  destruct (updateOidValue simMacOID _ w8) as [[] w9].
  destruct (updateOidValue simTcpOID _ w9) as [[] w10].
  reflexivity.
Qed.

Lemma keeps_forEach_in {A} (P : World -> Prop) (body : A -> M unit) l :
  (forall x, x ∈ l -> keeps P (body x)) -> keeps P (forEach body l).
Proof.
  induction l as [|x l IH]; intros Hb; simpl.
  - apply keeps_ret.
  - apply keeps_bind; [apply Hb; left|]. intros _.
    apply IH. intros y Hy. apply Hb. right. exact Hy.
Qed.

(** As [forEach_last_write], for a write that needs an invariant. *)
Lemma forEach_last_write_inv {A T} (I : World -> Prop) (get : World -> T)
    (body : A -> M unit) pre x suf v w :
  (forall y, y ∈ pre -> keeps I (body y)) ->
  (forall w, I w -> get (snd (body x w)) = v) ->
  (forall y, y ∈ suf -> preserves get (body y)) ->
  I w -> get (snd (forEach body (pre ++ x :: suf) w)) = v.
Proof.
  intros Hpre Hx Hsuf Hw. rewrite forEach_app. simpl.
  unfold mbind, M_bind, bind.
  pose proof (Hx _ (keeps_forEach_in I body pre Hpre w Hw)) as H.
  destruct (body x (snd (forEach body pre w))) as [[] w1]. simpl in H.
  rewrite (preserves_forEach_in get body suf Hsuf w1). exact H.
Qed.

Lemma updateOidValue_value oid v w ty :
  tag_of oid w = Some ty -> type_agrees ty v = true ->
  Value <$> oidMap (snd (updateOidValue oid v w)) !! oid = Some v.
Proof.
  unfold tag_of. intros Htag Ht.
  destruct (oidMap w !! oid) as [pdu|] eqn:E; [|discriminate].
  injection Htag as Htag. rewrite <- Htag in Ht.
  rewrite (updateOidValue_lookup_eq _ _ _ _ E Ht). reflexivity.
Qed.

(** A sequence of updates under distinct keys leaves under each key the
    value of its update, when that value fits the tag of the entry. *)
Lemma forEach_applyUpdate_value l k v ty w :
  NoDup l.*1 -> (k, v) ∈ l -> tag_of k w = Some ty -> type_agrees ty v = true ->
  Value <$> oidMap (snd (forEach applyUpdate l w)) !! k = Some v.
Proof.
  intros Hnd Hin Htag Ht.
  apply list_elem_of_split in Hin as (pre & suf & ->).
  apply (forEach_last_write_inv (fun w => tag_of k w = Some ty)
           (fun w => Value <$> oidMap w !! k) applyUpdate pre (k, v) suf (Some v) w).
  - intros y _ w0 H0. unfold applyUpdate. rewrite updateOidValue_tag_of. exact H0.
  - intros w0 H0. unfold applyUpdate. cbn [fst snd].
    exact (updateOidValue_value k v w0 ty H0 Ht).
  - intros y Hy w0. unfold applyUpdate.
    rewrite (updateOidValue_lookup_ne y.1 y.2 k); [reflexivity|].
    apply (NoDup_split_fmap fst pre (k, v) suf Hnd y Hy).
  - exact Htag.
Qed.

Lemma scalarUpdates_NoDup env t0 cpu mem temp arp mac tcp :
  NoDup (scalarUpdates env t0 cpu mem temp arp mac tcp).*1.
Proof.
  unfold scalarUpdates. cbn [fmap list_fmap fst].
  repeat (apply NoDup_cons; split;
          [intros Hin;
           repeat (apply elem_of_cons in Hin as [Hin|Hin]; [revert Hin; oid_discr|]);
           by apply elem_of_nil in Hin|]).
  apply NoDup_nil_2.
Qed.

(** Each update of [scalarUpdates] fits the tag of [scalarTags]. *)
Lemma scalarUpdates_tags env t0 cpu mem temp arp mac tcp k v :
  (k, v) ∈ scalarUpdates env t0 cpu mem temp arp mac tcp ->
  exists ty, (k, ty) ∈ scalarTags /\ type_agrees ty v = true.
Proof.
  unfold scalarUpdates. intros Hin.
  repeat (apply elem_of_cons in Hin as [Hin|Hin]); [..|by apply elem_of_nil in Hin];
    injection Hin as -> ->.
  - exists Gauge32. split; [scalar_at 0%nat|reflexivity].
  - exists Counter32. split; [scalar_at 1%nat|reflexivity].
  - exists Gauge32. split; [scalar_at 2%nat|reflexivity].
  - exists TimeTicks. split; [scalar_at 3%nat|reflexivity].
  - exists Gauge32. split; [scalar_at 4%nat|reflexivity].
  - exists Gauge32. split; [scalar_at 5%nat|reflexivity].
  - exists Integer. split; [scalar_at 6%nat|reflexivity].
  - exists Gauge32. split; [scalar_at 7%nat|reflexivity].
  - exists Gauge32. split; [scalar_at 8%nat|reflexivity].
  - exists Gauge32. split; [scalar_at 9%nat|reflexivity].
Qed.

Lemma updateScalars_values env cpu mem temp arp mac tcp w k v :
  TagsOK w ->
  (k, v) ∈ scalarUpdates env (startTime w) cpu mem temp arp mac tcp ->
  Value <$> oidMap (snd (updateScalars env cpu mem temp arp mac tcp w)) !! k = Some v.
Proof.
  intros Htags Hin. rewrite updateScalars_forEach.
  destruct (scalarUpdates_tags _ _ _ _ _ _ _ _ _ _ Hin) as (ty & Hty & Hagree).
  apply (forEach_applyUpdate_value _ k v ty w (scalarUpdates_NoDup _ _ _ _ _ _ _ _) Hin
           (Htags k ty Hty) Hagree).
Qed.

Lemma u32_small n : 0 <= n < 2 ^ 32 -> u32 n = n.
Proof. intros H. unfold u32. apply Z.mod_small. exact H. Qed.

(** What a fast tick leaves: the three tables drawn afresh in their ranges,
    in the registry; the runtime metrics of the registry; and the ten scalars
    of the store, each with the value of its update. *)
Lemma monitorSystemMetrics_iter_scalars env l w :
  TagsOK w ->
  let r := monitorSystemMetrics_iter env l w in
  exists arp mac tcp,
    (50 <= arp <= 499 /\ 100 <= mac <= 999 /\ 20 <= tcp <= 299)
    /\ simArpCacheEntries (reg (snd r)) = F64.of_Z arp
    /\ simMacTableEntries (reg (snd r)) = F64.of_Z mac
    /\ simActiveTcpConnections (reg (snd r)) = F64.of_Z tcp
    /\ memoryUsage (reg (snd r)) = F64.of_Z (memStats_Alloc env)
    /\ goroutineCount (reg (snd r)) = F64.of_Z (NumGoroutine1 env)
    /\ uptime (reg (snd r)) = Counter_Inc (uptime (reg w))
    /\ forall k v,
         (k, v) ∈ scalarUpdates env (startTime w) (simulatedDeviceCPU (fst r))
                    (deviceMemoryUtil (memStats_Alloc env))
                    (simulatedDeviceTemp (fst r)) arp mac tcp ->
         Value <$> oidMap (snd r) !! k = Some v.
Proof.
  intros Htags. cbv zeta.
  destruct (monitorSystemMetrics_iter_stages env l w)
    as [lastGC w1 cpu w2 mem w3 temp w4 w5 w6 w7 tables w8 w9 E1 E2 E3 E4 E5 E6 E7 E8 E9].
  cbn [fst snd simulatedDeviceCPU simulatedDeviceTemp].
  pose proof (stages_TagsOK env l w _ _ _ _ _ _ _ _ _ _ _ _ _ Htags E1 E2 E3 E4 E5 E6 E7 E8)
    as Htags8.
  assert (Hmem : mem = deviceMemoryUtil (memStats_Alloc env)).
  { unfold updateMemoryUtil, onReg, modify, mbind, M_bind, bind, ret in E3.
    injection E3 as Em _. symmetry. exact Em. }
  assert (Hst : startTime w8 = startTime w).
  { carry startTime E8. carry startTime E7. carry startTime E6. carry startTime E5.
    carry startTime E4. carry startTime E3. carry startTime E2. carry startTime E1.
    reflexivity. }
  assert (Hmu : memoryUsage (reg w9) = F64.of_Z (memStats_Alloc env)
                /\ goroutineCount (reg w9) = F64.of_Z (NumGoroutine1 env)
                /\ uptime (reg w9) = Counter_Inc (uptime (reg w))).
  { set (get := fun w => (memoryUsage (reg w), goroutineCount (reg w), uptime (reg w))).
    assert (G : get w9 = (F64.of_Z (memStats_Alloc env), F64.of_Z (NumGoroutine1 env),
                          Counter_Inc (uptime (reg w)))).
    { unfold get.
      carry (fun w => (memoryUsage (reg w), goroutineCount (reg w), uptime (reg w))) E9.
      carry (fun w => (memoryUsage (reg w), goroutineCount (reg w), uptime (reg w))) E8.
      carry (fun w => (memoryUsage (reg w), goroutineCount (reg w), uptime (reg w))) E7.
      carry (fun w => (memoryUsage (reg w), goroutineCount (reg w), uptime (reg w))) E6.
      carry (fun w => (memoryUsage (reg w), goroutineCount (reg w), uptime (reg w))) E5.
      carry (fun w => (memoryUsage (reg w), goroutineCount (reg w), uptime (reg w))) E4.
      carry (fun w => (memoryUsage (reg w), goroutineCount (reg w), uptime (reg w))) E3.
      carry (fun w => (memoryUsage (reg w), goroutineCount (reg w), uptime (reg w))) E2.
      unfold updateAppMetrics, mbind, M_bind, bind, onReg, modify, ret in E1.
      destruct (lastGCCount l <? memStats_NumGC env); injection E1 as _ <-; reflexivity. }
    unfold get in G. injection G as G1 G2 G3. auto. }
  unfold updateTables, Intn, onReg, modify, mbind, M_bind, bind, ret in E8.
  injection E8 as Et E8.
  set (ra := draw 450 (rng w7)) in *.
  set (rm := draw 900 (tail (rng w7))) in *.
  set (rt := draw 280 (tail (tail (rng w7)))) in *.
  assert (Hra : 0 <= ra < 450) by (apply draw_range; lia).
  assert (Hrm : 0 <= rm < 900) by (apply draw_range; lia).
  assert (Hrt : 0 <= rt < 280) by (apply draw_range; lia).
  assert (Ha : u32 (ra + 50) = ra + 50) by (apply u32_small; lia).
  assert (Hm : u32 (rm + 100) = rm + 100) by (apply u32_small; lia).
  assert (Hc : u32 (rt + 20) = rt + 20) by (apply u32_small; lia).
  exists (ra + 50), (rm + 100), (rt + 20).
  split; [lia|].
  assert (Hreg : reg w9 = reg w8).
  { carry reg E9. reflexivity. }
  rewrite Hreg.
  split; [rewrite <- E8; cbn; rewrite Ha; reflexivity|].
  split; [rewrite <- E8; cbn; rewrite Hm; reflexivity|].
  split; [rewrite <- E8; cbn; rewrite Hc; reflexivity|].
  rewrite <- Hreg.
  split; [exact (proj1 Hmu)|]. split; [exact (proj1 (proj2 Hmu))|].
  split; [exact (proj2 (proj2 Hmu))|].
  intros k v Hin. rewrite <- Hst, <- Hmem, <- Ha, <- Hm, <- Hc in Hin.
  pose proof (updateScalars_values env cpu mem temp _ _ _ w8 k v Htags8 Hin) as G.
  rewrite <- Et in E9. cbn [fst snd] in E9. rewrite E9 in G. exact G.
Qed.

(** ** The states of a run from the initial state *)

Record Good (ie : InitEnv) (st : State) : Prop := mkGood {
  good_inv : Inv st;
  good_tags : TagsOK (world st);
  good_cfg : Configured (world st);
  good_start : startTime (world st) = initStartTime ie
}.

Lemma init_Good ie g : Good ie (init ie g).
Proof.
  split; [apply init_Inv|apply init_TagsOK|apply init_Configured|reflexivity].
Qed.

Lemma fast_tick_Good ie env st : Good ie st -> Good ie (fast_tick env st).
Proof.
  intros [HI HT HC HS]. split.
  - apply fast_tick_Inv, HI.
  - rewrite fast_tick_world. apply monitorSystemMetrics_iter_TagsOK, HT.
  - apply fast_tick_Configured, HC.
  - rewrite fast_tick_world, <- HS. apply monitorSystemMetrics_iter_startTime.
Qed.

Lemma slow_tick_startTime now st st' :
  slow_tick now st = Some st' -> startTime (world st') = startTime (world st).
Proof.
  intros E. apply slow_tick_Some in E as (m & _ & ->). cbn [world startTime with_oidMap].
  apply (ltac:(frame_all) : preserves startTime (incrementCounters_loop now)).
Qed.

Lemma slow_tick_Good ie now st st' :
  Good ie st -> slow_tick now st = Some st' -> Good ie st'.
Proof.
  intros [HI HT HC HS] E. split.
  - exact (slow_tick_Inv _ _ _ HI E).
  - exact (slow_tick_TagsOK _ _ _ HT E).
  - exact (slow_tick_Configured _ _ _ HC E).
  - rewrite (slow_tick_startTime _ _ _ E). exact HS.
Qed.

Lemma run_Good ie evs st :
  Good ie st -> exists st', run evs st = Some st' /\ Good ie st'.
Proof.
  intros HG. destruct (run_Inv evs st (good_inv _ _ HG)) as (st' & Hrun & _).
  exists st'. split; [exact Hrun|].
  apply (run_keeps (Good ie)) with (evs := evs) (st := st); auto.
  - intros env s. apply fast_tick_Good.
  - intros now s s'. apply slow_tick_Good.
Qed.

(** What a fast tick establishes and a slow tick keeps holds at the end of
    every run from the initial state that contains a fast tick. *)
Lemma after_fast_tick (Q : State -> Prop) ie g :
  (forall env st, Good ie st -> Q (fast_tick env st)) ->
  (forall now st st', Q st -> slow_tick now st = Some st' -> Q st') ->
  forall evs1 env evs2,
    exists st, run (evs1 ++ FastTick env :: evs2) (init ie g) = Some st
               /\ Good ie st /\ Q st.
Proof.
  intros Hf Hs evs1 env evs2.
  destruct (run_Good ie evs1 _ (init_Good ie g)) as (st1 & H1 & G1).
  rewrite run_app, H1. simpl.
  destruct (run_Good ie evs2 _ (fast_tick_Good ie env st1 G1)) as (st & H2 & G2).
  exists st. split; [exact H2|]. split; [exact G2|].
  assert (G : Good ie st /\ Q st); [|exact (proj2 G)].
  apply (run_keeps (fun s => Good ie s /\ Q s)) with (evs := evs2) (st := fast_tick env st1).
  - intros env' s [Gs _]. split; [apply fast_tick_Good, Gs|apply Hf, Gs].
  - intros now s s' [Gs Qs] E. split; [exact (slow_tick_Good _ _ _ _ Gs E)|exact (Hs _ _ _ Qs E)].
  - split; [apply fast_tick_Good, G1|apply Hf, G1].
  - exact H2.
Qed.

Lemma slow_tick_locals now st st' : slow_tick now st = Some st' -> locals st' = locals st.
Proof. intros E. apply slow_tick_Some in E as (m & _ & ->). reflexivity. Qed.

Lemma slow_tick_reg {T} (f : Registry -> T) now st st' :
  preserves (fun w => f (reg w)) (incrementCounters_loop now) ->
  slow_tick now st = Some st' -> f (reg (world st')) = f (reg (world st)).
Proof.
  intros Hf E. apply slow_tick_Some in E as (m & _ & ->). cbn [world reg with_oidMap].
  apply Hf.
Qed.

(** The entry of the store under a key, from its tag and its value. *)
Lemma entry_of w k ty v :
  tag_of k w = Some ty -> Value <$> oidMap w !! k = Some v ->
  exists pdu, oidMap w !! k = Some pdu /\ Type' pdu = ty /\ Value pdu = v.
Proof.
  unfold tag_of. destruct (oidMap w !! k) as [pdu|]; [|discriminate].
  simpl. intros H1 H2. exists pdu. split; [reflexivity|]. split; congruence.
Qed.

(** ** The temperature and the memory utilisation in the two read models *)

Definition GaugesPublished (st : State) : Prop :=
  Value <$> oidMap (world st) !! simTemperatureOID
  = Some (VInt32 (F64.to_int32 (simulatedDeviceTemp (locals st))))
  /\ simDeviceTemperatureCelsius (reg (world st)) = simulatedDeviceTemp (locals st)
  /\ Value <$> oidMap (world st) !! simMemoryUtilOID
     = Some (VUint32 (F64.to_uint32 (simMemoryUtilPercent (reg (world st))))).

Lemma fast_tick_GaugesPublished ie env st :
  Good ie st -> GaugesPublished (fast_tick env st).
Proof.
  intros [_ HT _ _]. unfold GaugesPublished. rewrite fast_tick_eq. cbn [world locals].
  destruct (monitorSystemMetrics_iter_gauges env (locals st) (world st))
    as (_ & _ & _ & Gt & Gm).
  destruct (monitorSystemMetrics_iter_scalars env (locals st) (world st) HT)
    as (arp & mac & tcp & _ & _ & _ & _ & _ & _ & _ & Hv).
  split; [apply Hv; scalar_at 6%nat|]. split; [exact Gt|].
  rewrite Gm. apply Hv. scalar_at 5%nat.
Qed.

Lemma slow_tick_GaugesPublished now st st' :
  GaugesPublished st -> slow_tick now st = Some st' -> GaugesPublished st'.
Proof.
  unfold GaugesPublished. intros H E.
  rewrite (slow_tick_locals _ _ _ E).
  rewrite !(slow_tick_lookup_ne _ _ _ _ E) by oid_discr.
  rewrite (slow_tick_reg simDeviceTemperatureCelsius _ _ _ ltac:(frame_all) E).
  rewrite (slow_tick_reg simMemoryUtilPercent _ _ _ ltac:(frame_all) E).
  exact H.
Qed.

(** X10. Once a fast tick has run, the store and the registry agree on the
    temperature and on the memory utilisation, whatever ticks follow: the
    temperature entry is an [Integer] holding the [int32] [n], with
    [20 <= n <= 75], and the temperature gauge is [float64(n)], the
    conversion having lost nothing; the memory-utilisation entry is a
    [Gauge32] holding the gauge converted to [uint32]. *)
Theorem temperature_and_memory_entries_match_gauges ie g evs1 env evs2 :
  exists st ptemp n pmem,
    run (evs1 ++ FastTick env :: evs2) (init ie g) = Some st
    /\ oidMap (world st) !! simTemperatureOID = Some ptemp
    /\ Type' ptemp = Integer /\ Value ptemp = VInt32 n
    /\ 20 <= n <= 75
    /\ simDeviceTemperatureCelsius (reg (world st)) = F64.of_Z n
    /\ oidMap (world st) !! simMemoryUtilOID = Some pmem
    /\ Type' pmem = Gauge32
    /\ Value pmem = VUint32 (F64.to_uint32 (simMemoryUtilPercent (reg (world st)))).
Proof.
  destruct (after_fast_tick GaugesPublished ie g (fast_tick_GaugesPublished ie)
              slow_tick_GaugesPublished evs1 env evs2)
    as (st & Hrun & [[_ (n & Hn & Htemp) _ _] HT _ _] & (Ht & Hg & Hm)).
  destruct (int_check_spec 20 56 n int_check_temp ltac:(lia)) as (_ & _ & _ & H32).
  rewrite Htemp, H32 in Ht. rewrite Htemp in Hg.
  destruct (entry_of _ _ _ _ (HT simTemperatureOID Integer ltac:(scalar_at 6%nat)) Ht)
    as (ptemp & E1 & T1 & V1).
  destruct (entry_of _ _ _ _ (HT simMemoryUtilOID Gauge32 ltac:(scalar_at 5%nat)) Hm)
    as (pmem & E2 & T2 & V2).
  exists st, ptemp, n, pmem. auto 10.
Qed.

(** ** The sizes of the three tables *)

Definition TablesPublished (st : State) : Prop :=
  exists arp mac tcp,
    (50 <= arp <= 499 /\ 100 <= mac <= 999 /\ 20 <= tcp <= 299)
    /\ simArpCacheEntries (reg (world st)) = F64.of_Z arp
    /\ simMacTableEntries (reg (world st)) = F64.of_Z mac
    /\ simActiveTcpConnections (reg (world st)) = F64.of_Z tcp
    /\ Value <$> oidMap (world st) !! simArpOID = Some (VUint32 arp)
    /\ Value <$> oidMap (world st) !! simMacOID = Some (VUint32 mac)
    /\ Value <$> oidMap (world st) !! simTcpOID = Some (VUint32 tcp).

Lemma fast_tick_TablesPublished ie env st :
  Good ie st -> TablesPublished (fast_tick env st).
Proof.
  intros [_ HT _ _]. unfold TablesPublished. rewrite fast_tick_world.
  destruct (monitorSystemMetrics_iter_scalars env (locals st) (world st) HT)
    as (arp & mac & tcp & Hr & Ha & Hm & Hc & _ & _ & _ & Hv).
  exists arp, mac, tcp. split; [exact Hr|]. split; [exact Ha|]. split; [exact Hm|].
  split; [exact Hc|].
  split; [apply Hv; scalar_at 7%nat|]. split; [apply Hv; scalar_at 8%nat|].
  apply Hv; scalar_at 9%nat.
Qed.

Lemma slow_tick_TablesPublished now st st' :
  TablesPublished st -> slow_tick now st = Some st' -> TablesPublished st'.
Proof.
  unfold TablesPublished. intros (arp & mac & tcp & H) E. exists arp, mac, tcp.
  rewrite !(slow_tick_lookup_ne _ _ _ _ E) by oid_discr.
  rewrite (slow_tick_reg simArpCacheEntries _ _ _ ltac:(frame_all) E).
  rewrite (slow_tick_reg simMacTableEntries _ _ _ ltac:(frame_all) E).
  rewrite (slow_tick_reg simActiveTcpConnections _ _ _ ltac:(frame_all) E).
  exact H.
Qed.

(** X11. Once a fast tick has run, the sizes of the ARP cache, of the MAC
    table and of the TCP connection table are integers of [[50,499]],
    [[100,999]] and [[20,299]], and the registry and the store hold the
    same three integers: the gauge is [float64] of the [uint32] of the
    store. *)
Theorem table_sizes_agree_and_in_range ie g evs1 env evs2 :
  exists st arp mac tcp,
    run (evs1 ++ FastTick env :: evs2) (init ie g) = Some st
    /\ (50 <= arp <= 499 /\ 100 <= mac <= 999 /\ 20 <= tcp <= 299)
    /\ simArpCacheEntries (reg (world st)) = F64.of_Z arp
    /\ simMacTableEntries (reg (world st)) = F64.of_Z mac
    /\ simActiveTcpConnections (reg (world st)) = F64.of_Z tcp
    /\ Value <$> oidMap (world st) !! simArpOID = Some (VUint32 arp)
    /\ Value <$> oidMap (world st) !! simMacOID = Some (VUint32 mac)
    /\ Value <$> oidMap (world st) !! simTcpOID = Some (VUint32 tcp).
Proof.
  destruct (after_fast_tick TablesPublished ie g (fast_tick_TablesPublished ie)
              slow_tick_TablesPublished evs1 env evs2)
    as (st & Hrun & _ & (arp & mac & tcp & H)).
  exists st, arp, mac, tcp. split; [exact Hrun|exact H].
Qed.

(** ** The runtime metrics of the simulator *)

(** X12. At the end of a fast tick, after any run from the initial state,
    the store and the registry hold what the tick read from the runtime:
    the goroutine entry the second reading of [runtime.NumGoroutine()] and
    the goroutine gauge the first; the GC entry [NumGC]; the memory entry
    [Alloc] in whole MiB and the memory gauge [Alloc] in bytes; the uptime
    entry the hundredths of a second since the start time, converted to
    [uint32]. *)
Theorem runtime_scalars_after_fast_tick ie g evs env :
  exists st,
    run (evs ++ [FastTick env]) (init ie g) = Some st
    /\ Value <$> oidMap (world st) !! simGoroutinesOID
       = Some (VUint32 (u32 (NumGoroutine2 env)))
    /\ goroutineCount (reg (world st)) = F64.of_Z (NumGoroutine1 env)
    /\ Value <$> oidMap (world st) !! simGcCountOID = Some (VUint32 (u32 (NumGC env)))
    /\ Value <$> oidMap (world st) !! simMemoryMBOID
       = Some (VUint32 (u32 (u64 (Alloc env) / 1024 / 1024)))
    /\ memoryUsage (reg (world st)) = F64.of_Z (u64 (Alloc env))
    /\ Value <$> oidMap (world st) !! simUptimeSecOID
       = Some (VUint32 (F64.to_uint32
                 (F64.mul (time.Seconds (time.Sub (timeNow env) (initStartTime ie)))
                          (F64.of_Z 100)))).
Proof.
  destruct (run_Good ie evs _ (init_Good ie g)) as (st0 & H0 & [_ HT _ HS]).
  exists (fast_tick env st0). rewrite run_app, H0. split; [reflexivity|].
  rewrite fast_tick_world.
  destruct (monitorSystemMetrics_iter_scalars env (locals st0) (world st0) HT)
    as (arp & mac & tcp & _ & _ & _ & _ & Hmu & Hgo & _ & Hv).
  rewrite HS in Hv.
  split; [apply Hv; scalar_at 0%nat|]. split; [exact Hgo|].
  split; [apply Hv; scalar_at 1%nat|]. split; [apply Hv; scalar_at 2%nat|].
  split; [exact Hmu|]. apply Hv; scalar_at 3%nat.
Qed.

(** ** The health of fans and power supplies in the two read models *)

Lemma keeps_forRange_in {A} (P : World -> Prop) (body : nat -> A -> M A) l :
  (forall i x, x ∈ l -> keeps P (body i x)) -> forall i, keeps P (forRange body i l).
Proof.
  induction l as [|x l IH]; intros Hb i; simpl.
  - apply keeps_ret.
  - apply keeps_bind; [apply Hb; left|]. intros y.
    apply keeps_bind; [|intros ys; apply keeps_ret].
    apply IH. intros j z Hz. apply Hb. right. exact Hz.
Qed.

(** A loop whose iterations publish their element under a key of its
    own: at the end every element is published. *)
Lemma forRange_published {A K} (key : A -> K) (Q : A -> World -> Prop)
    (body : nat -> A -> M A) :
  (forall i x w, Q (fst (body i x w)) (snd (body i x w))
                 /\ key (fst (body i x w)) = key x) ->
  (forall i x y, key x <> key y -> keeps (Q y) (body i x)) ->
  forall l i w, NoDup (key <$> l) ->
    Forall (fun y => Q y (snd (forRange body i l w))) (fst (forRange body i l w)).
Proof.
  intros Hb Hk. induction l as [|x l IH]; intros i w Hnd; simpl.
  - constructor.
  - rewrite fmap_cons in Hnd. apply NoDup_cons in Hnd as [Hx Hnd].
    unfold mbind, M_bind, bind.
    destruct (Hb i x w) as [Hq Hkey]. destruct (body i x w) as [y w1]. cbn [fst snd] in *.
    specialize (IH (S i) w1 Hnd).
    pose proof (keeps_forRange_in (Q y) body l) as Hkeep.
    specialize (Hkeep ltac:(intros j z Hz; apply Hk; intros E; apply Hx; rewrite <- Hkey, <- E;
                            apply list_elem_of_fmap; eauto) (S i) w1 Hq).
    destruct (forRange body (S i) l w1) as [ys w2]. cbn [fst snd] in *.
    constructor; assumption.
Qed.

Lemma fanStatusOID_inj i j : fanStatusOID i = fanStatusOID j -> i = j.
Proof. unfold_oids. intros H. repeat injection H as H. exact (pretty_Z_inj _ _ H). Qed.

Lemma psuStatusOID_inj i j : psuStatusOID i = psuStatusOID j -> i = j.
Proof. unfold_oids. intros H. repeat injection H as H. exact (pretty_Z_inj _ _ H). Qed.

(** A fan, a power supply as the registry and the store show it. *)
Definition FanPublished (fan : fanData.t) (w : World) : Prop :=
  simFanStatus (reg w) !! fanData.labels fan = Some (F64.of_Z (fanData.status fan))
  /\ oidMap w !! fanStatusOID (fanData.index fan)
     = Some (mkPDU (fanStatusOID (fanData.index fan)) Integer (VInt32 (fanData.status fan))).

Definition PsuPublished (psu : psuData.t) (w : World) : Prop :=
  simPsuStatus (reg w) !! psuData.labels psu = Some (F64.of_Z (psuData.status psu))
  /\ oidMap w !! psuStatusOID (psuData.index psu)
     = Some (mkPDU (psuStatusOID (psuData.index psu)) Integer (VInt32 (psuData.status psu))).

Lemma updateFan_publishes i fan w :
  FanPublished (fst (updateFan i fan w)) (snd (updateFan i fan w))
  /\ fanData.index (fst (updateFan i fan w)) = fanData.index fan.
Proof.
  unfold FanPublished, updateFan, mbind, M_bind, bind, Intn, onReg, logPrintf, store,
    modify, ret.
  destruct (draw 200 (rng w) <? 1); [destruct (fanData.status fan =? 1)|];
    cbn; unfold Vec_Set; rewrite !lookup_insert_eq; auto.
Qed.

Lemma updateFan_keeps_other i fan y :
  fanData.index fan <> fanData.index y -> keeps (FanPublished y) (updateFan i fan).
Proof.
  intros Hne w [H1 H2].
  assert (Hl : forall s, fanData.labels (fanData.set_status s fan) <> fanData.labels y).
  { intros s E. unfold fanData.labels, fmt_d in E. cbn in E. injection E as E _.
    apply Hne. exact (pretty_Z_inj _ _ E). }
  assert (Hl0 : fanData.labels fan <> fanData.labels y).
  { intros E. unfold fanData.labels, fmt_d in E. injection E as E _.
    apply Hne. exact (pretty_Z_inj _ _ E). }
  assert (Hk : fanStatusOID (fanData.index fan) <> fanStatusOID (fanData.index y)).
  { intros E. apply Hne. exact (fanStatusOID_inj _ _ E). }
  unfold FanPublished, updateFan, mbind, M_bind, bind, Intn, onReg, logPrintf, store,
    modify, ret.
  destruct (draw 200 (rng w) <? 1); [destruct (fanData.status fan =? 1)|];
    cbn; unfold Vec_Set; rewrite !lookup_insert_ne by auto; auto.
Qed.

Lemma updatePsu_publishes i psu w :
  PsuPublished (fst (updatePsu i psu w)) (snd (updatePsu i psu w))
  /\ psuData.index (fst (updatePsu i psu w)) = psuData.index psu.
Proof.
  unfold PsuPublished, updatePsu, mbind, M_bind, bind, Intn, onReg, logPrintf, store,
    modify.
  destruct (bool_decide (psuData.descr psu <> pinnedPsu)); unfold ret at 1;
    [destruct (draw 500 (rng w) <? 1);
       [destruct (psuData.status psu =? 1); [|destruct (psuData.status psu =? 2)]|]|];
    cbn; unfold Vec_Set; rewrite !lookup_insert_eq; auto.
Qed.

Lemma updatePsu_keeps_other i psu y :
  psuData.index psu <> psuData.index y -> keeps (PsuPublished y) (updatePsu i psu).
Proof.
  intros Hne w [H1 H2].
  assert (Hl : forall s, psuData.labels (psuData.set_status s psu) <> psuData.labels y).
  { intros s E. unfold psuData.labels, fmt_d in E. cbn in E. injection E as E _.
    apply Hne. exact (pretty_Z_inj _ _ E). }
  assert (Hl0 : psuData.labels psu <> psuData.labels y).
  { intros E. unfold psuData.labels, fmt_d in E. injection E as E _.
    apply Hne. exact (pretty_Z_inj _ _ E). }
  assert (Hk : psuStatusOID (psuData.index psu) <> psuStatusOID (psuData.index y)).
  { intros E. apply Hne. exact (psuStatusOID_inj _ _ E). }
  unfold PsuPublished, updatePsu, mbind, M_bind, bind, Intn, onReg, logPrintf, store,
    modify.
  destruct (bool_decide (psuData.descr psu <> pinnedPsu)); unfold ret at 1;
    [destruct (draw 500 (rng w) <? 1);
       [destruct (psuData.status psu =? 1); [|destruct (psuData.status psu =? 2)]|]|];
    cbn; unfold Vec_Set; rewrite !lookup_insert_ne by auto; auto.
Qed.

Lemma updateFans_published w :
  NoDup (fanData.index <$> fans w) ->
  Forall (fun f => FanPublished f (snd (updateFans w))) (fans (snd (updateFans w))).
Proof.
  intros Hnd.
  pose proof (forRange_published fanData.index FanPublished updateFan
                updateFan_publishes updateFan_keeps_other (fans w) 0%nat w Hnd) as H.
  unfold updateFans, mbind, M_bind, bind, gets, modify.
  destruct (forRange updateFan 0 (fans w) w) as [fs w1]. cbn [fst snd] in *.
  cbn [fans with_fans]. eapply Forall_impl; [exact H|].
  intros f Hf. exact Hf.
Qed.

Lemma updatePsus_published w :
  NoDup (psuData.index <$> psus w) ->
  Forall (fun p => PsuPublished p (snd (updatePsus w))) (psus (snd (updatePsus w))).
Proof.
  intros Hnd.
  pose proof (forRange_published psuData.index PsuPublished updatePsu
                updatePsu_publishes updatePsu_keeps_other (psus w) 0%nat w Hnd) as H.
  unfold updatePsus, mbind, M_bind, bind, gets, modify.
  destruct (forRange updatePsu 0 (psus w) w) as [ps w1]. cbn [fst snd] in *.
  cbn [psus with_psus]. eapply Forall_impl; [exact H|].
  intros p Hp. exact Hp.
Qed.

Definition HealthPublished (st : State) : Prop :=
  Forall (fun f => FanPublished f (world st)) (fans (world st))
  /\ Forall (fun p => PsuPublished p (world st)) (psus (world st)).

Lemma Configured_NoDup w :
  Configured w -> NoDup (fanData.index <$> fans w) /\ NoDup (psuData.index <$> psus w).
Proof.
  intros [_ (s1 & s2 & -> & _) (s & -> & _)]. cbn.
  split; (apply NoDup_cons; split; [|apply NoDup_singleton]);
    intros H; apply list_elem_of_singleton in H; discriminate.
Qed.

Lemma fast_tick_HealthPublished ie env st :
  Good ie st -> HealthPublished (fast_tick env st).
Proof.
  intros [_ _ HC _]. destruct (Configured_NoDup _ HC) as [Nf Np].
  unfold HealthPublished. rewrite fast_tick_world.
  destruct (monitorSystemMetrics_iter_stages env (locals st) (world st))
    as [lastGC w1 cpu w2 mem w3 temp w4 w5 w6 w7 tables w8 w9 E1 E2 E3 E4 E5 E6 E7 E8 E9].
  assert (Hf5 : fans w5 = fans (world st)).
  { carry fans E5. carry fans E4. carry fans E3. carry fans E2. carry fans E1. reflexivity. }
  assert (Hp6 : psus w6 = psus (world st)).
  { carry psus E6. carry psus E5. carry psus E4. carry psus E3. carry psus E2.
    carry psus E1. reflexivity. }
  split.
  - pose proof (updateFans_published w5 ltac:(rewrite Hf5; exact Nf)) as H.
    rewrite E6 in H. cbn [snd] in H.
    assert (Hf9 : fans w9 = fans w6).
    { carry fans E9. carry fans E8. carry fans E7. reflexivity. }
    rewrite Hf9. eapply Forall_impl; [exact H|].
    intros f [F1 F2]. unfold FanPublished. split.
    + rewrite <- F1.
      carry (fun w => simFanStatus (reg w) !! fanData.labels f) E9.
      carry (fun w => simFanStatus (reg w) !! fanData.labels f) E8.
      carry (fun w => simFanStatus (reg w) !! fanData.labels f) E7. reflexivity.
    + rewrite <- F2.
      carry_key (fun w => oidMap w !! fanStatusOID (fanData.index f)) E9.
      carry_key (fun w => oidMap w !! fanStatusOID (fanData.index f)) E8.
      carry_key (fun w => oidMap w !! fanStatusOID (fanData.index f)) E7. reflexivity.
  - pose proof (updatePsus_published w6 ltac:(rewrite Hp6; exact Np)) as H.
    rewrite E7 in H. cbn [snd] in H.
    assert (Hp9 : psus w9 = psus w7).
    { carry psus E9. carry psus E8. reflexivity. }
    rewrite Hp9. eapply Forall_impl; [exact H|].
    intros p [P1 P2]. unfold PsuPublished. split.
    + rewrite <- P1.
      carry (fun w => simPsuStatus (reg w) !! psuData.labels p) E9.
      carry (fun w => simPsuStatus (reg w) !! psuData.labels p) E8. reflexivity.
    + rewrite <- P2.
      carry_key (fun w => oidMap w !! psuStatusOID (psuData.index p)) E9.
      carry_key (fun w => oidMap w !! psuStatusOID (psuData.index p)) E8. reflexivity.
Qed.

Lemma slow_tick_HealthPublished now st st' :
  HealthPublished st -> slow_tick now st = Some st' -> HealthPublished st'.
Proof.
  unfold HealthPublished, FanPublished, PsuPublished. intros [Hf Hp] E.
  destruct (slow_tick_health _ _ _ E) as [-> ->].
  rewrite (slow_tick_reg simFanStatus _ _ _ ltac:(frame_all) E).
  rewrite (slow_tick_reg simPsuStatus _ _ _ ltac:(frame_all) E).
  split.
  - eapply Forall_impl; [exact Hf|]. intros f [F1 F2]. split; [exact F1|].
    rewrite (slow_tick_lookup_ne _ _ _ _ E) by oid_discr. exact F2.
  - eapply Forall_impl; [exact Hp|]. intros p [P1 P2]. split; [exact P1|].
    rewrite (slow_tick_lookup_ne _ _ _ _ E) by oid_discr. exact P2.
Qed.

(** X13. Once a fast tick has run, the two read models show every fan and
    every power supply as it is, whatever ticks follow: under the labels of
    the fan the registry holds [float64] of its status, and under its key
    the store holds an [Integer] entry with that status; the same for the
    power supplies. *)
Theorem health_entries_match_status ie g evs1 env evs2 :
  exists st,
    run (evs1 ++ FastTick env :: evs2) (init ie g) = Some st
    /\ (forall fan, fan ∈ fans (world st) ->
          simFanStatus (reg (world st)) !! fanData.labels fan
          = Some (F64.of_Z (fanData.status fan))
          /\ oidMap (world st) !! fanStatusOID (fanData.index fan)
             = Some (mkPDU (fanStatusOID (fanData.index fan)) Integer
                       (VInt32 (fanData.status fan))))
    /\ (forall psu, psu ∈ psus (world st) ->
          simPsuStatus (reg (world st)) !! psuData.labels psu
          = Some (F64.of_Z (psuData.status psu))
          /\ oidMap (world st) !! psuStatusOID (psuData.index psu)
             = Some (mkPDU (psuStatusOID (psuData.index psu)) Integer
                       (VInt32 (psuData.status psu)))).
Proof.
  destruct (after_fast_tick HealthPublished ie g (fast_tick_HealthPublished ie)
              slow_tick_HealthPublished evs1 env evs2)
    as (st & Hrun & _ & [Hf Hp]).
  exists st. split; [exact Hrun|]. rewrite Forall_forall in Hf. rewrite Forall_forall in Hp. split.
  - intros fan Hin. exact (Hf fan Hin).
  - intros psu Hin. exact (Hp psu Hin).
Qed.

(** ** The rates in the two read models *)

Lemma NoDup_index_labels (l : list interfaceData.t) :
  NoDup (interfaceData.index <$> l) -> NoDup (interfaceData.labels <$> l).
Proof.
  induction l as [|x l IH]; simpl; [constructor|].
  rewrite !NoDup_cons. intros [Hx Hl]. split; [|exact (IH Hl)].
  intros Hin. apply Hx.
  apply list_elem_of_fmap in Hin as (y & Hy & Hin).
  apply list_elem_of_fmap. exists y. split; [|exact Hin].
  destruct (decide (interfaceData.index x = interfaceData.index y)) as [E|Hne];
    [exact E|].
  destruct (labels_index_ne _ _ Hne Hy).
Qed.

Definition rateEntries (idx : Z) (w : World) : option SnmpPDU * option SnmpPDU :=
  (oidMap w !! ifInRateOID idx, oidMap w !! ifOutRateOID idx).

Lemma publishInterface_rateEntries env iface w :
  rate_published env iface = true ->
  rateEntries (interfaceData.index iface) (snd (publishInterface env iface w))
  = (Some (mkPDU (ifInRateOID (interfaceData.index iface)) Gauge32
             (VUint32 (F64.to_uint32 (inRateBps env iface)))),
     Some (mkPDU (ifOutRateOID (interfaceData.index iface)) Gauge32
             (VUint32 (F64.to_uint32 (outRateBps env iface))))).
Proof.
  intros H. rewrite (publishInterface_eq _ _ _ H). unfold rateEntries. cbn. f_equal.
  - rewrite !lookup_insert_ne by first [oid_discr|apply not_eq_sym, ifInRateOID_ne_ifOutRateOID].
    apply lookup_insert_eq.
  - rewrite !lookup_insert_ne by oid_discr. apply lookup_insert_eq.
Qed.

Lemma publishInterface_rateEntries_ne env iface idx :
  interfaceData.index iface <> idx ->
  preserves (rateEntries idx) (publishInterface env iface).
Proof.
  intros H w. unfold rateEntries.
  rewrite (publishInterface_lookup_ne env iface (ifInRateOID idx)),
          (publishInterface_lookup_ne env iface (ifOutRateOID idx));
    try reflexivity;
    first
      [ oid_discr
      | intros E'; apply ifInRateOID_inj in E'; congruence
      | intros E'; apply ifOutRateOID_inj in E'; congruence
      | intros E'; apply ifInRateOID_ne_ifOutRateOID in E'; exact E'
      | intros E'; symmetry in E'; apply ifInRateOID_ne_ifOutRateOID in E'; exact E' ].
Qed.

(** What a fast tick publishes for an interface that passes its test. *)
Lemma fast_tick_rates env st iface :
  NoDup (interfaceData.index <$> interfaces (world st)) ->
  iface ∈ interfaces (world st) ->
  rate_published env iface = true ->
  let w' := world (fast_tick env st) in
  ifInRate (reg w') !! interfaceData.labels iface = Some (inRateBps env iface)
  /\ ifOutRate (reg w') !! interfaceData.labels iface = Some (outRateBps env iface)
  /\ oidMap w' !! ifInRateOID (interfaceData.index iface)
     = Some (mkPDU (ifInRateOID (interfaceData.index iface)) Gauge32
               (VUint32 (F64.to_uint32 (inRateBps env iface))))
  /\ oidMap w' !! ifOutRateOID (interfaceData.index iface)
     = Some (mkPDU (ifOutRateOID (interfaceData.index iface)) Gauge32
               (VUint32 (F64.to_uint32 (outRateBps env iface)))).
Proof.
  intros Hnd Hin Hpub. cbv zeta. rewrite fast_tick_world.
  pose proof (NoDup_index_labels _ Hnd) as Hndl.
  destruct (monitorSystemMetrics_iter_stages env (locals st) (world st))
    as [lastGC w1 cpu w2 mem w3 temp w4 w5 w6 w7 tables w8 w9 E1 E2 E3 E4 E5 E6 E7 E8 E9].
  assert (Hifs : interfaces w4 = interfaces (world st)).
  { carry interfaces E4. carry interfaces E3. carry interfaces E2.
    carry interfaces E1. reflexivity. }
  rewrite publishInterfaces_eq, Hifs in E5.
  apply list_elem_of_split in Hin as (pre & suf & Hsplit).
  rewrite Hsplit in E5, Hnd, Hndl.
  set (idx := interfaceData.index iface).
  set (getr := fun w => (ifInRate (reg w) !! interfaceData.labels iface,
                         ifOutRate (reg w) !! interfaceData.labels iface)).
  assert (G : getr w5 = (Some (inRateBps env iface), Some (outRateBps env iface))).
  { pose proof (forEach_last_write getr (publishInterface env) pre iface suf
                  (Some (inRateBps env iface), Some (outRateBps env iface)) w4) as H.
    rewrite E5 in H. apply H.
    - intros w. unfold getr.
      destruct (publishInterface_rates env iface w Hpub) as [-> ->]. reflexivity.
    - intros y Hy. apply publishInterface_rates_ne. right.
      exact (NoDup_split_fmap _ _ _ _ Hndl y Hy). }
  assert (S : rateEntries idx w5
              = (Some (mkPDU (ifInRateOID idx) Gauge32
                         (VUint32 (F64.to_uint32 (inRateBps env iface)))),
                 Some (mkPDU (ifOutRateOID idx) Gauge32
                         (VUint32 (F64.to_uint32 (outRateBps env iface)))))).
  { pose proof (forEach_last_write (rateEntries idx) (publishInterface env) pre iface suf
                  (Some (mkPDU (ifInRateOID idx) Gauge32
                           (VUint32 (F64.to_uint32 (inRateBps env iface)))),
                   Some (mkPDU (ifOutRateOID idx) Gauge32
                           (VUint32 (F64.to_uint32 (outRateBps env iface))))) w4) as H.
    rewrite E5 in H. apply H.
    - intros w. apply (publishInterface_rateEntries env iface w Hpub).
    - intros y Hy. apply publishInterface_rateEntries_ne.
      exact (NoDup_split_fmap _ _ _ _ Hnd y Hy). }
  unfold getr in G. injection G as G1 G2.
  unfold rateEntries in S. injection S as S1 S2.
  rewrite <- G1, <- G2, <- S1, <- S2.
  split; [|split; [|split]].
  - carry (fun w => ifInRate (reg w) !! interfaceData.labels iface) E9.
    carry (fun w => ifInRate (reg w) !! interfaceData.labels iface) E8.
    carry (fun w => ifInRate (reg w) !! interfaceData.labels iface) E7.
    carry (fun w => ifInRate (reg w) !! interfaceData.labels iface) E6. reflexivity.
  - carry (fun w => ifOutRate (reg w) !! interfaceData.labels iface) E9.
    carry (fun w => ifOutRate (reg w) !! interfaceData.labels iface) E8.
    carry (fun w => ifOutRate (reg w) !! interfaceData.labels iface) E7.
    carry (fun w => ifOutRate (reg w) !! interfaceData.labels iface) E6. reflexivity.
  - carry_key (fun w => oidMap w !! ifInRateOID idx) E9.
    carry_key (fun w => oidMap w !! ifInRateOID idx) E8.
    carry_key (fun w => oidMap w !! ifInRateOID idx) E7.
    carry_key (fun w => oidMap w !! ifInRateOID idx) E6. reflexivity.
  - carry_key (fun w => oidMap w !! ifOutRateOID idx) E9.
    carry_key (fun w => oidMap w !! ifOutRateOID idx) E8.
    carry_key (fun w => oidMap w !! ifOutRateOID idx) E7.
    carry_key (fun w => oidMap w !! ifOutRateOID idx) E6. reflexivity.
Qed.

(** X14. The rate entries of the store are the rate gauges converted: after a
    fast tick, for every interface that is up and whose baseline is in the
    past, the store holds under the two rate keys of the interface [Gauge32]
    entries whose values are [uint32] of the in-rate and of the out-rate
    that the registry holds under the labels of the interface. The indexes
    of the interfaces are distinct. *)
Theorem rate_entries_match_gauges env st iface :
  NoDup (interfaceData.index <$> interfaces (world st)) ->
  iface ∈ interfaces (world st) ->
  rate_published env iface = true ->
  exists rin rout,
    ifInRate (reg (world (fast_tick env st))) !! interfaceData.labels iface = Some rin
    /\ ifOutRate (reg (world (fast_tick env st))) !! interfaceData.labels iface = Some rout
    /\ oidMap (world (fast_tick env st)) !! ifInRateOID (interfaceData.index iface)
       = Some (mkPDU (ifInRateOID (interfaceData.index iface)) Gauge32
                 (VUint32 (F64.to_uint32 rin)))
    /\ oidMap (world (fast_tick env st)) !! ifOutRateOID (interfaceData.index iface)
       = Some (mkPDU (ifOutRateOID (interfaceData.index iface)) Gauge32
                 (VUint32 (F64.to_uint32 rout))).
Proof.
  intros Hnd Hin Hpub.
  destruct (fast_tick_rates env st iface Hnd Hin Hpub) as (H1 & H2 & H3 & H4).
  exists (inRateBps env iface), (outRateBps env iface). auto.
Qed.

Ltac nodup_Z :=
  repeat (apply NoDup_cons; split;
          [let Hx := fresh in
           intros Hx;
           repeat (apply elem_of_cons in Hx as [Hx|Hx]; [discriminate Hx|]);
           by apply elem_of_nil in Hx|]);
  apply NoDup_nil_2.

Lemma sampleTrafficState_NoDup_index :
  NoDup (interfaceData.index <$> interfaces (world sampleTrafficState)).
Proof.
  cbn [sampleTrafficState world interfaces with_interfaces fmap list_fmap].
  cbn [sampleInterface sampleDownInterface interfaceData.index]. nodup_Z.
Qed.

Lemma sampleInterface_published : rate_published sampleEnv6 sampleInterface = true.
Proof. vm_compute. reflexivity. Qed.

Lemma rate_entries_match_gauges_witness :
  NoDup (interfaceData.index <$> interfaces (world sampleTrafficState))
  /\ sampleInterface ∈ interfaces (world sampleTrafficState)
  /\ rate_published sampleEnv6 sampleInterface = true
  /\ exists rin rout,
       ifInRate (reg (world (fast_tick sampleEnv6 sampleTrafficState)))
         !! interfaceData.labels sampleInterface = Some rin
       /\ ifOutRate (reg (world (fast_tick sampleEnv6 sampleTrafficState)))
            !! interfaceData.labels sampleInterface = Some rout
       /\ oidMap (world (fast_tick sampleEnv6 sampleTrafficState))
            !! ifInRateOID (interfaceData.index sampleInterface)
          = Some (mkPDU (ifInRateOID (interfaceData.index sampleInterface)) Gauge32
                    (VUint32 (F64.to_uint32 rin)))
       /\ oidMap (world (fast_tick sampleEnv6 sampleTrafficState))
            !! ifOutRateOID (interfaceData.index sampleInterface)
          = Some (mkPDU (ifOutRateOID (interfaceData.index sampleInterface)) Gauge32
                    (VUint32 (F64.to_uint32 rout))).
Proof.
  split; [exact sampleTrafficState_NoDup_index|].
  split; [exact sampleInterface_in|].
  split; [exact sampleInterface_published|].
  exact (rate_entries_match_gauges sampleEnv6 sampleTrafficState sampleInterface
           sampleTrafficState_NoDup_index sampleInterface_in sampleInterface_published).
Defined.

(** ** One slow tick, interface by interface *)

(** The samples of the two counter vectors under one pair of labels. *)
Definition errorSamples (lbl : string * string) (w : World)
    : option spec_float * option spec_float :=
  (simIfInErrorsTotal (reg w) !! lbl, simIfOutDiscardsTotal (reg w) !! lbl).

(** What one iteration of the loop of [incrementCounters] does to the
    interface [a] at position [i], giving [b], and to the samples [s] of its
    labels, giving [s']. *)
Definition slow_step (now : Z) (i : nat) (a b : interfaceData.t)
    (s s' : option spec_float * option spec_float) : Prop :=
  if interfaceData.operStatus a =? 1 then
    exists r1 r2,
      (0 <= r1 < 20000 /\ 0 <= r2 < 30000)
      /\ ifaceIdentity b = ifaceIdentity a
      /\ interfaceData.lastInOctets b = interfaceData.inOctets a
      /\ interfaceData.lastOutOctets b = interfaceData.outOctets a
      /\ interfaceData.lastUpdateTime b = now
      /\ interfaceData.inOctets b
         = u64 (interfaceData.inOctets a + u64 (r1 + 10000 + Z.of_nat i * 1000))
      /\ interfaceData.outOctets b
         = u64 (interfaceData.outOctets a + u64 (r2 + 15000 + Z.of_nat i * 2000))
      /\ ((interfaceData.inErrors b = interfaceData.inErrors a
           /\ interfaceData.outDiscards b = interfaceData.outDiscards a
           /\ s' = s)
          \/ exists e d,
               (1 <= e <= 3 /\ 1 <= d <= 2)
               /\ interfaceData.inErrors b = u64 (interfaceData.inErrors a + e)
               /\ interfaceData.outDiscards b = u64 (interfaceData.outDiscards a + d)
               /\ s' = (Some (Counter_Add (F64.of_Z e) (default (F64.of_Z 0) s.1)),
                        Some (Counter_Add (F64.of_Z d) (default (F64.of_Z 0) s.2))))
  else b = a /\ s' = s.

Lemma u64_small n : 0 <= n < 2 ^ 64 -> u64 n = n.
Proof. intros H. unfold u64. apply Z.mod_small. exact H. Qed.

Lemma incrementInterface_step now i a w :
  slow_step now i a (fst (incrementInterface now i a w))
    (errorSamples (interfaceData.labels a) w)
    (errorSamples (interfaceData.labels a) (snd (incrementInterface now i a w))).
Proof.
  unfold slow_step, incrementInterface.
  destruct (interfaceData.operStatus a =? 1); [|cbn; auto].
  unfold mbind, M_bind, bind, Intn, onReg, modify, ret. cbn [fst snd rng with_rng].
  set (r1 := draw 20000 _). set (r2 := draw 30000 _). set (r3 := draw 100 _).
  assert (H1 : 0 <= r1 < 20000) by (apply draw_range; lia).
  assert (H2 : 0 <= r2 < 30000) by (apply draw_range; lia).
  exists r1, r2. split; [auto|].
  destruct (r3 <? 2).
  - cbn [fst snd rng with_rng with_reg].
    set (r4 := draw 3 _). set (r5 := draw 2 _).
    assert (H4 : 0 <= r4 < 3) by (apply draw_range; lia).
    assert (H5 : 0 <= r5 < 2) by (apply draw_range; lia).
    assert (E4 : u64 (r4 + 1) = r4 + 1) by (apply u64_small; lia).
    assert (E5 : u64 (r5 + 1) = r5 + 1) by (apply u64_small; lia).
    cbn. do 6 (split; [reflexivity|]). right.
    exists (r4 + 1), (r5 + 1). rewrite E4, E5. split; [lia|].
    do 2 (split; [reflexivity|]).
    unfold errorSamples, Vec_Add. cbn. rewrite !lookup_insert_eq. reflexivity.
  - cbn. do 6 (split; [reflexivity|]). left. auto.
Qed.

Lemma incrementInterface_errorSamples_ne now i x lbl :
  interfaceData.labels x <> lbl ->
  preserves (errorSamples lbl) (incrementInterface now i x).
Proof.
  intros Hne w. unfold incrementInterface.
  destruct (interfaceData.operStatus x =? 1); [|reflexivity].
  unfold mbind, M_bind, bind, Intn, onReg, modify, ret. cbn [fst snd rng with_rng].
  destruct (draw 100 _ <? 2); [|reflexivity].
  unfold errorSamples, Vec_Add. cbn. rewrite !lookup_insert_ne by exact Hne. reflexivity.
Qed.

(** A loop whose iterations each change the part of the world under the key
    of their element only: the element at a position and the part under its
    key are related as one iteration relates them. *)
Lemma forRange_lookup_world {A K T} (key : A -> K) (get : K -> World -> T)
    (R : nat -> A -> A -> T -> T -> Prop) (body : nat -> A -> M A) :
  (forall i x w, R i x (fst (body i x w)) (get (key x) w) (get (key x) (snd (body i x w)))) ->
  (forall i x k, key x <> k -> preserves (get k) (body i x)) ->
  forall l i0 w j a b,
    NoDup (key <$> l) ->
    l !! j = Some a -> fst (forRange body i0 l w) !! j = Some b ->
    R (i0 + j)%nat a b (get (key a) w) (get (key a) (snd (forRange body i0 l w))).
Proof.
  intros Hb Hk. induction l as [|x l IH]; intros i0 w j a b Hnd Ha Hj; [discriminate|].
  rewrite fmap_cons in Hnd. apply NoDup_cons in Hnd as [Hx Hnd].
  simpl in Hj |- *. unfold mbind, M_bind, bind in Hj |- *.
  pose proof (Hb i0 x w) as Hbx.
  assert (Hkx : forall k, key x <> k -> get k (snd (body i0 x w)) = get k w)
    by (intros k Hne; apply (Hk i0 x k Hne)).
  destruct (body i0 x w) as [y w1]. cbn [fst snd] in Hbx, Hkx.
  specialize (IH (S i0) w1).
  pose proof (preserves_forRange_in (get (key x)) body l) as Hrest.
  specialize (Hrest ltac:(intros i z Hz; apply Hk; intros E; apply Hx; rewrite <- E;
                          apply list_elem_of_fmap; eauto) (S i0) w1).
  destruct (forRange body (S i0) l w1) as [ys w2]. unfold ret in *. cbn [fst snd] in *.
  destruct j as [|j]; simpl in Ha, Hj.
  - injection Ha as <-. injection Hj as <-. rewrite Nat.add_0_r, Hrest. exact Hbx.
  - replace (i0 + S j)%nat with (S i0 + j)%nat by lia.
    assert (Hne : key x <> key a).
    { intros E. apply Hx. rewrite E. apply list_elem_of_fmap. exists a. split; [reflexivity|].
      apply list_elem_of_lookup. eauto. }
    rewrite <- (Hkx (key a) Hne).
    exact (IH j a b Hnd Ha Hj).
Qed.

Lemma slow_tick_step now st st' i a :
  slow_tick now st = Some st' ->
  NoDup (interfaceData.index <$> interfaces (world st)) ->
  interfaces (world st) !! i = Some a ->
  exists b, interfaces (world st') !! i = Some b
            /\ slow_step now i a b (errorSamples (interfaceData.labels a) (world st))
                 (errorSamples (interfaceData.labels a) (world st')).
Proof.
  intros E Hnd Ha.
  destruct (Forall2_lookup_l _ _ _ _ _ (slow_tick_interfaces_rel _ _ _ E) Ha) as (b & Hb & _).
  exists b. split; [exact Hb|].
  apply slow_tick_Some in E as (m & _ & ->).
  cbn [world interfaces with_oidMap] in Hb.
  unfold errorSamples at 2. cbn [world reg with_oidMap].
  pose proof (forRange_lookup_world interfaceData.labels errorSamples (slow_step now)
                (incrementInterface now) (incrementInterface_step now)
                (incrementInterface_errorSamples_ne now)
                (interfaces (world st)) 0%nat (world st) i a b
                (NoDup_index_labels _ Hnd) Ha) as G.
  unfold incrementCounters_loop, mbind, M_bind, bind, gets, modify in Hb |- *.
  destruct (forRange (incrementInterface now) 0 (interfaces (world st)) (world st))
    as [ifs w1]. cbn [fst snd interfaces with_interfaces reg] in *.
  exact (G Hb).
Qed.

(** ** Errors and discards *)


Lemma sampleState_NoDup_index :
  NoDup (interfaceData.index <$> interfaces (world sampleState)).
Proof.
  rewrite sampleState_interfaces.
  cbn [fmap list_fmap sampleDownInterface interfaceData.index]. nodup_Z.
Qed.


(** ** From the increment of a slow tick to the rate of the next fast tick *)

Lemma u64_add_sub x d : u64 (u64 (x + u64 d) - x) = u64 d.
Proof.
  unfold u64. rewrite Zminus_mod_idemp_l.
  replace (x + d mod 2 ^ 64 - x) with (d mod 2 ^ 64) by lia.
  apply Z.mod_mod. lia.
Qed.

Lemma iface_slow_rel_index l l' :
  Forall2 iface_slow_rel l l' -> interfaceData.index <$> l' = interfaceData.index <$> l.
Proof.
  induction 1 as [|a b l l' (Hi & _) _ IH]; [reflexivity|].
  rewrite !fmap_cons, IH, Hi. reflexivity.
Qed.

(** X16. The rate that a fast tick publishes after a slow tick is the
    increment of that slow tick over the time since it: for the interface
    at position [i], if it is up and the fast tick comes strictly later
    than the slow tick, the in-rate is [(r1 + 10000 + 1000 i) / elapsed] and
    the out-rate [(r2 + 15000 + 2000 i) / elapsed] for some draws [r1] below
    20000 and [r2] below 30000, whatever the counters were before, also
    when a counter wraps around [2^64] in the slow tick. *)
Theorem rate_after_slow_tick now env st st1 i a :
  slow_tick now st = Some st1 ->
  NoDup (interfaceData.index <$> interfaces (world st)) ->
  interfaces (world st) !! i = Some a ->
  interfaceData.operStatus a = 1 ->
  F64.ltb (F64.of_Z 0) (time.Seconds (time.Sub (currentTime env) now)) = true ->
  exists r1 r2,
    (0 <= r1 < 20000 /\ 0 <= r2 < 30000)
    /\ ifInRate (reg (world (fast_tick env st1))) !! interfaceData.labels a
       = Some (F64.div (F64.of_Z (u64 (r1 + 10000 + Z.of_nat i * 1000)))
                       (time.Seconds (time.Sub (currentTime env) now)))
    /\ ifOutRate (reg (world (fast_tick env st1))) !! interfaceData.labels a
       = Some (F64.div (F64.of_Z (u64 (r2 + 15000 + Z.of_nat i * 2000)))
                       (time.Seconds (time.Sub (currentTime env) now))).
Proof.
  intros E Hnd Ha Hup Hpos.
  destruct (slow_tick_step _ _ _ _ _ E Hnd Ha) as (b & Hb & Hs).
  unfold slow_step in Hs. rewrite Hup in Hs. cbn [Z.eqb Pos.eqb] in Hs.
  destruct Hs as (r1 & r2 & Hr & Hid & Hli & Hlo & Ht & Hin & Hout & _).
  unfold ifaceIdentity in Hid. injection Hid as Hidx Hdescr _ Hop.
  assert (Hlbl : interfaceData.labels b = interfaceData.labels a).
  { unfold interfaceData.labels. rewrite Hidx, Hdescr. reflexivity. }
  assert (Hpub : rate_published env b = true).
  { unfold rate_published, timeDiffSeconds. rewrite Hop, Hup, Ht, Hpos. reflexivity. }
  assert (Hnd1 : NoDup (interfaceData.index <$> interfaces (world st1))).
  { rewrite (iface_slow_rel_index _ _ (slow_tick_interfaces_rel _ _ _ E)). exact Hnd. }
  assert (Hb1 : b ∈ interfaces (world st1)) by (apply list_elem_of_lookup; eauto).
  destruct (fast_tick_rates env st1 b Hnd1 Hb1 Hpub) as (G1 & G2 & _).
  rewrite Hlbl in G1, G2. unfold inRateBps, outRateBps, timeDiffSeconds in G1, G2.
  rewrite Ht, Hli, Hin, u64_add_sub in G1.
  rewrite Ht, Hlo, Hout, u64_add_sub in G2.
  exists r1, r2. auto.
Qed.

Lemma sampleEnv6_elapsed :
  F64.ltb (F64.of_Z 0) (time.Seconds (time.Sub (currentTime sampleEnv6) 5000000000)) = true.
Proof. vm_compute. reflexivity. Qed.

Lemma rate_after_slow_tick_witness :
  slow_tick 5000000000 sampleState = Some sampleAfterSlow
  /\ NoDup (interfaceData.index <$> interfaces (world sampleState))
  /\ interfaces (world sampleState) !! 0%nat
     = Some (interfaceData.mk 1 "GigabitEthernet1/0/1" 1 1 0 0 0 0 0 0 0)
  /\ exists r1 r2,
       (0 <= r1 < 20000 /\ 0 <= r2 < 30000)
       /\ ifInRate (reg (world (fast_tick sampleEnv6 sampleAfterSlow)))
            !! (fmt_d 1, "GigabitEthernet1/0/1")
          = Some (F64.div (F64.of_Z (u64 (r1 + 10000 + Z.of_nat 0 * 1000)))
                          (time.Seconds (time.Sub (currentTime sampleEnv6) 5000000000)))
       /\ ifOutRate (reg (world (fast_tick sampleEnv6 sampleAfterSlow)))
            !! (fmt_d 1, "GigabitEthernet1/0/1")
          = Some (F64.div (F64.of_Z (u64 (r2 + 15000 + Z.of_nat 0 * 2000)))
                          (time.Seconds (time.Sub (currentTime sampleEnv6) 5000000000))).
Proof.
  assert (Hi : interfaces (world sampleState) !! 0%nat
               = Some (interfaceData.mk 1 "GigabitEthernet1/0/1" 1 1 0 0 0 0 0 0 0))
    by (rewrite sampleState_interfaces; reflexivity).
  split; [exact sampleAfterSlow_eq|]. split; [exact sampleState_NoDup_index|].
  split; [exact Hi|].
  exact (rate_after_slow_tick 5000000000 sampleEnv6 sampleState sampleAfterSlow 0%nat
           (interfaceData.mk 1 "GigabitEthernet1/0/1" 1 1 0 0 0 0 0 0 0)
           sampleAfterSlow_eq sampleState_NoDup_index Hi eq_refl sampleEnv6_elapsed).
Defined.

(** ** [sysUpTime] over a run *)






(** ** The counters of the simulator itself *)






(** ** The initial state *)



(** ** [main]: the address of the HTTP service *)

Definition defaultHTTPPort : string := "9116".

(** [os.Getenv]: the value of the variable, empty when it is not set. *)
Definition Getenv (environ : gmap string string) (key : string) : string :=
  default "" (environ !! key).

Definition httpPort (environ : gmap string string) : string :=
  let httpPort := Getenv environ "HTTP_PORT" in
  if String.eqb httpPort "" then defaultHTTPPort else httpPort.

(** The address given to [http.ListenAndServe]. *)
Definition listenAddr (environ : gmap string string) : string :=
  ":" +:+ httpPort environ.

(** The paths that [main] registers. *)
Definition routes : list string := ["/metrics"; "/health"; "/status"].

(** X20. [main] never asks for an empty port: an [HTTP_PORT] that is unset and
    one that is set to the empty string both give the address [":9116"];
    any other value is used as it is. *)
Theorem http_port_never_empty environ :
  httpPort environ <> ""
  /\ listenAddr environ <> ":"
  /\ (Getenv environ "HTTP_PORT" = "" -> listenAddr environ = ":9116")
  /\ (Getenv environ "HTTP_PORT" <> "" ->
      listenAddr environ = ":" +:+ Getenv environ "HTTP_PORT").
Proof.
  unfold listenAddr, httpPort. cbv zeta.
  destruct (String.eqb (Getenv environ "HTTP_PORT") "") eqn:E.
  - apply String.eqb_eq in E. rewrite E.
    split; [discriminate|]. split; [discriminate|]. split; [reflexivity|].
    intros H. contradiction.
  - apply String.eqb_neq in E.
    split; [exact E|]. split.
    + intros H. cbn [String.append] in H. injection H as H. contradiction.
    + split; [intros H; contradiction|reflexivity].
Qed.

(** ** The log *)

(** The event that the fast cycle logs when it takes a fan from [f] to
    [f'], a power supply from [p] to [p']: none when the status stays. *)
Definition fanEvent (f f' : fanData.t) : list LogEntry :=
  if fanData.status f' =? fanData.status f then []
  else [LogFanStatus (fanData.descr f) (fanData.index f)
          (if fanData.status f' =? 2 then "failed" else "normal")].

Definition psuEvent (p p' : psuData.t) : list LogEntry :=
  if psuData.status p' =? psuData.status p then []
  else [LogPsuStatus (psuData.descr p) (psuData.index p)
          (if psuData.status p' =? 2 then "failed" else "normal")].

Lemma forRange_logs {A} (ev : A -> A -> list LogEntry) (body : nat -> A -> M A) :
  (forall i x w, logs (snd (body i x w)) = logs w ++ ev x (fst (body i x w))) ->
  forall l i w,
    logs (snd (forRange body i l w))
    = logs w ++ concat (zip_with ev l (fst (forRange body i l w))).
Proof.
  intros Hb. induction l as [|x l IH]; intros i w; simpl.
  - rewrite app_nil_r. reflexivity.
  - unfold mbind, M_bind, bind.
    pose proof (Hb i x w) as Hx. destruct (body i x w) as [y w1]. cbn [fst snd] in Hx.
    specialize (IH (S i) w1). destruct (forRange body (S i) l w1) as [ys w2].
    cbn [fst snd] in *. unfold ret. cbn [fst snd zip_with concat].
    rewrite IH, Hx, app_assoc. reflexivity.
Qed.

Lemma updateFan_logs i fan w :
  logs (snd (updateFan i fan w)) = logs w ++ fanEvent fan (fst (updateFan i fan w)).
Proof.
  unfold fanEvent, updateFan, mbind, M_bind, bind, Intn, onReg, logPrintf, store,
    modify, ret.
  destruct (draw 200 (rng w) <? 1); [destruct (fanData.status fan =? 1) eqn:E|];
    cbn -[Z.eqb].
  - apply Z.eqb_eq in E. rewrite E. reflexivity.
  - rewrite Z.eqb_sym, E. reflexivity.
  - rewrite Z.eqb_refl, app_nil_r. reflexivity.
Qed.

Lemma updatePsu_logs i psu w :
  logs (snd (updatePsu i psu w)) = logs w ++ psuEvent psu (fst (updatePsu i psu w)).
Proof.
  unfold psuEvent, updatePsu, mbind, M_bind, bind, Intn, onReg, logPrintf, store, modify.
  destruct (bool_decide (psuData.descr psu <> pinnedPsu)); unfold ret at 1;
    [destruct (draw 500 (rng w) <? 1);
       [destruct (psuData.status psu =? 1) eqn:E1;
          [|destruct (psuData.status psu =? 2) eqn:E2]|]|];
    cbn -[Z.eqb].
  - apply Z.eqb_eq in E1. rewrite E1. reflexivity.
  - apply Z.eqb_eq in E2. rewrite E2. reflexivity.
  - rewrite Z.eqb_refl, app_nil_r. reflexivity.
  - rewrite Z.eqb_refl, app_nil_r. reflexivity.
  - rewrite Z.eqb_refl, app_nil_r. reflexivity.
Qed.

Lemma updateFans_logs w :
  logs (snd (updateFans w))
  = logs w ++ concat (zip_with fanEvent (fans w) (fans (snd (updateFans w)))).
Proof.
  pose proof (forRange_logs fanEvent updateFan updateFan_logs (fans w) 0%nat w) as H.
  unfold updateFans, mbind, M_bind, bind, gets, modify.
  destruct (forRange updateFan 0 (fans w) w) as [fs w1]. exact H.
Qed.

Lemma updatePsus_logs w :
  logs (snd (updatePsus w))
  = logs w ++ concat (zip_with psuEvent (psus w) (psus (snd (updatePsus w)))).
Proof.
  pose proof (forRange_logs psuEvent updatePsu updatePsu_logs (psus w) 0%nat w) as H.
  unfold updatePsus, mbind, M_bind, bind, gets, modify.
  destruct (forRange updatePsu 0 (psus w) w) as [ps w1]. exact H.
Qed.

Lemma monitorSystemMetrics_iter_logs env l w :
  TagsOK w ->
  let w' := snd (monitorSystemMetrics_iter env l w) in
  logs w' = logs w ++ concat (zip_with fanEvent (fans w) (fans w'))
                   ++ concat (zip_with psuEvent (psus w) (psus w')).
Proof.
  intros Htags. cbv zeta.
  destruct (monitorSystemMetrics_iter_stages env l w)
    as [lastGC w1 cpu w2 mem w3 temp w4 w5 w6 w7 tables w8 w9 E1 E2 E3 E4 E5 E6 E7 E8 E9].
  cbn [snd].
  pose proof (stages_TagsOK env l w _ _ _ _ _ _ _ _ _ _ _ _ _ Htags E1 E2 E3 E4 E5 E6 E7 E8)
    as Htags8.
  pose proof (updateScalars_logs env cpu mem temp tables.1.1 tables.1.2 tables.2 w8 Htags8)
    as H9.
  rewrite E9 in H9. cbn [snd] in H9. rewrite H9.
  assert (Hf9 : fans w9 = fans w6).
  { carry fans E9. carry fans E8. carry fans E7. reflexivity. }
  assert (Hp9 : psus w9 = psus w7).
  { carry psus E9. carry psus E8. reflexivity. }
  assert (Hf5 : fans w5 = fans w).
  { carry fans E5. carry fans E4. carry fans E3. carry fans E2. carry fans E1. reflexivity. }
  assert (Hp6 : psus w6 = psus w).
  { carry psus E6. carry psus E5. carry psus E4. carry psus E3. carry psus E2.
    carry psus E1. reflexivity. }
  rewrite Hf9, Hp9.
  carry logs E8.
  pose proof (updatePsus_logs w6) as H7. rewrite E7 in H7. cbn [snd] in H7.
  pose proof (updateFans_logs w5) as H6. rewrite E6 in H6. cbn [snd] in H6.
  rewrite H7, H6, Hp6, Hf5.
  carry logs E5. carry logs E4. carry logs E3. carry logs E2. carry logs E1.
  rewrite <- app_assoc. reflexivity.
Qed.

(** X21. The log records the changes of status and nothing else. A fast tick
    in a state that a run from the initial state has reached appends, in
    this order, one entry for each fan whose status it changes and one for
    each power supply whose status it changes, each naming the entity and
    its new status; it appends nothing for an entity whose status stays. A
    slow tick appends nothing. *)
Theorem log_records_status_changes ie g evs env :
  exists st,
    run evs (init ie g) = Some st
    /\ logs (world (fast_tick env st))
       = logs (world st)
         ++ concat (zip_with fanEvent (fans (world st)) (fans (world (fast_tick env st))))
         ++ concat (zip_with psuEvent (psus (world st)) (psus (world (fast_tick env st))))
    /\ forall now st', slow_tick now st = Some st' -> logs (world st') = logs (world st).
Proof.
  destruct (run_Good ie evs _ (init_Good ie g)) as (st & Hrun & [_ HT _ _]).
  exists st. split; [exact Hrun|]. split.
  - rewrite fast_tick_world.
    apply (monitorSystemMetrics_iter_logs env (locals st) (world st) HT).
  - intros now st' E. exact (slow_tick_logs _ _ _ E).
Qed.

(** ** The two random walks *)


(** ** [init]: the registration of the metrics *)

(** The names of the sixteen metrics, in the order of their registration. *)
Definition metricNames : list string :=
  [ "snmp_sim_app_gc_count_total";
    "snmp_sim_app_memory_usage_bytes";
    "snmp_sim_app_goroutine_count";
    "snmp_sim_device_cpu_usage_percent";
    "snmp_sim_app_uptime_seconds_total";
    "snmp_sim_device_if_in_rate_bytes_per_second";
    "snmp_sim_device_if_out_rate_bytes_per_second";
    "snmp_sim_device_memory_utilization_percent";
    "snmp_sim_device_temperature_celsius";
    "snmp_sim_device_fan_status";
    "snmp_sim_device_psu_status";
    "snmp_sim_device_if_in_errors_total";
    "snmp_sim_device_if_out_discards_total";
    "snmp_sim_device_arp_cache_entries";
    "snmp_sim_device_mac_table_entries";
    "snmp_sim_device_active_tcp_connections" ].

(** [prometheus.MustRegister] on the default registry, as far as the names
    go: it panics ([None]) on a name that is registered already. *)
Definition MustRegister (name : string) (registered : list string) : option (list string) :=
  if bool_decide (name ∈ registered) then None else Some (registered ++ [name]).

Fixpoint registerAll (names : list string) (registered : list string)
    : option (list string) :=
  match names with
  | [] => Some registered
  | name :: names' =>
      match MustRegister name registered with
      | Some registered' => registerAll names' registered'
      | None => None
      end
  end.

Lemma registerAll_NoDup names registered :
  NoDup (registered ++ names) -> registerAll names registered = Some (registered ++ names).
Proof.
  revert registered. induction names as [|n names IH]; intros registered Hnd; simpl.
  - rewrite app_nil_r. reflexivity.
  - unfold MustRegister. rewrite bool_decide_eq_false_2.
    + rewrite IH; rewrite <- app_assoc; [reflexivity|exact Hnd].
    + apply NoDup_app in Hnd as (_ & Hd & _). intros Hin. apply (Hd n Hin). left.
Qed.

Lemma metricNames_NoDup : NoDup metricNames.
Proof.
  unfold metricNames.
  repeat (apply NoDup_cons; split;
          [let Hx := fresh in
           intros Hx;
           repeat (apply elem_of_cons in Hx as [Hx|Hx]; [discriminate Hx|]);
           by apply elem_of_nil in Hx|]).
  apply NoDup_nil_2.
Qed.

(** X23. The registration of [init] goes through: the sixteen metrics have
    sixteen different names, so no call of [MustRegister] finds its name
    taken, and all sixteen are registered. *)
Theorem init_registers_all_metrics :
  registerAll metricNames [] = Some metricNames /\ length metricNames = 16%nat.
Proof.
  split; [|reflexivity]. exact (registerAll_NoDup metricNames [] metricNames_NoDup).
Qed.

(** ** A baseline that is not in the past *)

(** *** The sign of a rounded number *)

(** Zero, or negative (finite or infinite). *)
Definition nonpos (x : spec_float) : Prop :=
  match x with
  | S754_zero _ | S754_finite true _ _ | S754_infinity true => True
  | _ => False
  end.

(** A number of the sign [s], or a zero of that sign. *)
Definition signed (s : bool) (x : spec_float) : Prop :=
  match x with
  | S754_zero s' | S754_infinity s' | S754_finite s' _ _ => s' = s
  | S754_nan => False
  end.

Lemma signed_nonpos x : signed true x -> nonpos x.
Proof. destruct x as [s|s| |s m e]; simpl; intros H; try rewrite H; auto. Qed.

Lemma binary_round_aux_signed s m e l :
  0 <= m -> signed s (binary_round_aux F64.prec F64.emax s m e l).
Proof.
  intros H. unfold binary_round_aux.
  pose proof (F64Facts.shr_fexp_nonneg m e l H) as H1.
  destruct (shr_fexp F64.prec F64.emax m e l) as [mrs' e'] eqn:E1. simpl in H1.
  pose proof (F64Facts.shr_fexp_nonneg _ e' loc_Exact
                (F64Facts.round_nearest_even_nonneg _ (loc_of_shr_record mrs') H1)) as H2.
  destruct (shr_fexp F64.prec F64.emax _ e' loc_Exact) as [mrs'' e''] eqn:E2.
  simpl in H2.
  destruct (shr_m mrs'') as [|p|p]; try lia; [reflexivity|].
  destruct (e'' <=? _); reflexivity.
Qed.

Lemma binary_round_signed s m e : signed s (binary_round F64.prec F64.emax s m e).
Proof.
  unfold binary_round. destruct (shl_align m e _) as [mz ez].
  apply binary_round_aux_signed. lia.
Qed.

Lemma binary_normalize_nonpos m e :
  m <= 0 -> nonpos (binary_normalize F64.prec F64.emax m e false).
Proof.
  intros H. unfold binary_normalize. destruct m as [|p|p]; [exact I|lia|].
  apply signed_nonpos, binary_round_signed.
Qed.

Lemma of_Z_nonpos n : n <= 0 -> nonpos (F64.of_Z n).
Proof. apply binary_normalize_nonpos. Qed.

Lemma div_nonpos x m e : nonpos x -> nonpos (F64.div x (S754_finite false m e)).
Proof.
  unfold F64.div, SFdiv. destruct x as [sx|[|]| |[|] mx ex]; simpl; try tauto.
  intros _.
  pose proof (F64Facts.div_core_nonneg mx ex m e) as Hq.
  destruct (SFdiv_core_binary _ _ _ _ _ _) as [[mz ez] lz]. simpl in Hq.
  apply signed_nonpos, binary_round_aux_signed. exact Hq.
Qed.

Lemma add_nonpos x y : nonpos x -> nonpos y -> nonpos (F64.add x y).
Proof.
  unfold F64.add, SFadd.
  destruct x as [sx|[|]| |[|] mx ex], y as [sy|[|]| |[|] my ey]; simpl; try tauto.
  - intros _ _. destruct sx, sy; exact I.
  - intros _ _. apply signed_nonpos, binary_round_signed.
Qed.

Lemma ltb_zero_nonpos x : nonpos x -> F64.ltb (F64.of_Z 0) x = false.
Proof.
  change (F64.of_Z 0) with (S754_zero false).
  destruct x as [s|[|]| |[|] m e]; simpl; try tauto; reflexivity.
Qed.

(** The seconds of a duration that is not positive are not positive. *)
Lemma Seconds_nonpos d :
  d <= 0 -> F64.ltb (F64.of_Z 0) (time.Seconds d) = false.
Proof.
  intros Hd. apply ltb_zero_nonpos. unfold time.Seconds.
  apply add_nonpos.
  - apply of_Z_nonpos. unfold time.Second.
    replace d with (- (- d)) by lia. rewrite Z.quot_opp_l by lia.
    pose proof (Z.quot_pos (- d) 1000000000 ltac:(lia) ltac:(lia)). lia.
  - change (F64.of_Z 1000000000) with (S754_finite false 8388608000000000 (-23)).
    apply div_nonpos, of_Z_nonpos. unfold time.Second.
    apply Z.rem_nonpos; lia.
Qed.

Lemma Sub_nonpos t u : t <= u -> time.Sub t u <= 0.
Proof.
  intros H. unfold time.Sub, minInt64, maxInt64.
  destruct (t - u <? - 2 ^ 63) eqn:E1; [lia|].
  destruct (2 ^ 63 - 1 <? t - u) eqn:E2; [apply Z.ltb_lt in E2; lia|lia].
Qed.

Lemma rate_published_future env iface :
  currentTime env <= interfaceData.lastUpdateTime iface ->
  rate_published env iface = false.
Proof.
  intros H. unfold rate_published, timeDiffSeconds.
  rewrite (Seconds_nonpos _ (Sub_nonpos _ _ H)). apply andb_false_r.
Qed.

(** *** What the fast tick does then *)

Lemma publishInterface_rate_entries_unpublished env iface d :
  (rate_published env iface = true ->
   interfaceData.index iface <> interfaceData.index d) ->
  forall w, rate_entries (snd (publishInterface env iface w)) d = rate_entries w d.
Proof.
  intros H w. destruct (rate_published env iface) eqn:E.
  - apply publishInterface_rate_entries. intros _. exact (H eq_refl).
  - rewrite (publishInterface_skip _ _ _ E). reflexivity.
Qed.

Lemma fast_tick_rate_entries_unpublished env st d :
  (forall y, y ∈ interfaces (world st) -> rate_published env y = true ->
             interfaceData.index y <> interfaceData.index d) ->
  rate_entries (world (fast_tick env st)) d = rate_entries (world st) d.
Proof.
  intros Hno. rewrite fast_tick_world.
  destruct (monitorSystemMetrics_iter_stages env (locals st) (world st))
    as [lastGC w1 cpu w2 mem w3 temp w4 w5 w6 w7 tables w8 w9 E1 E2 E3 E4 E5 E6 E7 E8 E9].
  cbn [snd].
  assert (Hifs : interfaces w4 = interfaces (world st)).
  { carry interfaces E4. carry interfaces E3. carry interfaces E2.
    carry interfaces E1. reflexivity. }
  assert (H5 : rate_entries w5 d = rate_entries w4 d).
  { rewrite publishInterfaces_eq, Hifs in E5.
    pose proof (preserves_forEach_in (fun w => rate_entries w d) (publishInterface env)
                  (interfaces (world st))) as H.
    rewrite <- (H ltac:(intros y Hy w0; apply publishInterface_rate_entries_unpublished;
                        intros Hup; exact (Hno y Hy Hup)) w4).
    rewrite E5. reflexivity. }
  unfold rate_entries in *.
  carry (fun w => ifInRate (reg w) !! interfaceData.labels d) E9.
  carry (fun w => ifInRate (reg w) !! interfaceData.labels d) E8.
  carry (fun w => ifInRate (reg w) !! interfaceData.labels d) E7.
  carry (fun w => ifInRate (reg w) !! interfaceData.labels d) E6.
  carry (fun w => ifOutRate (reg w) !! interfaceData.labels d) E9.
  carry (fun w => ifOutRate (reg w) !! interfaceData.labels d) E8.
  carry (fun w => ifOutRate (reg w) !! interfaceData.labels d) E7.
  carry (fun w => ifOutRate (reg w) !! interfaceData.labels d) E6.
  carry_key (fun w => oidMap w !! ifInRateOID (interfaceData.index d)) E9.
  carry_key (fun w => oidMap w !! ifInRateOID (interfaceData.index d)) E8.
  carry_key (fun w => oidMap w !! ifInRateOID (interfaceData.index d)) E7.
  carry_key (fun w => oidMap w !! ifInRateOID (interfaceData.index d)) E6.
  carry_key (fun w => oidMap w !! ifOutRateOID (interfaceData.index d)) E9.
  carry_key (fun w => oidMap w !! ifOutRateOID (interfaceData.index d)) E8.
  carry_key (fun w => oidMap w !! ifOutRateOID (interfaceData.index d)) E7.
  carry_key (fun w => oidMap w !! ifOutRateOID (interfaceData.index d)) E6.
  rewrite H5.
  carry (fun w => ifInRate (reg w) !! interfaceData.labels d) E4.
  carry (fun w => ifInRate (reg w) !! interfaceData.labels d) E3.
  carry (fun w => ifInRate (reg w) !! interfaceData.labels d) E2.
  carry (fun w => ifInRate (reg w) !! interfaceData.labels d) E1.
  carry (fun w => ifOutRate (reg w) !! interfaceData.labels d) E4.
  carry (fun w => ifOutRate (reg w) !! interfaceData.labels d) E3.
  carry (fun w => ifOutRate (reg w) !! interfaceData.labels d) E2.
  carry (fun w => ifOutRate (reg w) !! interfaceData.labels d) E1.
  carry oidMap E4. carry oidMap E3. carry oidMap E2. carry oidMap E1.
  reflexivity.
Qed.

Lemma NoDup_index_eq (l : list interfaceData.t) x y :
  NoDup (interfaceData.index <$> l) -> x ∈ l -> y ∈ l ->
  interfaceData.index x = interfaceData.index y -> x = y.
Proof.
  intros Hnd Hx Hy E.
  apply list_elem_of_lookup in Hx as [i Hi]. apply list_elem_of_lookup in Hy as [j Hj].
  assert (i = j).
  { apply (NoDup_lookup _ i j (interfaceData.index x) Hnd).
    - rewrite list_lookup_fmap, Hi. reflexivity.
    - rewrite list_lookup_fmap, Hj, E. reflexivity. }
  subst j. congruence.
Qed.

(** X24. No rate without elapsed time. A fast tick whose time is not strictly
    after the baseline of an interface, for instance one that comes in the
    same instant as the slow tick or carries an earlier timestamp, computes
    no rate for it and so never divides by a duration that is zero or
    negative: the two rate samples of the registry and the two rate entries
    of the store of that interface stay what they were. The indexes of the
    interfaces are distinct. *)
Theorem no_rate_without_elapsed_time env st d :
  NoDup (interfaceData.index <$> interfaces (world st)) ->
  d ∈ interfaces (world st) ->
  currentTime env <= interfaceData.lastUpdateTime d ->
  F64.ltb (F64.of_Z 0)
    (time.Seconds (time.Sub (currentTime env) (interfaceData.lastUpdateTime d))) = false
  /\ rate_entries (world (fast_tick env st)) d = rate_entries (world st) d.
Proof.
  intros Hnd Hd Ht. split; [exact (Seconds_nonpos _ (Sub_nonpos _ _ Ht))|].
  apply fast_tick_rate_entries_unpublished. intros y Hy Hpub E.
  rewrite (NoDup_index_eq _ y d Hnd Hy Hd E) in Hpub.
  rewrite (rate_published_future env d Ht) in Hpub. discriminate.
Qed.

Lemma no_rate_without_elapsed_time_witness :
  NoDup (interfaceData.index <$> interfaces (world sampleTrafficState))
  /\ sampleInterface ∈ interfaces (world sampleTrafficState)
  /\ currentTime sampleEnv <= interfaceData.lastUpdateTime sampleInterface
  /\ F64.ltb (F64.of_Z 0)
       (time.Seconds (time.Sub (currentTime sampleEnv)
                        (interfaceData.lastUpdateTime sampleInterface))) = false
  /\ rate_entries (world (fast_tick sampleEnv sampleTrafficState)) sampleInterface
     = rate_entries (world sampleTrafficState) sampleInterface.
Proof.
  assert (Ht : currentTime sampleEnv <= interfaceData.lastUpdateTime sampleInterface)
    by (cbn; lia).
  split; [exact sampleTrafficState_NoDup_index|]. split; [exact sampleInterface_in|].
  split; [exact Ht|].
  exact (no_rate_without_elapsed_time sampleEnv sampleTrafficState sampleInterface
           sampleTrafficState_NoDup_index sampleInterface_in Ht).
Defined.
